(** * WhatsappBridge: the event pipeline, embedded from the JavaScript sources

    The development follows the repository's layout:
    - [JS]: the fragment of the JavaScript runtime the code relies on
      (values, truthiness, property access, optional chaining, the string and
      array methods that are called on event data, [Date#toISOString]);
    - [EventTransformers]: templates/eventTransformers.js;
    - [EventProcessor], [NATSManager], [StatsCollector]: the managers of src/;
    - [Bridge]: index.js, the per-event pipeline and the polling loop;
    - [Dedup]: the in-page deduplication helpers of store.js and
      BrowserManager.js;
    - [Capture]: the listeners BrowserManager.js injects into the page and
      the queue they fill. *)

From Stdlib Require Import ZArith Lia Bool List Ascii String.
From stdpp Require Import base option list strings pretty gmap fin_maps.
Import ListNotations.

Local Open Scope string_scope.
Local Open Scope Z_scope.

(** ** Outcomes of a JavaScript computation *)

(** What a [throw] carries.  Engines word their messages differently, so a
    runtime error is kept by its cause; errors the program creates itself
    with [new Error(msg)] keep their message. *)
Inductive JSError : Type :=
  | NotAFunction (method : string)   (* TypeError: x.method is not a function *)
  | NullAccess (prop : string)       (* TypeError: cannot read properties of null/undefined *)
  | NotPrimitive                     (* TypeError: cannot convert object to primitive value *)
  | InvalidTime                      (* RangeError: Invalid time value *)
  | ErrorMsg (message : string).     (* new Error(message) *)

(** A computation returns, throws, or leaves the fragment of the runtime that
    is modelled here ([Beyond]: string-to-number conversion of anything but a
    plain digit string, the text of a host function, the printing of numbers
    that are not safe integers).  No statement below gives [Beyond] a
    meaning. *)
Inductive Outcome (A : Type) : Type :=
  | Ret (a : A)
  | Throw (e : JSError)
  | Beyond.
Arguments Ret {A} a.
Arguments Throw {A} e.
Arguments Beyond {A}.

Definition bind {A B} (m : Outcome A) (k : A -> Outcome B) : Outcome B :=
  match m with
  | Ret a => k a
  | Throw e => Throw e
  | Beyond => Beyond
  end.

Declare Scope js_scope.
Delimit Scope js_scope with js.
Notation "'let*' x ':=' m 'in' k" := (bind m (fun x => k))
  (at level 10, x name, m at level 100, k at level 200) : js_scope.
Local Open Scope js_scope.

Definition returns {A} (m : Outcome A) : Prop := exists a, m = Ret a.

(** ** The JavaScript fragment *)
Module JS.

(** Values.  Events cross the browser boundary as JSON, so they are made of
    [JUndefined] (a missing property), null, booleans, numbers, strings,
    arrays and plain objects.  [JNum] carries integer-valued numbers (ack
    levels, epoch seconds, durations); the model is exact on the safe
    integers.  An object is its list of own properties, looked up by first
    match.  [JHost] stands for a function or object of the runtime itself
    (what [ackMap["toString"]] evaluates to); it never occurs in an event. *)
#[warnings="-register-all"]
Inductive Value : Type :=
  | JUndefined
  | JNull
  | JBool (b : bool)
  | JNum (z : Z)
  | JStr (s : string)
  | JArr (items : list Value)
  | JObj (fields : list (string * Value))
  | JHost (name : string).

Definition nullish (v : Value) : bool :=
  match v with JUndefined | JNull => true | _ => false end.

(** ToBoolean *)
Definition truthy (v : Value) : bool :=
  match v with
  | JUndefined | JNull => false
  | JBool b => b
  | JNum z => negb (z =? 0)
  | JStr s => negb (String.eqb s "")
  | JArr _ | JObj _ | JHost _ => true
  end.

(** [a || b] on already evaluated operands; the program's short-circuits
    over effectful operands are written with [if truthy ...] in place. *)
Definition or (a b : Value) : Value := if truthy a then a else b.

Fixpoint lookup_field (k : string) (fs : list (string * Value)) : Value :=
  match fs with
  | [] => JUndefined
  | (k', v) :: rest => if String.eqb k k' then v else lookup_field k rest
  end.

Definition has_own (k : string) (fs : list (string * Value)) : bool :=
  existsb (fun kv => String.eqb k (fst kv)) fs.

(** [v.k] for the data field names the program reads ([data], [id],
    [remote], [_serialized], [from], [user], [type], ...): none of them is
    defined by a builtin prototype, so on anything but an object with that
    own property the access gives undefined; on null and undefined it
    throws. *)
Definition get (v : Value) (k : string) : Outcome Value :=
  match v with
  | JUndefined | JNull => Throw (NullAccess k)
  | JObj fs => Ret (lookup_field k fs)
  | _ => Ret JUndefined
  end.

(** [v?.k] *)
Definition opt (v : Value) (k : string) : Value :=
  match v with
  | JObj fs => lookup_field k fs
  | _ => JUndefined
  end.

(** [v === s] for a string literal or a configured string [s]. *)
Definition is_str (v : Value) (s : string) : bool :=
  match v with JStr s' => String.eqb s' s | _ => false end.

(** [a === b].  On primitives this is equality of values.  On objects the
    program only ever compares the value a transformer returned with the
    envelope it was given; a transformer returns that envelope itself or an
    object it has just built, so structural equality stands for identity. *)
Fixpoint strict_equal (a b : Value) : bool :=
  match a, b with
  | JUndefined, JUndefined => true
  | JNull, JNull => true
  | JBool x, JBool y => Bool.eqb x y
  | JNum x, JNum y => Z.eqb x y
  | JStr x, JStr y => String.eqb x y
  | JHost x, JHost y => String.eqb x y
  | JArr l, JArr l' =>
      (fix go (l l' : list Value) {struct l} : bool :=
         match l, l' with
         | [], [] => true
         | x :: xs, y :: ys => strict_equal x y && go xs ys
         | _, _ => false
         end) l l'
  | JObj fs, JObj fs' =>
      (fix go (l l' : list (string * Value)) {struct l} : bool :=
         match l, l' with
         | [], [] => true
         | (k, x) :: xs, (k', y) :: ys =>
             String.eqb k k' && strict_equal x y && go xs ys
         | _, _ => false
         end) fs fs'
  | _, _ => false
  end.

(** *** Strings *)

(** [hay.includes(needle)] *)
Fixpoint str_includes (needle hay : string) : bool :=
  String.prefix needle hay ||
  match hay with
  | EmptyString => false
  | String _ rest => str_includes needle rest
  end.

(** [s.startsWith(p)] *)
Definition str_starts_with (p s : string) : bool := String.prefix p s.

(** [s.replace(/@(c\.us|lid)$/, '')]: the pattern is anchored at the end
    of the input, so the one match, if any, is the whole remaining suffix. *)
Fixpoint strip_jid_suffix (s : string) : string :=
  match s with
  | EmptyString => EmptyString
  | String c rest =>
      if String.eqb s "@c.us" || String.eqb s "@lid" then EmptyString
      else String c (strip_jid_suffix rest)
  end.

Definition safe_integer (z : Z) : bool := Z.abs z <=? 2 ^ 53.

(** Number#toString for an integer-valued number. *)
Definition number_to_string (z : Z) : Outcome string :=
  if safe_integer z then Ret (pretty z) else Beyond.

(** ToString, as applied to property keys and template literals. *)
Fixpoint to_string (v : Value) : Outcome string :=
  match v with
  | JUndefined => Ret "undefined"
  | JNull => Ret "null"
  | JBool b => Ret (if b then "true" else "false")
  | JNum z => number_to_string z
  | JStr s => Ret s
  | JArr items =>
      (fix join (l : list Value) : Outcome string :=
         match l with
         | [] => Ret ""
         | x :: rest =>
             let* a := (if nullish x then Ret "" else to_string x) in
             match rest with
             | [] => Ret a
             | _ => let* b := join rest in Ret (a +:+ "," +:+ b)
             end
         end) items
  | JObj fs =>
      if has_own "toString" fs then Throw NotPrimitive
      else Ret "[object Object]"
  | JHost _ => Beyond
  end.

(** [v?.toString()] *)
Definition opt_call_toString (v : Value) : Outcome Value :=
  match v with
  | JUndefined | JNull => Ret JUndefined
  | JObj fs =>
      if has_own "toString" fs then Throw (NotAFunction "toString")
      else Ret (JStr "[object Object]")
  | _ => let* s := to_string v in Ret (JStr s)
  end.

(** [v?.includes(needle)]: String#includes on a string, Array#includes on
    an array, no such method on anything else. *)
Definition opt_call_includes (v : Value) (needle : string) : Outcome Value :=
  match v with
  | JUndefined | JNull => Ret JUndefined
  | JStr s => Ret (JBool (str_includes needle s))
  | JArr items => Ret (JBool (existsb (fun x => is_str x needle) items))
  | _ => Throw (NotAFunction "includes")
  end.

(** [v.startsWith(p)] on a value already known to be truthy. *)
Definition call_startsWith (v : Value) (p : string) : Outcome bool :=
  match v with
  | JStr s => Ret (str_starts_with p s)
  | JUndefined | JNull => Throw (NullAccess "startsWith")
  | _ => Throw (NotAFunction "startsWith")
  end.

(** [v.replace(/@(c\.us|lid)$/, '')] *)
Definition call_replace_jid (v : Value) : Outcome Value :=
  match v with
  | JStr s => Ret (JStr (strip_jid_suffix s))
  | JUndefined | JNull => Throw (NullAccess "replace")
  | _ => Throw (NotAFunction "replace")
  end.

(** [list.includes(v)] for a configured list of strings. *)
Definition list_includes (l : list string) (v : Value) : bool :=
  existsb (fun s => is_str v s) l.

(** The properties every plain object inherits from [Object.prototype]. *)
Definition object_prototype_keys : list string :=
  [ "constructor"; "__defineGetter__"; "__defineSetter__"; "hasOwnProperty";
    "__lookupGetter__"; "__lookupSetter__"; "isPrototypeOf";
    "propertyIsEnumerable"; "toString"; "valueOf"; "__proto__";
    "toLocaleString" ].

(** [obj[key]] on a plain object given by its own properties: the key is
    converted to a string, own properties come first, then the inherited
    ones. *)
Definition index_object (own : list (string * Value)) (key : Value)
  : Outcome Value :=
  let* k := to_string key in
  if has_own k own then Ret (lookup_field k own)
  else if existsb (String.eqb k) object_prototype_keys then Ret (JHost k)
  else Ret JUndefined.

(** *** Dates *)

Fixpoint zeros (n : nat) : string :=
  match n with O => "" | S n' => String "0" (zeros n') end.

Definition pad (width : nat) (z : Z) : string :=
  let s := pretty (Z.abs z) in
  zeros (width - String.length s)%nat +:+ s.

(** Proleptic Gregorian date of a day count since 1970-01-01. *)
Definition civil_from_days (days : Z) : Z * Z * Z :=
  let z := days + 719468 in
  let era := z / 146097 in
  let doe := z - era * 146097 in
  let yoe := (doe - doe / 1460 + doe / 36524 - doe / 146096) / 365 in
  let doy := doe - (365 * yoe + yoe / 4 - yoe / 100) in
  let mp := (5 * doy + 2) / 153 in
  let d := doy - (153 * mp + 2) / 5 + 1 in
  let m := if mp <? 10 then mp + 3 else mp - 9 in
  let y := yoe + era * 400 + (if m <=? 2 then 1 else 0) in
  (y, m, d).

(** Date#toISOString of a valid time value in milliseconds. *)
Definition iso_of_ms (ms : Z) : string :=
  let days := ms / 86400000 in
  let r := ms mod 86400000 in
  let '(y, m, d) := civil_from_days days in
  let year :=
    if (0 <=? y) && (y <=? 9999) then pad 4 y
    else (if y <? 0 then "-" else "+") +:+ pad 6 y in
  year +:+ "-" +:+ pad 2 m +:+ "-" +:+ pad 2 d +:+ "T" +:+
  pad 2 (r / 3600000) +:+ ":" +:+ pad 2 ((r / 60000) mod 60) +:+ ":" +:+
  pad 2 ((r / 1000) mod 60) +:+ "." +:+ pad 3 (r mod 1000) +:+ "Z".

Definition is_digit (c : ascii) : bool :=
  let n := nat_of_ascii c in (48 <=? n)%nat && (n <=? 57)%nat.

Fixpoint digits_value (acc : Z) (s : string) : option Z :=
  match s with
  | EmptyString => Some acc
  | String c rest =>
      if is_digit c
      then digits_value (10 * acc + (Z.of_nat (nat_of_ascii c) - 48)) rest
      else None
  end.

(** ToNumber; [None] is NaN.  Of the strings only the empty one and the
    plain digit strings are converted here. *)
Definition to_number (v : Value) : Outcome (option Z) :=
  let of_string (s : string) : Outcome (option Z) :=
    match digits_value 0 s with
    | Some n => Ret (Some n)
    | None => Beyond
    end in
  match v with
  | JUndefined => Ret None
  | JNull => Ret (Some 0)
  | JBool b => Ret (Some (if b then 1 else 0))
  | JNum z => Ret (Some z)
  | JStr s => of_string s
  | JArr _ => let* s := to_string v in of_string s
  | JObj fs => if has_own "toString" fs then Throw NotPrimitive else Ret None
  | JHost _ => Beyond
  end.

Definition max_time_value : Z := 8640000000000000.

(** [new Date(v * 1000).toISOString()] *)
Definition iso_of_seconds (v : Value) : Outcome string :=
  let* n := to_number v in
  match n with
  | None => Throw InvalidTime
  | Some z =>
      if Z.abs (z * 1000) <=? max_time_value then Ret (iso_of_ms (z * 1000))
      else Throw InvalidTime
  end.

End JS.

(** ** templates/eventTransformers.js *)
Module EventTransformers.
Import JS.

(** One entry of [ignoredTypes]: [{ type, subtypes? }]. *)
Record IgnoreRule : Type := {
  ig_type : string;
  ig_subtypes : option (list string)
}.

(** The fields of an [EventTransformers] instance. *)
Record t : Type := {
  eventTypes : list (string * Value);
  messageTypes : list string;
  ignoredTypes : list IgnoreRule;
  groupActions : list (string * Value)
}.

Definition _getDefaultEventTypes : list (string * Value) :=
  [ ("STATUS_CREATED", JStr "status_created");
    ("STATUS_RECEIVED", JStr "status_received");
    ("STATUS_READ", JStr "status_read");
    ("MESSAGE_SENT", JStr "message_sent");
    ("MESSAGE_DELIVERED", JStr "message_delivered");
    ("MESSAGE_READ", JStr "message_read");
    ("MESSAGE_PLAYED", JStr "message_played");
    ("MESSAGE_CREATED", JStr "message_created");
    ("MESSAGE_REVOKED", JStr "message_revoked");
    ("DISAPPEARING_MODE_CHANGED", JStr "disappearing_mode_changed") ].

Definition _getDefaultMessageTypes : list string :=
  [ "chat"; "image"; "video"; "audio"; "document"; "sticker"; "ptt"; "ptv";
    "album"; "gp2"; "revoked"; "notification_template" ].

Definition _getDefaultIgnoredTypes : list IgnoreRule :=
  [ {| ig_type := "e2e_notification"; ig_subtypes := Some ["encrypt"] |};
    {| ig_type := "ciphertext"; ig_subtypes := None |} ].

Definition _getDefaultGroupActions : list (string * Value) :=
  [ ("add", JStr "member_added");
    ("remove", JStr "member_removed");
    ("promote", JStr "member_promoted");
    ("demote", JStr "member_demoted");
    ("modify", JStr "group_modified");
    ("create", JStr "group_created");
    ("subject", JStr "name_changed");
    ("description", JStr "description_changed");
    ("picture", JStr "picture_changed") ].

(** The parsed config/eventTypes.json; the file is not part of the
    sources, so its four sections are taken as given, [None] where the
    file leaves a section out. *)
Record EventTypesConfig : Type := {
  cfg_eventTypes : option (list (string * Value));
  cfg_messageTypes : option (list string);
  cfg_ignoredTypes : option (list IgnoreRule);
  cfg_groupActions : option (list (string * Value))
}.

Definition constructor (cfg : EventTypesConfig) : t :=
  {| eventTypes := default _getDefaultEventTypes (cfg_eventTypes cfg);
     messageTypes := default _getDefaultMessageTypes (cfg_messageTypes cfg);
     ignoredTypes := default _getDefaultIgnoredTypes (cfg_ignoredTypes cfg);
     groupActions := default _getDefaultGroupActions (cfg_groupActions cfg) |}.

Definition defaults : t :=
  constructor {| cfg_eventTypes := None; cfg_messageTypes := None;
                 cfg_ignoredTypes := None; cfg_groupActions := None |}.

(** [obj.k = v] on an object under construction: an existing property
    keeps its place, a new one goes last. *)
Fixpoint set_field (k : string) (v : Value) (fs : list (string * Value))
  : list (string * Value) :=
  match fs with
  | [] => [(k, v)]
  | (k', v') :: rest =>
      if String.eqb k k' then (k, v) :: rest
      else (k', v') :: set_field k v rest
  end.

Section Methods.
Variable this : t.

(** [this.eventTypes.NAME] *)
Definition eventType (name : string) : Value :=
  lookup_field name (eventTypes this).

Definition _isStatusEvent (event : Value) : Outcome bool :=
  let* d := get event "data" in
  let od := opt d "data" in
  Ret (is_str (opt (opt (opt od "id") "remote") "_serialized")
              "status@broadcast"
       || is_str (opt (opt od "from") "user") "status").

Definition ackMap (isStatus : bool) : list (string * Value) :=
  if isStatus then
    [ ("1", eventType "STATUS_CREATED");
      ("2", eventType "STATUS_RECEIVED");
      ("3", eventType "STATUS_READ") ]
  else
    [ ("1", eventType "MESSAGE_SENT");
      ("2", eventType "MESSAGE_DELIVERED");
      ("3", eventType "MESSAGE_READ");
      ("4", eventType "MESSAGE_PLAYED") ].

Definition _getEventTypeByAck (ack : Value) (isStatus : bool)
  : Outcome Value :=
  let* hit := index_object (ackMap isStatus) ack in
  Ret (or hit (if isStatus then JNull else eventType "MESSAGE_CREATED")).

Definition _isGroupMessage (originalData : Value) : Outcome Value :=
  let* from := get originalData "from" in
  let* a := opt_call_includes (opt from "user") "@g.us" in
  if truthy a then Ret a else
  let* id := get originalData "id" in
  let* b := opt_call_includes (opt (opt id "remote") "user") "@g.us" in
  if truthy b then Ret b else
  let* raw := get originalData "__raw" in
  opt_call_includes (opt raw "from") "@g.us".

Definition _normalizeId (id : Value) : Outcome Value :=
  if truthy id then call_replace_jid id else Ret JNull.

Definition _getMediaFormat (originalData : Value) : Outcome Value :=
  let* raw := get originalData "__raw" in
  let mimetype := opt raw "mimetype" in
  let* isAudioOrVideo :=
    (if truthy mimetype then
       let* a := call_startsWith mimetype "audio/" in
       if a then Ret (JBool true) else
       let* v := call_startsWith mimetype "video/" in Ret (JBool v)
     else Ret mimetype) in
  let* type := get originalData "type" in
  let* isText :=
    (if is_str type "chat" then Ret (JBool true)
     else if negb (truthy isAudioOrVideo) then get originalData "body"
     else Ret (JBool false)) in
  Ret (or mimetype (if truthy isText then JStr "text" else JNull)).

Definition _buildBaseTransformedEvent
    (event originalData : Value) (transformedData : list (string * Value))
  : Outcome Value :=
  let* id := get event "id" in
  let* ts := get originalData "timestamp" in
  let* timestamp :=
    (if truthy ts then let* s := iso_of_seconds ts in Ret (JStr s)
     else get event "timestamp") in
  Ret (JObj [ ("internal_event_id", id);
              ("timestamp", timestamp);
              ("data", JObj transformedData) ]).

(** The callback of [ignoredTypes.some(...)]. *)
Definition rule_matches (eventData : Value) (ignored : IgnoreRule) : bool :=
  if is_str (opt eventData "type") (ig_type ignored) then
    match ig_subtypes ignored with
    | Some subtypes =>
        list_includes subtypes
          (or (opt eventData "subtype")
              (opt (opt eventData "__raw") "subtype"))
    | None => true
    end
  else false.

Definition shouldIgnoreEvent (event : Value) : Outcome bool :=
  let* d := get event "data" in
  let eventData := or (opt d "data") d in
  Ret (existsb (rule_matches eventData) (ignoredTypes this)).

Definition isIgnored (event : Value) : Outcome bool :=
  shouldIgnoreEvent event.

(** [if (originalData.body && originalData.type === 'chat')
       transformedData.body = originalData.body] *)
Definition add_body (originalData : Value)
    (transformedData : list (string * Value))
  : Outcome (list (string * Value)) :=
  let* body := get originalData "body" in
  if truthy body then
    let* type := get originalData "type" in
    if is_str type "chat" then Ret (set_field "body" body transformedData)
    else Ret transformedData
  else Ret transformedData.

Definition transformStatusEvent (event : Value) : Outcome Value :=
  let* status := _isStatusEvent event in
  if negb status then Ret JNull else
  let* d := get event "data" in
  let* originalData := get d "data" in
  let* ack := get originalData "ack" in
  let* eventType := _getEventTypeByAck ack true in
  if negb (truthy eventType) then Ret JNull else
  let* id := get originalData "id" in
  let* format := _getMediaFormat originalData in
  let* from := get originalData "from" in
  let* to_ := get originalData "to" in
  let* ts := get originalData "timestamp" in
  let* read_time := opt_call_toString ts in
  let transformedData :=
    [ ("status_id", or (opt id "id") JNull);
      ("type", eventType);
      ("format", format);
      ("status_author_number",
         or (opt (opt id "participant") "user") (or (opt from "user") JNull));
      ("reader_number", or (opt to_ "user") JNull);
      ("read_time", or read_time JNull);
      ("fromMe", or (opt id "fromMe") (JBool false)) ] in
  let* transformedData := add_body originalData transformedData in
  _buildBaseTransformedEvent event originalData transformedData.

Definition _handleNotificationTemplate (originalData : Value)
    (transformedData : list (string * Value))
  : Outcome (list (string * Value)) :=
  let* raw := get originalData "__raw" in
  let subtype := opt raw "subtype" in
  if is_str subtype "disappearing_mode" then
    let td := set_field "type" (eventType "DISAPPEARING_MODE_CHANGED")
                transformedData in
    let td := set_field "ephemeral_duration"
                (or (opt raw "ephemeralDuration") JNull) td in
    let* user := _normalizeId (opt raw "ephemeralSettingUser") in
    Ret (set_field "setting_user" user td)
  else
    Ret (set_field "notification_type" (or subtype (JStr "unknown"))
           transformedData).

Definition _handleRevokedMessage (originalData : Value)
    (transformedData : list (string * Value))
  : Outcome (list (string * Value)) :=
  let td := set_field "type" (eventType "MESSAGE_REVOKED") transformedData in
  let* raw := get originalData "__raw" in
  let* revoked_at := opt_call_toString (opt raw "revokeTimestamp") in
  let td := set_field "revoke_timestamp" (or revoked_at JNull) td in
  let* id := get originalData "id" in
  let* by_ :=
    _normalizeId (or (opt (opt id "participant") "user") (opt raw "author")) in
  let td := set_field "revoked_by" by_ td in
  Ret (set_field "original_message_id"
         (or (opt (opt raw "protocolMessageKey") "id") JNull) td).

(** [recipients.map(id => this._normalizeId(id))] *)
Fixpoint map_normalizeId (items : list Value) : Outcome (list Value) :=
  match items with
  | [] => Ret []
  | x :: rest =>
      let* y := _normalizeId x in
      let* ys := map_normalizeId rest in
      Ret (y :: ys)
  end.

Definition _handleGroupEvent (originalData : Value)
    (transformedData : list (string * Value))
  : Outcome (list (string * Value)) :=
  let* raw := get originalData "__raw" in
  let subtype := opt raw "subtype" in
  let recipients := or (opt raw "recipients") (JArr []) in
  let* action := index_object (groupActions this) subtype in
  let td := set_field "group_action"
              (or action (or subtype (JStr "unknown"))) transformedData in
  let* mapped :=
    match recipients with
    | JArr items => map_normalizeId items
    | _ => Throw (NotAFunction "map")
    end in
  let td := set_field "recipients" (JArr (List.filter truthy mapped)) td in
  let* id := get originalData "id" in
  let* by_ :=
    _normalizeId (or (opt (opt id "participant") "user") (opt raw "author")) in
  Ret (set_field "action_by" by_ td).

Definition _handleSpecialMessageTypes (originalData : Value)
    (transformedData : list (string * Value))
  : Outcome (list (string * Value)) :=
  let* type := get originalData "type" in
  if is_str type "notification_template" then
    _handleNotificationTemplate originalData transformedData
  else if is_str type "revoked" then
    _handleRevokedMessage originalData transformedData
  else if is_str type "gp2" then
    _handleGroupEvent originalData transformedData
  else Ret transformedData.

Definition transformChatMessage (event : Value) : Outcome Value :=
  let* d := get event "data" in
  let originalData := opt d "data" in
  let accepted :=
    truthy originalData
    && list_includes (messageTypes this) (opt originalData "type") in
  if negb accepted then Ret JNull else
  let* ack := get originalData "ack" in
  let* messageType := _getEventTypeByAck ack false in
  let* isGroupMessage := _isGroupMessage originalData in
  let* id := get originalData "id" in
  let* raw := get originalData "__raw" in
  let* type := get originalData "type" in
  let* from := get originalData "from" in
  let* from_number :=
    (if truthy isGroupMessage then
       let participant := opt (opt id "participant") "user" in
       if truthy participant then Ret participant else
       let* author := _normalizeId (opt raw "author") in
       Ret (or author (opt from "user"))
     else Ret (or (opt from "user") JNull)) in
  let* to_ := get originalData "to" in
  let* ts := get originalData "timestamp" in
  let* message_time := opt_call_toString ts in
  let transformedData :=
    [ ("message_id", or (opt id "id") JNull);
      ("type", messageType);
      ("format", or (opt raw "mimetype") type);
      ("from_number", from_number);
      ("to_number", or (opt to_ "user") JNull);
      ("isGroup", isGroupMessage);
      ("group_id",
         if truthy isGroupMessage
         then or (opt from "user") (or (opt (opt id "remote") "user") JNull)
         else JNull);
      ("fromMe", or (opt id "fromMe") (JBool false));
      ("message_time", or message_time JNull) ] in
  let* transformedData :=
    _handleSpecialMessageTypes originalData transformedData in
  let* transformedData := add_body originalData transformedData in
  _buildBaseTransformedEvent event originalData transformedData.

Definition transform (event : Value) : Outcome Value :=
  let* ignored := shouldIgnoreEvent event in
  if ignored then Ret JNull else
  let* statusTransformed := transformStatusEvent event in
  if truthy statusTransformed then Ret statusTransformed else
  let* chatTransformed := transformChatMessage event in
  if truthy chatTransformed then Ret chatTransformed else
  Ret event.

End Methods.
End EventTransformers.

(** ** Stateful code: a state that survives a [throw] *)

(** The managers mutate their fields and may throw half-way through a method
    ([updateEventStats] has already counted the event when the conversion of
    its type to a property key fails), so an effectful computation returns
    its outcome together with the state it leaves behind. *)
Definition Eff (S A : Type) : Type := S -> Outcome A * S.

Definition eret {S A} (a : A) : Eff S A := fun s => (Ret a, s).

Definition ebind {S A B} (m : Eff S A) (k : A -> Eff S B) : Eff S B :=
  fun s =>
    match m s with
    | (Ret a, s') => k a s'
    | (Throw e, s') => (Throw e, s')
    | (Beyond, s') => (Beyond, s')
    end.

Definition lift {S A} (o : Outcome A) : Eff S A := fun s => (o, s).

Definition modify {S} (f : S -> S) : Eff S unit := fun s => (Ret tt, f s).

Definition gets {S A} (f : S -> A) : Eff S A := fun s => (Ret (f s), s).

(** [try { m } catch (error) { handler error }] *)
Definition try_catch {S A} (m : Eff S A) (handler : JSError -> Eff S A)
  : Eff S A :=
  fun s =>
    match m s with
    | (Throw e, s') => handler e s'
    | r => r
    end.

(** [try { m } finally { cleanup }] for a cleanup that does not throw. *)
Definition finally {S A} (m : Eff S A) (cleanup : S -> S) : Eff S A :=
  fun s => let '(o, s') := m s in (o, cleanup s').

(** Run a method of a component on the field that holds the component. *)
Definition zoom {S T A} (proj : S -> T) (upd : T -> S -> S) (m : Eff T A)
  : Eff S A :=
  fun s => let '(o, t') := m (proj s) in (o, upd t' s).

Declare Scope eff_scope.
Delimit Scope eff_scope with eff.
Notation "x <- m ;; k" := (ebind m (fun x => k))
  (at level 100, m at next level, right associativity) : eff_scope.
Notation "m ;;; k" := (ebind m (fun _ => k))
  (at level 100, right associativity) : eff_scope.

(** ** config/config.json *)

(** The configuration file is not part of the sources; the sections the
    pipeline reads are taken as given. *)
Module Config.

Record Nats : Type := {
  subject : string;
  contactSubject : string;
  ignoredSubject : string;
  precenseSubject : option string   (* [None]: the key is absent *)
}.

Record Polling : Type := {
  interval : Z;
  retryDelay : Z;
  maxRetries : Z
}.

Record t : Type := {
  nats : Nats;
  polling : Polling;
  debug_enabled : bool
}.

End Config.

(** ** src/StatsCollector.js *)
Module StatsCollector.
Import JS.

Record EventStats : Type := {
  total : Z;
  byType : gmap string Z;
  lastReset : Z;
  errors : Z;
  filtered : Z;
  ignored : Z
}.

Record MessageStats : Type := {
  mainSubject : Z;
  contactSubject : Z;
  ignoredSubject : Z;
  presenceSubject : Z;
  messagesLastReset : Z;     (* messageStats.lastReset *)
  publishErrors : Z          (* messageStats.errors *)
}.

(** [averageProcessingTime] is the quotient of the sum of the kept samples
    by their number; it is kept as that pair. *)
Record PerformanceStats : Type := {
  eventProcessingTimes : list Z;
  averageProcessingTime : Z * Z;
  maxProcessingTime : Z;
  minProcessingTime : option Z   (* [None] is Infinity *)
}.

Record t : Type := {
  eventStats : EventStats;
  messageStats : MessageStats;
  performanceStats : PerformanceStats
}.

(** The statistics of the constructor and of [resetStats], at [Date.now()]
    equal to [now]. *)
Definition fresh (now : Z) : t :=
  {| eventStats := {| total := 0; byType := ∅; lastReset := now;
                      errors := 0; filtered := 0; ignored := 0 |};
     messageStats := {| mainSubject := 0; contactSubject := 0;
                        ignoredSubject := 0; presenceSubject := 0;
                        messagesLastReset := now; publishErrors := 0 |};
     performanceStats := {| eventProcessingTimes := [];
                            averageProcessingTime := (0, 1);
                            maxProcessingTime := 0;
                            minProcessingTime := None |} |}.

(** The second argument of [updateEventStats]; ['processed'] is its
    default. *)
Inductive Action : Type := processed | error | filtered_out | ignored_event.

Definition set_eventStats (e : EventStats) (c : t) : t :=
  {| eventStats := e; messageStats := messageStats c;
     performanceStats := performanceStats c |}.

Definition count_total (e : EventStats) : EventStats :=
  {| total := total e + 1; byType := byType e; lastReset := lastReset e;
     errors := errors e; filtered := filtered e; ignored := ignored e |}.

(** [byType[key] = (byType[key] || 0) + 1] *)
Definition count_type (key : string) (e : EventStats) : EventStats :=
  {| total := total e;
     byType := <[ key := default 0 (byType e !! key) + 1 ]> (byType e);
     lastReset := lastReset e;
     errors := errors e; filtered := filtered e; ignored := ignored e |}.

Definition count_action (a : Action) (e : EventStats) : EventStats :=
  match a with
  | processed => e
  | error =>
      {| total := total e; byType := byType e; lastReset := lastReset e;
         errors := errors e + 1; filtered := filtered e; ignored := ignored e |}
  | filtered_out =>
      {| total := total e; byType := byType e; lastReset := lastReset e;
         errors := errors e; filtered := filtered e + 1; ignored := ignored e |}
  | ignored_event =>
      {| total := total e; byType := byType e; lastReset := lastReset e;
         errors := errors e; filtered := filtered e; ignored := ignored e + 1 |}
  end.

(** The property key [eventType] is counted under.  [byType] is a plain
    object: a key that names a property of [Object.prototype] would read a
    host function where a count is expected, which is outside the model. *)
Definition type_key (eventType : Value) : Outcome string :=
  let* k := to_string eventType in
  if existsb (String.eqb k) object_prototype_keys then Beyond else Ret k.

Definition updateEventStats (eventType : Value) (action : Action)
  : Eff t unit :=
  (modify (fun c => set_eventStats (count_total (eventStats c)) c) ;;;
   key <- lift (type_key eventType) ;;
   modify (fun c => set_eventStats
                      (count_action action (count_type key (eventStats c))) c)
  )%eff.

Definition set_messageStats (m : MessageStats) (c : t) : t :=
  {| eventStats := eventStats c; messageStats := m;
     performanceStats := performanceStats c |}.

Definition updateMessageStats (cfg : Config.Nats) (subject : string)
    (success : bool) (c : t) : t :=
  let m := messageStats c in
  if negb success then
    set_messageStats
      {| mainSubject := mainSubject m; contactSubject := contactSubject m;
         ignoredSubject := ignoredSubject m;
         presenceSubject := presenceSubject m;
         messagesLastReset := messagesLastReset m;
         publishErrors := publishErrors m + 1 |} c
  else if String.eqb subject (Config.subject cfg) then
    set_messageStats
      {| mainSubject := mainSubject m + 1; contactSubject := contactSubject m;
         ignoredSubject := ignoredSubject m;
         presenceSubject := presenceSubject m;
         messagesLastReset := messagesLastReset m;
         publishErrors := publishErrors m |} c
  else if String.eqb subject (Config.contactSubject cfg) then
    set_messageStats
      {| mainSubject := mainSubject m; contactSubject := contactSubject m + 1;
         ignoredSubject := ignoredSubject m;
         presenceSubject := presenceSubject m;
         messagesLastReset := messagesLastReset m;
         publishErrors := publishErrors m |} c
  else if String.eqb subject (Config.ignoredSubject cfg) then
    set_messageStats
      {| mainSubject := mainSubject m; contactSubject := contactSubject m;
         ignoredSubject := ignoredSubject m + 1;
         presenceSubject := presenceSubject m;
         messagesLastReset := messagesLastReset m;
         publishErrors := publishErrors m |} c
  else if bool_decide (Some subject = Config.precenseSubject cfg) then
    set_messageStats
      {| mainSubject := mainSubject m; contactSubject := contactSubject m;
         ignoredSubject := ignoredSubject m;
         presenceSubject := presenceSubject m + 1;
         messagesLastReset := messagesLastReset m;
         publishErrors := publishErrors m |} c
  else c.

Definition sum_list (l : list Z) : Z := fold_right Z.add 0 l.

Definition recordProcessingTime (timeMs : Z) (c : t) : t :=
  let p := performanceStats c in
  let pushed := (eventProcessingTimes p ++ [timeMs])%list in
  let times :=
    if (1000 <? Z.of_nat (length pushed)) then tail pushed else pushed in
  {| eventStats := eventStats c; messageStats := messageStats c;
     performanceStats :=
       {| eventProcessingTimes := times;
          averageProcessingTime := (sum_list times, Z.of_nat (length times));
          maxProcessingTime := Z.max (maxProcessingTime p) timeMs;
          minProcessingTime :=
            Some (match minProcessingTime p with
                  | None => timeMs
                  | Some m => Z.min m timeMs
                  end) |} |}.

(** [totalMessages] of [showMessageStats] and [getStatsSummary]. *)
Definition totalMessages (m : MessageStats) : Z :=
  mainSubject m + contactSubject m + ignoredSubject m + presenceSubject m.

End StatsCollector.

(** ** What the surroundings contribute while one event is processed *)
Module Env.
Import JS.

Record t : Type := {
  (** [Date.now() + Math.random()] and [new Date().toISOString()] at the
      moment the envelope is built *)
  now_id : Value;
  now_iso : string;
  (** what [getEventTransformers()] returns if it is called now: the
      instance, or null when the template or its config cannot be loaded *)
  loaded : option EventTransformers.t;
  (** what the broker does with a publish made for this event: accept it,
      or fail with an error of the given message *)
  broker : option string;
  (** [Date.now() - startTime] when the event is done *)
  elapsed : Z
}.

End Env.

(** ** src/NATSManager.js *)
Module NATSManager.
Import JS.

(** A call of [connection.publish(subject, payload)] as the broker sees
    it, with whether it went through.  The payload is kept as the value
    that is handed to [JSON.stringify]. *)
Record PublishCall : Type := {
  to_subject : string;
  payload : Value;
  accepted : bool
}.

Record t : Type := {
  connection : bool;                (* [this.connection] is not null *)
  published : list PublishCall      (* the calls made so far, oldest first *)
}.

Definition record_call (c : PublishCall) : Eff t unit :=
  modify (fun n => {| connection := connection n;
                      published := (published n ++ [c])%list |}).

Definition contactEventTypes : list string :=
  [ "contact_add"; "contact_change"; "contact_remove"; "contacts_initial" ].

Definition presenceEventTypes : list string :=
  [ "presence_add"; "presence_change"; "presence_remove"; "presence_initial" ].

Definition isContactEvent (eventType : Value) : bool :=
  list_includes contactEventTypes eventType.

Definition isPresenceEvent (eventType : Value) : bool :=
  list_includes presenceEventTypes eventType.

Definition determineSubject (cfg : Config.Nats) (eventType : Value) : string :=
  if isContactEvent eventType then Config.contactSubject cfg
  else if isPresenceEvent eventType then
    match Config.precenseSubject cfg with
    | Some s => if String.eqb s "" then "whatsapp.precense" else s
    | None => "whatsapp.precense"
    end
  else Config.subject cfg.

(** [await this.connection.publish(subject, ...)] *)
Definition connection_publish (broker : option string) (subject : string)
    (data : Value) : Eff t unit :=
  match broker with
  | None =>
      record_call {| to_subject := subject; payload := data; accepted := true |}
  | Some message =>
      (record_call {| to_subject := subject; payload := data;
                      accepted := false |} ;;;
       lift (Throw (ErrorMsg message)))%eff
  end.

(** Both publish methods rethrow what they catch, so their [try] blocks
    are transparent. *)
Definition publishEvent (cfg : Config.t) (broker : option string)
    (eventData eventType : Value) : Eff t string :=
  (connected <- gets connection ;;
   if negb connected then lift (Throw (ErrorMsg "NATS connection not available"))
   else
     let targetSubject := determineSubject (Config.nats cfg) eventType in
     connection_publish broker targetSubject eventData ;;;
     (if Config.debug_enabled cfg
      then lift (let* _ := to_string eventType in Ret tt)
      else eret tt) ;;;
     eret targetSubject)%eff.

Definition publishIgnoredEvent (cfg : Config.t) (broker : option string)
    (eventData : Value) : Eff t string :=
  (connected <- gets connection ;;
   if negb connected then lift (Throw (ErrorMsg "NATS connection not available"))
   else
     let targetSubject := Config.ignoredSubject (Config.nats cfg) in
     connection_publish broker targetSubject eventData ;;;
     (if Config.debug_enabled cfg
      then lift (let* d := get eventData "data" in
                 let* type := get d "type" in
                 let* _ := to_string type in Ret tt)
      else eret tt) ;;;
     eret targetSubject)%eff.

End NATSManager.

(** ** src/EventProcessor.js *)
Module EventProcessor.
Import JS.

(** The methods of the transformer instance the processor invokes. *)
Inductive Call : Type := call_isIgnored | call_transform.

Record t : Type := {
  eventTransformers : option EventTransformers.t;
  calls : list Call          (* transformer methods invoked so far *)
}.

(** The object [processEvent] returns, by its [action]. *)
Inductive Result : Type :=
  | skip (reason : string)
  | ignore (eventData eventType : Value)
  | filter (reason : string) (eventType : Value)
  | publish (eventData originalEventData eventType : Value)
            (wasTransformed : bool)
  | error (error : JSError) (eventType : Value).

Definition set_transformers (tr : option EventTransformers.t) (p : t) : t :=
  {| eventTransformers := tr; calls := calls p |}.

Definition invoked (c : Call) : Eff t unit :=
  modify (fun p => {| eventTransformers := eventTransformers p;
                      calls := (calls p ++ [c])%list |}).

Definition envelope (env : Env.t) (rawEvent : Value) : Value :=
  JObj [ ("id", Env.now_id env);
         ("timestamp", JStr (Env.now_iso env));
         ("data", rawEvent) ].

Definition processEvent (cfg : Config.t) (env : Env.t) (rawEvent : Value)
  : Eff t Result :=
  try_catch
    (let eventData := envelope env rawEvent in
     current <- gets eventTransformers ;;
     (if current is None then modify (set_transformers (Env.loaded env))
      else eret tt) ;;;
     current <- gets eventTransformers ;;
     match current with
     | None => eret (skip "transformers_unavailable")
     | Some transformers =>
         invoked call_isIgnored ;;;
         isIgnored <- lift (EventTransformers.isIgnored transformers eventData) ;;
         if isIgnored : bool then
           type <- lift (get rawEvent "type") ;;
           eret (ignore eventData type)
         else
           invoked call_transform ;;;
           transformedEvent <-
             lift (EventTransformers.transform transformers eventData) ;;
           if strict_equal transformedEvent JNull then
             (if Config.debug_enabled cfg
              then lift (let* type := get rawEvent "type" in
                         let* _ := to_string type in Ret tt)
              else eret tt) ;;;
             type <- lift (get rawEvent "type") ;;
             eret (filter "filtered_by_transformer" type)
           else
             type <- lift (get rawEvent "type") ;;
             eret (publish transformedEvent eventData type
                     (negb (strict_equal transformedEvent eventData)))
     end)%eff
    (fun e => eret (error e (or (opt rawEvent "type") (JStr "unknown")))).

(** What [validateEvent] answers: [{ valid: true }], or
    [{ valid: false, reason }]. *)
Inductive Validation : Type :=
  | valid
  | invalid (reason : string).

Definition validateEvent (event : Value) : Outcome Validation :=
  if negb (truthy event) then Ret (invalid "Event is null or undefined") else
  let* type := get event "type" in
  if negb (truthy type) then Ret (invalid "Event missing type field") else
  let* data := get event "data" in
  if negb (truthy data) then Ret (invalid "Event missing data field") else
  Ret valid.

End EventProcessor.

(** ** index.js: the bridge *)
Module Bridge.
Import JS.

Record t : Type := {
  isRunning : bool;
  natsManager : NATSManager.t;
  eventProcessor : EventProcessor.t;
  statsCollector : StatsCollector.t
}.

Definition set_stats (c : StatsCollector.t) (b : t) : t :=
  {| isRunning := isRunning b; natsManager := natsManager b;
     eventProcessor := eventProcessor b; statsCollector := c |}.

Definition set_nats (n : NATSManager.t) (b : t) : t :=
  {| isRunning := isRunning b; natsManager := n;
     eventProcessor := eventProcessor b; statsCollector := statsCollector b |}.

Definition set_processor (p : EventProcessor.t) (b : t) : t :=
  {| isRunning := isRunning b; natsManager := natsManager b;
     eventProcessor := p; statsCollector := statsCollector b |}.

Definition stats {A} (m : Eff StatsCollector.t A) : Eff t A :=
  zoom statsCollector set_stats m.
Definition nats {A} (m : Eff NATSManager.t A) : Eff t A :=
  zoom natsManager set_nats m.
Definition processor {A} (m : Eff EventProcessor.t A) : Eff t A :=
  zoom eventProcessor set_processor m.

(** How the pipeline disposed of one event: the branch of [processEvent]
    that ran to its end, or [Failed] when the [catch] took over.  The
    method itself returns nothing; the tag is what its statistics and
    logging are driven by. *)
Inductive PipelineOutcome : Type :=
  | Published (destination : string)
  | Ignored (destination : string)
  | Filtered
  | Skipped (reason : string)
  | Failed.

(** [this.statsCollector.recordProcessingTime(processingTime)] *)
Definition recordProcessingTime (ms : Z) (b : t) : t :=
  set_stats (StatsCollector.recordProcessingTime ms (statsCollector b)) b.

(** The [switch (result.action)] of [processEvent]. *)
Definition dispatch (cfg : Config.t) (env : Env.t)
    (result : EventProcessor.Result) : Eff t PipelineOutcome :=
  match result with
  | EventProcessor.publish eventData _ eventType wasTransformed =>
      (subject <- nats (NATSManager.publishEvent cfg (Env.broker env)
                          eventData eventType) ;;
       modify (fun b => set_stats
                  (StatsCollector.updateMessageStats (Config.nats cfg)
                     subject true (statsCollector b)) b) ;;;
       (if wasTransformed && Config.debug_enabled cfg then
          (* `... ${result.eventType} -> ${result.eventData.data.type || result.eventType}` *)
          lift (let* _ := to_string eventType in
                let* data := get eventData "data" in
                let* type := get data "type" in
                let* _ := to_string (or type eventType) in Ret tt)
        else eret tt) ;;;
       eret (Published subject))%eff
  | EventProcessor.ignore eventData eventType =>
      (subject <- nats (NATSManager.publishIgnoredEvent cfg
                          (Env.broker env) eventData) ;;
       modify (fun b => set_stats
                  (StatsCollector.updateMessageStats (Config.nats cfg)
                     subject true (statsCollector b)) b) ;;;
       stats (StatsCollector.updateEventStats eventType
                StatsCollector.ignored_event) ;;;
       eret (Ignored subject))%eff
  | EventProcessor.filter _ eventType =>
      (stats (StatsCollector.updateEventStats eventType
                StatsCollector.filtered_out) ;;;
       eret Filtered)%eff
  | EventProcessor.skip reason =>
      eret (Skipped reason)
  | EventProcessor.error _ eventType =>
      (* console.error(`Error processing event ${result.eventType}: ...`) *)
      (lift (to_string eventType) ;;;
       stats (StatsCollector.updateEventStats eventType
                StatsCollector.error) ;;;
       eret Failed)%eff
  end.

(** The [try] block of [processEvent]. *)
Definition attempt (cfg : Config.t) (env : Env.t) (event : Value)
  : Eff t PipelineOutcome :=
  (type <- lift (get event "type") ;;
   stats (StatsCollector.updateEventStats type StatsCollector.processed) ;;;
   (* this.debugLog(`Processing event: ${event.type}`) *)
   type <- lift (get event "type") ;;
   lift (to_string type) ;;;
   result <- processor (EventProcessor.processEvent cfg env event) ;;
   dispatch cfg env result)%eff.

(** Its [catch] block. *)
Definition recover (event : Value) (_ : JSError) : Eff t PipelineOutcome :=
  (type <- lift (get event "type") ;;
   stats (StatsCollector.updateEventStats type StatsCollector.error) ;;;
   eret Failed)%eff.

Definition processEvent (cfg : Config.t) (env : Env.t) (event : Value)
  : Eff t PipelineOutcome :=
  finally (try_catch (attempt cfg env event) (recover event))
          (recordProcessingTime (Env.elapsed env)).

(** [for (const event of events) await this.processEvent(event)] *)
Fixpoint processEvents (cfg : Config.t) (events : list (Value * Env.t))
  : Eff t (list PipelineOutcome) :=
  match events with
  | [] => eret []
  | (event, env) :: rest =>
      (o <- processEvent cfg env event ;;
       os <- processEvents cfg rest ;;
       eret (o :: os))%eff
  end.

Definition handleBrowserClose (b : t) : t :=
  if isRunning b then
    {| isRunning := false; natsManager := natsManager b;
       eventProcessor := eventProcessor b;
       statsCollector := statsCollector b |}
  else b.

End Bridge.

(** ** index.js: the polling loop of [startEventPolling] *)
Module Polling.
Import JS.

(** What one activation of [pollEvents] meets: whether the browser answers
    the liveness probe, and what [browserManager.pollEvents()] gives, a
    batch (each event with its surroundings) or an error. *)
Inductive PollOutcome : Type :=
  | polled (events : list (Value * Env.t))
  | poll_failed (message : string).

Record Tick : Type := {
  browserAlive : bool;
  outcome : PollOutcome
}.

(** The closure state of [startEventPolling]: the bridge, the local
    [pollingRetries], the pending [setTimeout(pollEvents, delay)] if any,
    and how many times the browser has been polled. *)
Record t : Type := {
  bridge : Bridge.t;
  pollingRetries : Z;
  timer : option Z;
  pollAttempts : nat
}.

Definition set_bridge (b : Bridge.t) (p : t) : t :=
  {| bridge := b; pollingRetries := pollingRetries p; timer := timer p;
     pollAttempts := pollAttempts p |}.

Definition set_retries (n : Z) (p : t) : t :=
  {| bridge := bridge p; pollingRetries := n; timer := timer p;
     pollAttempts := pollAttempts p |}.

Definition setTimeout (delay : Z) (p : t) : t :=
  {| bridge := bridge p; pollingRetries := pollingRetries p;
     timer := Some delay; pollAttempts := pollAttempts p |}.

Definition timer_fired (p : t) : t :=
  {| bridge := bridge p; pollingRetries := pollingRetries p;
     timer := None; pollAttempts := pollAttempts p |}.

Definition count_attempt (p : t) : t :=
  {| bridge := bridge p; pollingRetries := pollingRetries p;
     timer := timer p; pollAttempts := S (pollAttempts p) |}.

Definition handleBrowserClose (p : t) : t :=
  set_bridge (Bridge.handleBrowserClose (bridge p)) p.

(** The fatal indicators looked for in [error.message].  The messages of
    the runtime's own TypeErrors and RangeErrors carry none of them. *)
Definition is_fatal (e : JSError) : bool :=
  match e with
  | ErrorMsg message =>
      str_includes "Session closed" message
      || str_includes "detached Frame" message
      || str_includes "Protocol error" message
  | _ => false
  end.

(** [await this.browserManager.pollEvents()] *)
Definition browser_pollEvents (o : PollOutcome)
  : Eff t (list (Value * Env.t)) :=
  (modify count_attempt ;;;
   match o with
   | polled events => eret events
   | poll_failed message => lift (Throw (ErrorMsg message))
   end)%eff.

(** One activation of the [pollEvents] closure.  The [try] block yields
    [true] when it completes and the handler [false] where the source
    returns from the function. *)
Definition pollEvents (cfg : Config.t) (tick : Tick) : Eff t unit :=
  (modify timer_fired ;;;
   running <- gets (fun p => Bridge.isRunning (bridge p)) ;;
   if negb running then eret tt else
   if negb (browserAlive tick) then modify handleBrowserClose else
   completed <-
     try_catch
       (events <- browser_pollEvents (outcome tick) ;;
        zoom bridge set_bridge (Bridge.processEvents cfg events) ;;;
        modify (set_retries 0) ;;;
        eret true)
       (fun e =>
          modify (fun p => set_retries (pollingRetries p + 1) p) ;;;
          if is_fatal e then
            modify handleBrowserClose ;;; eret false
          else
            retries <- gets pollingRetries ;;
            if Config.maxRetries (Config.polling cfg) <=? retries then
              modify handleBrowserClose ;;; eret false
            else
              modify (setTimeout (Config.retryDelay (Config.polling cfg))) ;;;
              eret false) ;;
   if completed : bool then
     running <- gets (fun p => Bridge.isRunning (bridge p)) ;;
     if running : bool
     then modify (setTimeout (Config.interval (Config.polling cfg)))
     else eret tt
   else eret tt)%eff.

(** The activations that follow: each pending timer fires once and meets
    the next tick; with no timer pending nothing runs any more. *)
Fixpoint timers (cfg : Config.t) (ticks : list Tick) : Eff t unit :=
  match ticks with
  | [] => eret tt
  | tick :: rest =>
      (pending <- gets timer ;;
       match pending with
       | Some _ => pollEvents cfg tick ;;; timers cfg rest
       | None => eret tt
       end)%eff
  end.

(** [startEventPolling()]: a fresh retry counter and a first, immediate
    call of [pollEvents]. *)
Definition startEventPolling (cfg : Config.t) (b : Bridge.t)
    (first : Tick) (later : list Tick) : Outcome unit * t :=
  (pollEvents cfg first ;;; timers cfg later)%eff
    {| bridge := b; pollingRetries := 0; timer := None; pollAttempts := 0 |}.

End Polling.

(** ** store.js and BrowserManager.js: in-page deduplication *)
Module Dedup.
Import JS.

(** [processedMessages.size > 1000] followed by the sweep over
    [processedMessages.entries()], which deletes the entries with
    [timestamp < cutoff]. *)
Definition sweep (cutoff : Z) (cache : gmap string Z) : gmap string Z :=
  filter (fun kv => cutoff <= kv.2) cache.

Definition sweep_if_large (cutoff : Z) (cache : gmap string Z)
  : gmap string Z :=
  if 1000 <? Z.of_nat (size cache) then sweep cutoff cache else cache.

(** [`${messageId}_${eventType}_${msg.ack || 0}`] *)
Definition message_key (messageId : Value) (eventType : string) (ack : Value)
  : Outcome string :=
  let* id := to_string messageId in
  let* a := to_string (or ack (JNum 0)) in
  Ret (id +:+ "_" +:+ eventType +:+ "_" +:+ a).

(** [shouldProcessMessage(msg, eventType)] of store.js (the same function
    is injected by BrowserManager.js).  [now] and [later] are the two
    readings of [Date.now()], at the insert and at the sweep. *)
Definition shouldProcessMessage (now later : Z) (msg : Value)
    (eventType : string) : Eff (gmap string Z) bool :=
  (if negb (truthy msg) then eret false else
   id <- lift (get msg "id") ;;
   if negb (truthy id) then eret false else
   messageId <- lift (get id "_serialized") ;;
   if negb (truthy messageId) then eret false else
   ack <- lift (get msg "ack") ;;
   key <- lift (message_key messageId eventType ack) ;;
   known <- gets (fun cache => bool_decide (is_Some (cache !! key))) ;;
   if known : bool then eret false else
   modify (insert key now) ;;;
   modify (sweep_if_large (later - 5 * 60 * 1000)) ;;;
   eret true)%eff.

(** [shouldProcess(key, ttlMs)] of the contact listeners in
    BrowserManager.js. *)
Definition shouldProcess (now : Z) (key : string) (ttlMs : Z)
  : Eff (gmap string Z) bool :=
  (last <- gets (fun seen => default 0 (seen !! key)) ;;
   if now - last <? ttlMs then eret false else
   modify (insert key now) ;;;
   modify (sweep_if_large (now - 10 * 60 * 1000)) ;;;
   eret true)%eff.

(** [getKey(contact, type)] of the contact listeners. *)
Definition getKey (contact : Value) (type : string) : Outcome string :=
  let id := or (opt (opt contact "id") "_serialized")
              (or (opt contact "id")
                  (or (opt contact "phoneNumber") (JStr "unknown"))) in
  let* s := to_string id in
  Ret (s +:+ "_" +:+ type).

End Dedup.

(** ** BrowserManager.js: the listeners injected into the page *)
Module Capture.
Import JS.

(** The page state the listeners share: the two deduplication maps and the
    queue [window.whatsappEvents]. *)
Record t : Type := {
  processedMessages : gmap string Z;
  seen : gmap string Z;
  whatsappEvents : list Value
}.

(** The readings of [Date.now()] a message listener makes: in the
    deduplication check, at the insert and at the sweep, and in the record
    it queues. *)
Record Clock : Type := {
  at_insert : Z;
  at_sweep : Z;
  at_push : Z
}.

Definition set_processedMessages (m : gmap string Z) (s : t) : t :=
  {| processedMessages := m; seen := seen s;
     whatsappEvents := whatsappEvents s |}.

Definition set_seen (m : gmap string Z) (s : t) : t :=
  {| processedMessages := processedMessages s; seen := m;
     whatsappEvents := whatsappEvents s |}.

Definition messages {A} (m : Eff (gmap string Z) A) : Eff t A :=
  zoom processedMessages set_processedMessages m.
Definition contacts {A} (m : Eff (gmap string Z) A) : Eff t A :=
  zoom seen set_seen m.

(** [window.whatsappEvents.push({ type, data, timestamp: Date.now() })] *)
Definition push (type : string) (data : Value) (stamp : Z) : Eff t unit :=
  modify (fun s =>
    {| processedMessages := processedMessages s; seen := seen s;
       whatsappEvents :=
         (whatsappEvents s
          ++ [JObj [ ("type", JStr type); ("data", data);
                     ("timestamp", JNum stamp) ]])%list |}).

Section Listeners.

(** [serializeMsg] and [serializeContact] copy a live model of the page
    into a plain object and catch what goes wrong on the way; what they
    return is taken as given. *)
Variable serializeMsg : Value -> Value.
Variable serializeContact : Value -> Value.

(** [Store.Msg.on('add', ...)] *)
Definition on_message_add (clock : Clock) (msg : Value) : Eff t unit :=
  (fresh <- messages (Dedup.shouldProcessMessage (at_insert clock)
                        (at_sweep clock) msg "create") ;;
   if fresh : bool then
     (* log('Message added: ' + (msg.body || msg.type || 'unknown')) *)
     body <- lift (get msg "body") ;;
     label <- (if truthy body then eret body else
               type <- lift (get msg "type") ;;
               eret (or type (JStr "unknown"))) ;;
     lift (to_string label) ;;;
     push "message_create" (serializeMsg msg) (at_push clock)
   else eret tt)%eff.

(** [msg.ack === level && shouldProcessMessage(msg, eventType)] *)
Definition ack_is (clock : Clock) (msg ack : Value) (level : Z)
    (eventType : string) : Eff t bool :=
  if strict_equal ack (JNum level)
  then messages (Dedup.shouldProcessMessage (at_insert clock)
                   (at_sweep clock) msg eventType)
  else eret false.

(** [Store.Msg.on('change', ...)] *)
Definition on_message_change (clock : Clock) (msg : Value) : Eff t unit :=
  (ack <- lift (get msg "ack") ;;
   if strict_equal ack JUndefined then eret tt else
   received <- ack_is clock msg ack 1 "received" ;;
   if received : bool then
     push "message_received" (serializeMsg msg) (at_push clock)
   else
   delivered <- ack_is clock msg ack 2 "delivered" ;;
   if delivered : bool then
     push "message_delivered" (serializeMsg msg) (at_push clock)
   else
   read <- ack_is clock msg ack 3 "read" ;;
   if read : bool then
     push "message_read" (serializeMsg msg) (at_push clock)
   else eret tt)%eff.

(** The three contact listeners differ in the event they stand for and in
    the time a contact stays suppressed. *)
Definition contact_listener (type : string) (ttlMs : Z) (now stamp : Z)
    (c : Value) : Eff t unit :=
  (key <- lift (Dedup.getKey c type) ;;
   fresh <- contacts (Dedup.shouldProcess now key ttlMs) ;;
   if fresh : bool then
     push ("contact_" +:+ type) (serializeContact c) stamp
   else eret tt)%eff.

(** [Contact.on('add', ...)], [Contact.on('change', ...)] and
    [Contact.on('remove', ...)] *)
Definition on_contact_add : Z -> Z -> Value -> Eff t unit :=
  contact_listener "add" 120000.
Definition on_contact_change : Z -> Z -> Value -> Eff t unit :=
  contact_listener "change" 5000.
Definition on_contact_remove : Z -> Z -> Value -> Eff t unit :=
  contact_listener "remove" 120000.

End Listeners.

End Capture.

(** * The vocabulary of the properties *)

Section TransformTerms.
Import JS EventTransformers.

(** The payload the mappers look at: [event.data?.data]. *)
Definition payload_of (event : Value) : Value := opt (opt event "data") "data".

End TransformTerms.

Section DedupTerms.
Import JS Dedup.

(** An event without an extractable identifier: no message, no [id], or no
    [id._serialized]. *)
Definition lacks_identifier (msg : Value) : bool :=
  negb (truthy msg)
  || negb (truthy (opt msg "id"))
  || negb (truthy (opt (opt msg "id") "_serialized")).

(** The key under which an identified message is cached. *)
Definition key_of (msg : Value) (eventType : string) : Outcome string :=
  message_key (opt (opt msg "id") "_serialized") eventType (opt msg "ack").

End DedupTerms.

(** A burst of [n] messages with distinct identifiers, all seen at [now]. *)
Definition numbered_message (i : nat) : JS.Value :=
  JS.JObj [("id", JS.JObj [("_serialized", JS.JStr (pretty i))])].

Fixpoint burst (n : nat) (now : Z) (cache : gmap string Z) : gmap string Z :=
  match n with
  | O => cache
  | S n' =>
      snd (Dedup.shouldProcessMessage now now (numbered_message n') "create"
             (burst n' now cache))
  end.

Section AckTerms.
Import JS EventTransformers.


Variable tr : EventTransformers.t.

(** An ack level as the capture layer delivers it: absent, or an integer. *)
Definition is_ack_level (ack : Value) : bool :=
  match ack with
  | JUndefined | JNull => true
  | JNum n => safe_integer n
  | _ => false
  end.




End AckTerms.

Section MapperTerms.
Import JS EventTransformers.

(** The message types whose handler replaces the ack state. *)
Definition type_overridden (originalData : Value) : bool :=
  is_str (opt originalData "type") "revoked"
  || (is_str (opt originalData "type") "notification_template"
      && is_str (opt (opt originalData "__raw") "subtype") "disappearing_mode").

End MapperTerms.



Section DefensiveTerms.
Import JS EventTransformers.

(** A primitive value: absent, null, a boolean, a safe integer or a string. *)
Definition scalar (v : Value) : bool :=
  match v with
  | JUndefined | JNull | JBool _ | JStr _ => true
  | JNum n => safe_integer n
  | _ => false
  end.

Definition opt_string (v : Value) : bool :=
  match v with
  | JUndefined | JNull | JStr _ => true
  | _ => false
  end.

Definition falsy_or_string (v : Value) : bool :=
  negb (truthy v) || match v with JStr _ => true | _ => false end.

(** Absent, or epoch seconds within the range of [Date]. *)
Definition timestamp_ok (v : Value) : bool :=
  match v with
  | JUndefined | JNull => true
  | JNum n => Z.abs (n * 1000) <=? max_time_value
  | _ => false
  end.

Definition recipients_ok (v : Value) : bool :=
  match v with
  | JUndefined | JNull => true
  | JArr items => forallb falsy_or_string items
  | _ => false
  end.

(** The fields of a message payload that the mappers call methods on or
    convert, each absent or of the type the capture layer gives it. *)
Definition expected_types (originalData : Value) : bool :=
  let raw := opt originalData "__raw" in
  let id := opt originalData "id" in
  scalar (opt originalData "ack")
  && opt_string (opt (opt originalData "from") "user")
  && opt_string (opt (opt id "remote") "user")
  && opt_string (opt raw "from")
  && falsy_or_string (opt (opt id "participant") "user")
  && falsy_or_string (opt raw "author")
  && falsy_or_string (opt raw "mimetype")
  && falsy_or_string (opt raw "ephemeralSettingUser")
  && scalar (opt raw "subtype")
  && scalar (opt raw "revokeTimestamp")
  && timestamp_ok (opt originalData "timestamp")
  && recipients_ok (opt raw "recipients").

(** The shape of a normalized event. *)
Definition normalized (v : Value) : Prop :=
  exists id ts data,
    v = JObj [("internal_event_id", id); ("timestamp", ts); ("data", JObj data)].

End DefensiveTerms.

Section DefaultTerms.
Import JS EventTransformers.

(** The defaults of the chat mapper, on the payload and the [data] of the
    normalized event: a missing or empty message identifier or recipient
    is null, a missing message time is null and a missing direction flag
    is false; without a chat, a remote chat and a raw sender the group flag
    is left undefined; and while the group flag is not set, the group
    identifier is null and a missing sender is null. *)
Definition chat_defaults (originalData data : Value) : Prop :=
  (truthy (opt (opt originalData "id") "id") = false ->
   opt data "message_id" = JNull)
  /\ (truthy (opt (opt originalData "to") "user") = false ->
      opt data "to_number" = JNull)
  /\ (nullish (opt originalData "timestamp") = true ->
      opt data "message_time" = JNull)
  /\ (truthy (opt (opt originalData "id") "fromMe") = false ->
      opt data "fromMe" = JBool false)
  /\ (nullish (opt (opt originalData "from") "user") = true ->
      nullish (opt (opt (opt originalData "id") "remote") "user") = true ->
      nullish (opt (opt originalData "__raw") "from") = true ->
      opt data "isGroup" = JUndefined)
  /\ (truthy (opt data "isGroup") = false ->
      opt data "group_id" = JNull
      /\ (truthy (opt (opt originalData "from") "user") = false ->
          opt data "from_number" = JNull)).

(** The defaults of the status mapper: a missing or empty status
    identifier, author or reader is null, a missing time is null, a missing
    direction flag is false, and the format is null when there is no
    mimetype, the type is not chat and there is no body. *)
Definition status_defaults (originalData data : Value) : Prop :=
  (truthy (opt (opt originalData "id") "id") = false ->
   opt data "status_id" = JNull)
  /\ (truthy (opt (opt (opt originalData "id") "participant") "user") = false ->
      truthy (opt (opt originalData "from") "user") = false ->
      opt data "status_author_number" = JNull)
  /\ (truthy (opt (opt originalData "to") "user") = false ->
      opt data "reader_number" = JNull)
  /\ (nullish (opt originalData "timestamp") = true ->
      opt data "read_time" = JNull)
  /\ (truthy (opt (opt originalData "id") "fromMe") = false ->
      opt data "fromMe" = JBool false)
  /\ (truthy (opt (opt originalData "__raw") "mimetype") = false ->
      is_str (opt originalData "type") "chat" = false ->
      truthy (opt originalData "body") = false ->
      opt data "format" = JNull).

End DefaultTerms.

(** A chat message whose payload has nothing but its type. *)
Definition bare_chat_event : JS.Value :=
  JS.JObj
    [ ("id", JS.JNum 1);
      ("timestamp", JS.JStr "2026-01-01T00:00:00.000Z");
      ("data", JS.JObj [ ("type", JS.JStr "message_create");
                         ("data", JS.JObj [("type", JS.JStr "chat")]) ]) ].

(** A chat message whose sender's [user] is a number, and one whose
    timestamp lies beyond the range of [Date]. *)
Definition numeric_sender_event : JS.Value :=
  JS.JObj
    [ ("id", JS.JNum 1);
      ("timestamp", JS.JStr "2026-01-01T00:00:00.000Z");
      ("data",
        JS.JObj [ ("type", JS.JStr "message_create");
                  ("data", JS.JObj [ ("type", JS.JStr "chat");
                                     ("from", JS.JObj [("user", JS.JNum 5355)]) ]) ]) ].

Definition far_future_event : JS.Value :=
  JS.JObj
    [ ("id", JS.JNum 1);
      ("timestamp", JS.JStr "2026-01-01T00:00:00.000Z");
      ("data",
        JS.JObj [ ("type", JS.JStr "message_create");
                  ("data", JS.JObj [ ("type", JS.JStr "chat");
                                     ("timestamp", JS.JNum 9000000000000) ]) ]) ].

Section ProcessorTerms.
Import JS EventProcessor.

(** The event type a result carries, if any. *)
Definition result_type (r : Result) : option Value :=
  match r with
  | skip _ => None
  | ignore _ t | filter _ t | publish _ _ t _ | error _ t => Some t
  end.

End ProcessorTerms.

Section PipelineTerms.
Import JS Bridge.

(** An event record whose type can be counted: the event is not null or
    undefined and its type converts to a property key of [byType]. *)
Definition countable (event : Value) : bool :=
  match get event "type" with
  | Ret type =>
      match StatsCollector.type_key type with
      | Ret _ => true
      | _ => false
      end
  | _ => false
  end.

Definition total_of (b : t) : Z :=
  StatsCollector.total (StatsCollector.eventStats (statsCollector b)).
Definition errors_of (b : t) : Z :=
  StatsCollector.errors (StatsCollector.eventStats (statsCollector b)).
Definition filtered_of (b : t) : Z :=
  StatsCollector.filtered (StatsCollector.eventStats (statsCollector b)).
Definition ignored_of (b : t) : Z :=
  StatsCollector.ignored (StatsCollector.eventStats (statsCollector b)).

(** The outcomes after which the event has been counted a second time. *)
Definition counted_twice (o : PipelineOutcome) : bool :=
  match o with
  | Published _ | Skipped _ => false
  | Ignored _ | Filtered | Failed => true
  end.

Definition is_failed (o : PipelineOutcome) : bool :=
  match o with Failed => true | _ => false end.
Definition is_ignored (o : PipelineOutcome) : bool :=
  match o with Ignored _ => true | _ => false end.
Definition is_filtered (o : PipelineOutcome) : bool :=
  match o with Filtered => true | _ => false end.

Definition indicator (b : bool) : Z := if b then 1 else 0.

(** What a call of [updateEventStats] with the given action adds beyond the
    total. *)
Definition stats_step (a : StatsCollector.Action) (b b' : t) : Prop :=
  total_of b' = total_of b + 1
  /\ errors_of b' = errors_of b
       + indicator (match a with StatsCollector.error => true | _ => false end)
  /\ filtered_of b' = filtered_of b
       + indicator (match a with StatsCollector.filtered_out => true | _ => false end)
  /\ ignored_of b' = ignored_of b
       + indicator (match a with StatsCollector.ignored_event => true | _ => false end)
  /\ isRunning b' = isRunning b
  /\ natsManager b' = natsManager b
  /\ eventProcessor b' = eventProcessor b.

(** The event counters and the scheduler flag are the same in both states. *)
Definition same_counts (b b' : t) : Prop :=
  StatsCollector.eventStats (statsCollector b')
    = StatsCollector.eventStats (statsCollector b)
  /\ isRunning b' = isRunning b
  /\ NATSManager.connection (natsManager b')
     = NATSManager.connection (natsManager b).

(** What one event adds to the event counters, by its outcome. *)
Definition counts_step (extra : Z) (out : PipelineOutcome) (b b' : t) : Prop :=
  total_of b' = total_of b + extra + indicator (counted_twice out)
  /\ errors_of b' = errors_of b + indicator (is_failed out)
  /\ filtered_of b' = filtered_of b + indicator (is_filtered out)
  /\ ignored_of b' = ignored_of b + indicator (is_ignored out)
  /\ isRunning b' = isRunning b
  /\ NATSManager.connection (natsManager b')
     = NATSManager.connection (natsManager b).

End PipelineTerms.

Section BatchTerms.
Import JS Bridge.

(** How many outcomes of a batch satisfy [P]. *)
Definition tally (P : PipelineOutcome -> bool) (outs : list PipelineOutcome) : Z :=
  fold_right (fun o n => indicator (P o) + n) 0 outs.

Definition counted_once (o : PipelineOutcome) : bool := negb (counted_twice o).

(** What a batch adds to the event counters. *)
Definition batch_step (outs : list PipelineOutcome) (b b' : t) : Prop :=
  total_of b' = total_of b + Z.of_nat (length outs) + tally counted_twice outs
  /\ errors_of b' = errors_of b + tally is_failed outs
  /\ filtered_of b' = filtered_of b + tally is_filtered outs
  /\ ignored_of b' = ignored_of b + tally is_ignored outs
  /\ isRunning b' = isRunning b
  /\ NATSManager.connection (natsManager b')
     = NATSManager.connection (natsManager b).

End BatchTerms.

(** *** A concrete bridge *)

Definition sample_config : Config.t :=
  {| Config.nats := {| Config.subject := "whatsapp.events";
                       Config.contactSubject := "whatsapp.contacts";
                       Config.ignoredSubject := "whatsapp.ignored";
                       Config.precenseSubject := Some "whatsapp.precense" |};
     Config.polling := {| Config.interval := 1000;
                          Config.retryDelay := 5000;
                          Config.maxRetries := 3 |};
     Config.debug_enabled := true |}.

Definition sample_env (broker : option string) : Env.t :=
  {| Env.now_id := JS.JNum 1767225600123;
     Env.now_iso := "2026-01-01T00:00:00.123Z";
     Env.loaded := Some EventTransformers.defaults;
     Env.broker := broker;
     Env.elapsed := 2 |}.

Definition fresh_bridge : Bridge.t :=
  {| Bridge.isRunning := true;
     Bridge.natsManager := {| NATSManager.connection := true;
                              NATSManager.published := [] |};
     Bridge.eventProcessor := {| EventProcessor.eventTransformers := None;
                                 EventProcessor.calls := [] |};
     Bridge.statsCollector := StatsCollector.fresh 1767225600000 |}.

(** An encrypted placeholder message, which the default rules ignore, and a
    delivered chat message. *)
Definition ciphertext_event : JS.Value :=
  JS.JObj [ ("type", JS.JStr "message_create");
            ("data", JS.JObj [ ("id", JS.JObj [("id", JS.JStr "3EB0A1")]);
                               ("type", JS.JStr "ciphertext") ]);
            ("timestamp", JS.JNum 1767225600000) ].

Definition delivered_chat_event : JS.Value :=
  JS.JObj [ ("type", JS.JStr "message_delivered");
            ("data", JS.JObj [ ("id", JS.JObj [("id", JS.JStr "3EB0A2")]);
                               ("type", JS.JStr "chat");
                               ("body", JS.JStr "hola");
                               ("ack", JS.JNum 2);
                               ("from", JS.JObj [("user", JS.JStr "5355512345")]);
                               ("timestamp", JS.JNum 1767225600) ]);
            ("timestamp", JS.JNum 1767225600000) ].

Section RoutingTerms.
Import JS Bridge.

(** The state after the event has been counted on receipt. *)
Definition received (key : string) (b : t) : t :=
  set_stats
    (StatsCollector.set_eventStats
       (StatsCollector.count_type key
          (StatsCollector.count_total
             (StatsCollector.eventStats (statsCollector b))))
       (statsCollector b)) b.


(** The transformer instance the processor works with for this event. *)
Definition transformers_for (env : Env.t) (p : EventProcessor.t)
  : option EventTransformers.t :=
  match EventProcessor.eventTransformers p with
  | Some tr => Some tr
  | None => Env.loaded env
  end.

(** The publish step of a result, and when it fails. *)
Definition reaches_publish (r : EventProcessor.Result) : bool :=
  match r with
  | EventProcessor.publish _ _ _ _ | EventProcessor.ignore _ _ => true
  | _ => false
  end.

Definition publish_fails (n : NATSManager.t) (env : Env.t) : bool :=
  negb (NATSManager.connection n)
  || match Env.broker env with Some _ => true | None => false end.

End RoutingTerms.

Section PollingTerms.
Import JS Polling.

(** A computation of the bridge that leaves [isRunning] alone. *)
Definition keeps_running {A} (m : Eff Bridge.t A) : Prop :=
  forall b o b', m b = (o, b') -> Bridge.isRunning b' = Bridge.isRunning b.

(** A poll that meets a live browser and a batch. *)
Definition batch_tick (events : list (Value * Env.t)) : Tick :=
  {| browserAlive := true; outcome := polled events |}.

(** A poll that meets a live browser and an error with the given message. *)
Definition failure_tick (message : string) : Tick :=
  {| browserAlive := true; outcome := poll_failed message |}.

Definition transient (message : string) : Prop :=
  is_fatal (ErrorMsg message) = false.

End PollingTerms.

(** *** Terms of the further properties *)

Section ScheduleTerms.
Import JS Polling.

(** What the [catch] of [pollEvents] leaves behind for the error [e]. *)
Definition after_poll_error (cfg : Config.t) (e : JSError) (p : t) : t :=
  let counted := set_retries (pollingRetries p + 1) p in
  if is_fatal e then handleBrowserClose counted
  else if Config.maxRetries (Config.polling cfg) <=? pollingRetries p + 1
       then handleBrowserClose counted
       else setTimeout (Config.retryDelay (Config.polling cfg)) counted.

(** The state of the scheduler between two activations: a poll is pending
    exactly while the bridge runs, after the polling interval when no
    failure is outstanding and after the retry delay otherwise, and a
    running bridge has used up less than its retries. *)
Definition well_scheduled (cfg : Config.t) (p : t) : Prop :=
  (timer p = None <-> Bridge.isRunning (bridge p) = false)
  /\ 0 <= pollingRetries p
  /\ (Bridge.isRunning (bridge p) = true ->
      pollingRetries p < Config.maxRetries (Config.polling cfg))
  /\ (forall delay, timer p = Some delay ->
        delay = if pollingRetries p =? 0
                then Config.interval (Config.polling cfg)
                else Config.retryDelay (Config.polling cfg)).

(** The error an event record raises when its type is read or counted, if
    it does. *)
Definition type_error (event : Value) : option JSError :=
  match get event "type" with
  | Ret type =>
      match StatsCollector.type_key type with
      | Throw e => Some e
      | _ => None
      end
  | Throw e => Some e
  | Beyond => None
  end.

Definition published_of (b : Bridge.t) : list NATSManager.PublishCall :=
  NATSManager.published (Bridge.natsManager b).

End ScheduleTerms.

Section FootprintTerms.
Import JS Bridge.

(** A computation of the bridge that leaves the observation [f] of its
    state as it was, however it ends. *)
Definition keeps {A X} (f : t -> X) (m : Eff t A) : Prop :=
  forall b o b', m b = (o, b') -> f b' = f b.

(** A computation that makes at most [n] broker calls and leaves the
    earlier ones in place. *)
Definition appends_at_most {A} (n : nat) (m : Eff t A) : Prop :=
  forall b o b', m b = (o, b') ->
    exists calls,
      published_of b' = (published_of b ++ calls)%list
      /\ (length calls <= n)%nat.

(** A computation whose results all satisfy [Q]. *)
Definition ensures {S A} (Q : A -> Prop) (m : Eff S A) : Prop :=
  forall s a s', m s = (Ret a, s') -> Q a.

Definition performance_of (b : t) : StatsCollector.PerformanceStats :=
  StatsCollector.performanceStats (statsCollector b).

Definition publish_errors_of (b : t) : Z :=
  StatsCollector.publishErrors (StatsCollector.messageStats (statsCollector b)).

Definition is_filter (r : EventProcessor.Result) : bool :=
  match r with EventProcessor.filter _ _ => true | _ => false end.

End FootprintTerms.

Section MapperFieldTerms.
Import JS EventTransformers.

(** The fields the handlers of special message types write. *)
Definition special_fields : list string :=
  [ "type"; "ephemeral_duration"; "setting_user"; "notification_type";
    "revoke_timestamp"; "revoked_by"; "original_message_id";
    "group_action"; "recipients"; "action_by" ].

(** The base fields of a normalized chat message, apart from its type. *)
Definition base_fields : list string :=
  [ "message_id"; "format"; "from_number"; "to_number"; "isGroup";
    "group_id"; "fromMe"; "message_time" ].

(** The sender the chat mapper reports: for a group message the
    participant, else the normalized author, else the chat; for a direct
    message the chat. *)
Definition sender_of (originalData isGroupMessage : Value) : Outcome Value :=
  let from := opt originalData "from" in
  if truthy isGroupMessage then
    let participant := opt (opt (opt originalData "id") "participant") "user" in
    if truthy participant then Ret participant else
    let* author := _normalizeId (opt (opt originalData "__raw") "author") in
    Ret (or author (opt from "user"))
  else Ret (or (opt from "user") JNull).

(** The base fields as the chat mapper computes them from the payload, the
    group test [g], the sender and the message time. *)
Definition chat_base (originalData g sender time : Value)
  : list (string * Value) :=
  [ ("message_id", or (opt (opt originalData "id") "id") JNull);
    ("format",
      or (opt (opt originalData "__raw") "mimetype") (opt originalData "type"));
    ("from_number", sender);
    ("to_number", or (opt (opt originalData "to") "user") JNull);
    ("isGroup", g);
    ("group_id",
      if truthy g
      then or (opt (opt originalData "from") "user")
              (or (opt (opt (opt originalData "id") "remote") "user") JNull)
      else JNull);
    ("fromMe", or (opt (opt originalData "id") "fromMe") (JBool false));
    ("message_time", or time JNull) ].

End MapperFieldTerms.

Section StatsTerms.
Import JS StatsCollector.

(** The sum of the per-type counts. *)
Definition by_type_sum (e : EventStats) : Z :=
  map_fold (fun _ n acc => n + acc) 0 (byType e).

(** Every counted event is counted under a type. *)
Definition counts_agree (e : EventStats) : Prop := total e = by_type_sum e.

(** The collector after the processing times [samples], oldest first. *)
Definition record_all (samples : list Z) (c : t) : t :=
  fold_left (fun c timeMs => recordProcessingTime timeMs c) samples c.

(** The subject is one a counter is kept for. *)
Definition counted_subject (cfg : Config.Nats) (subject : string) : bool :=
  String.eqb subject (Config.subject cfg)
  || String.eqb subject (Config.contactSubject cfg)
  || String.eqb subject (Config.ignoredSubject cfg)
  || bool_decide (Some subject = Config.precenseSubject cfg).

End StatsTerms.

Section AgreementTerms.
Import JS Bridge.

(** A computation of the bridge that maintains [I]. *)
Definition preserves {A} (I : t -> Prop) (m : Eff t A) : Prop :=
  forall b o b', I b -> m b = (o, b') -> I b'.

Definition event_stats_of (b : t) : StatsCollector.EventStats :=
  StatsCollector.eventStats (statsCollector b).

(** [I] holds of the event statistics of the bridge. *)
Definition on_event_stats (I : StatsCollector.EventStats -> Prop) (b : t)
  : Prop :=
  I (event_stats_of b).

(** The types a result is counted under convert to property keys. *)
Definition countable_result (r : EventProcessor.Result) : Prop :=
  forall type, result_type r = Some type ->
    exists key, StatsCollector.type_key type = Ret key.

End AgreementTerms.

Section ContactTerms.
Import JS Dedup.

(** A run of calls of [shouldProcess], each with its time, key and
    suppression time. *)
Fixpoint contact_calls (calls : list (Z * string * Z))
  : Eff (gmap string Z) unit :=
  match calls with
  | [] => eret tt
  | (now, key, ttlMs) :: rest =>
      (shouldProcess now key ttlMs ;;; contact_calls rest)%eff
  end.

(** A contact record none of whose identifiers is usable. *)
Definition unidentified_contact (contact : Value) : bool :=
  negb (truthy (opt (opt contact "id") "_serialized"))
  && negb (truthy (opt contact "id"))
  && negb (truthy (opt contact "phoneNumber")).

End ContactTerms.

Section StageTerms.
Import JS Dedup Capture.

(** The stages the message listeners check for. *)
Definition stage_names : list string :=
  [ "create"; "received"; "delivered"; "read" ].

(** The number an ack level is keyed by: [msg.ack || 0]. *)
Definition ack_value (ack : Value) : Z :=
  match ack with JNum n => n | _ => 0 end.

(** A listener call that only ever appends records satisfying [P] to the
    queue. *)
Definition queues_only {A} (P : Value -> Prop) (m : Eff Capture.t A) : Prop :=
  forall s o s', m s = (o, s') ->
    exists records,
      whatsappEvents s' = (whatsappEvents s ++ records)%list
      /\ (length records <= 1)%nat
      /\ Forall P records.

(** A queued record of one of the given event types, carrying the
    serialized model. *)
Definition captured (types : list string) (data : Value) (record : Value)
  : Prop :=
  exists type stamp,
    In type types
    /\ record = JObj [ ("type", JStr type); ("data", data);
                       ("timestamp", JNum stamp) ].

End StageTerms.

Section QueueTerms.
Import JS Capture.

(** A step of a listener that leaves the queue alone. *)
Definition queue_untouched {A} (m : Eff Capture.t A) : Prop :=
  forall s o s', m s = (o, s') -> whatsappEvents s' = whatsappEvents s.

(** The event types the message and contact listeners queue. *)
Definition captured_types : list string :=
  [ "message_create"; "message_received"; "message_delivered";
    "message_read"; "contact_add"; "contact_change"; "contact_remove" ].

End QueueTerms.

Section ReplayTerms.
Import JS Dedup Capture.

(** The later state of the page still holds every key of this message
    that the earlier state held: no sweep in between has evicted one. *)
Definition still_remembers (msg : Value) (s1 s2 : Capture.t) : Prop :=
  forall eventType key,
    key_of msg eventType = Ret key ->
    is_Some (processedMessages s1 !! key) ->
    is_Some (processedMessages s2 !! key).

End ReplayTerms.

(** * Properties *)

Lemma bind_Ret_inv {A B} (m : Outcome A) (k : A -> Outcome B) b :
  bind m k = Ret b -> exists a, m = Ret a /\ k a = Ret b.
Proof. destruct m; simpl; intros H; try discriminate. eauto. Qed.

Example iso_epoch : JS.iso_of_ms 0 = "1970-01-01T00:00:00.000Z".
Proof. reflexivity. Qed.
Example iso_2023 : JS.iso_of_ms 1700000000000 = "2023-11-14T22:13:20.000Z".
Proof. vm_compute. reflexivity. Qed.
Example iso_before_epoch : JS.iso_of_ms (-1) = "1969-12-31T23:59:59.999Z".
Proof. vm_compute. reflexivity. Qed.
Example iso_leap_day : JS.iso_of_ms 951782400000 = "2000-02-29T00:00:00.000Z".
Proof. vm_compute. reflexivity. Qed.
Example iso_latest : JS.iso_of_ms 8640000000000000 = "+275760-09-13T00:00:00.000Z".
Proof. vm_compute. reflexivity. Qed.
Example iso_earliest : JS.iso_of_ms (-8640000000000000) = "-271821-04-20T00:00:00.000Z".
Proof. vm_compute. reflexivity. Qed.
Example strip_c_us : JS.strip_jid_suffix "5355512345@c.us" = "5355512345".
Proof. reflexivity. Qed.
Example strip_inner : JS.strip_jid_suffix "a@lid@g.us" = "a@lid@g.us".
Proof. reflexivity. Qed.
Example join_array :
  JS.to_string (JS.JArr [JS.JNum 1; JS.JNull; JS.JStr "x"]) = Ret "1,,x".
Proof. vm_compute. reflexivity. Qed.

(** ** Facts about the JavaScript fragment *)

Section JSFacts.
Import JS.

Lemma get_opt (v : Value) (k : string) :
  nullish v = false -> get v k = Ret (opt v k).
Proof. destruct v; simpl; intros H; try discriminate; reflexivity. Qed.

Lemma get_Ret_inv (v x : Value) (k : string) :
  get v k = Ret x -> nullish v = false /\ x = opt v k.
Proof. destruct v; simpl; intros H; inversion H; auto. Qed.

Lemma get_outcome (v : Value) (k : string) :
  get v k = Ret (opt v k) \/ (nullish v = true /\ get v k = Throw (NullAccess k)).
Proof. destruct v; simpl; auto. Qed.

Lemma truthy_not_nullish (v : Value) : truthy v = true -> nullish v = false.
Proof. destruct v; simpl; intros H; try discriminate; reflexivity. Qed.

Lemma is_str_true (v : Value) (s : string) : is_str v s = true <-> v = JStr s.
Proof.
  destruct v; simpl; split; intros H; try discriminate.
  - apply String.eqb_eq in H. congruence.
  - inversion H. apply String.eqb_refl.
Qed.


End JSFacts.

(** ** The transformation engine *)

Section TransformFacts.
Import JS EventTransformers.
Variable tr : EventTransformers.t.

Lemma shouldIgnoreEvent_returns (event : Value) :
  nullish event = false -> exists b, shouldIgnoreEvent tr event = Ret b.
Proof.
  intros H. unfold shouldIgnoreEvent. rewrite (get_opt _ _ H). simpl. eauto.
Qed.

Lemma shouldIgnoreEvent_Ret_inv (event : Value) (b : bool) :
  shouldIgnoreEvent tr event = Ret b -> nullish event = false.
Proof.
  unfold shouldIgnoreEvent. intros H.
  destruct (get_outcome event "data") as [E | [_ E]]; rewrite E in H.
  - destruct event; simpl in *; try discriminate; reflexivity.
  - discriminate.
Qed.

Lemma transformStatusEvent_not_status (event : Value) :
  _isStatusEvent event = Ret false -> transformStatusEvent tr event = Ret JNull.
Proof. unfold transformStatusEvent. intros ->. reflexivity. Qed.

Lemma transformChatMessage_declines (event : Value) :
  nullish event = false ->
  list_includes (messageTypes tr) (opt (payload_of event) "type") = false ->
  transformChatMessage tr event = Ret JNull.
Proof.
  intros Hev Hty. unfold transformChatMessage, payload_of in *.
  rewrite (get_opt _ _ Hev). cbn [bind]. rewrite Hty.
  rewrite andb_false_r. reflexivity.
Qed.

End TransformFacts.

(** C6.  A non-ignored event that is not a status event and whose type is not
    in the configured message-type list goes through [transform] unchanged:
    the result is the envelope itself, it is not null (nothing is dropped at
    this stage), and feeding the result to [transform] again gives the same
    result. *)
Theorem C6_passthrough_identity
    (tr : EventTransformers.t) (event : JS.Value) :
  EventTransformers.shouldIgnoreEvent tr event = Ret false ->
  EventTransformers._isStatusEvent event = Ret false ->
  JS.list_includes (EventTransformers.messageTypes tr)
    (JS.opt (payload_of event) "type") = false ->
  EventTransformers.transform tr event = Ret event
  /\ event <> JS.JNull
  /\ bind (EventTransformers.transform tr event) (EventTransformers.transform tr)
     = EventTransformers.transform tr event.
Proof.
  intros Hign Hstatus Htype.
  pose proof (shouldIgnoreEvent_Ret_inv tr event false Hign) as Hev.
  assert (Hpass : EventTransformers.transform tr event = Ret event).
  { unfold EventTransformers.transform. rewrite Hign. cbn [bind].
    rewrite (transformStatusEvent_not_status tr event Hstatus). cbn [bind JS.truthy].
    rewrite (transformChatMessage_declines tr event Hev Htype). reflexivity. }
  split; [exact Hpass|]. split.
  - intros ->. discriminate.
  - rewrite Hpass. cbn [bind]. exact Hpass.
Qed.

Lemma C6_passthrough_identity_witness :
  let event :=
    JS.JObj [ ("id", JS.JNum 7);
              ("timestamp", JS.JStr "2026-01-01T00:00:00.000Z");
              ("data", JS.JObj [ ("type", JS.JStr "presence_change");
                                 ("data", JS.JObj [("id", JS.JStr "5355@c.us")]) ]) ] in
  EventTransformers.transform EventTransformers.defaults event = Ret event
  /\ event <> JS.JNull
  /\ bind (EventTransformers.transform EventTransformers.defaults event)
          (EventTransformers.transform EventTransformers.defaults)
     = EventTransformers.transform EventTransformers.defaults event.
Proof.
  intros event.
  apply (C6_passthrough_identity EventTransformers.defaults event);
    vm_compute; reflexivity.
Defined.

(** ** The deduplication filter *)

Section DedupFacts.
Import JS Dedup.

Lemma shouldProcessMessage_identified now later msg eventType cache :
  lacks_identifier msg = false ->
  shouldProcessMessage now later msg eventType cache =
    match key_of msg eventType with
    | Ret key =>
        if bool_decide (is_Some (cache !! key)) then (Ret false, cache)
        else (Ret true,
              sweep_if_large (later - 5 * 60 * 1000) (<[key := now]> cache))
    | Throw e => (Throw e, cache)
    | Beyond => (Beyond, cache)
    end.
Proof.
  unfold lacks_identifier, key_of. intros Hid.
  apply orb_false_elim in Hid as [Hid H3]. apply orb_false_elim in Hid as [H1 H2].
  apply negb_false_iff in H1, H2, H3.
  unfold shouldProcessMessage. rewrite H1. cbn [negb].
  unfold ebind at 1. unfold lift at 1.
  rewrite (get_opt msg "id" (truthy_not_nullish _ H1)).
  rewrite H2. cbn [negb]. unfold ebind at 1. unfold lift at 1.
  rewrite (get_opt _ "_serialized" (truthy_not_nullish _ H2)).
  rewrite H3. cbn [negb]. unfold ebind at 1. unfold lift at 1.
  rewrite (get_opt msg "ack" (truthy_not_nullish _ H1)).
  unfold ebind at 1. unfold lift at 1.
  destruct (message_key _ eventType _) as [key | e |]; try reflexivity.
  unfold ebind at 1. unfold gets at 1.
  destruct (bool_decide (is_Some (cache !! key))); reflexivity.
Qed.

(** A repeated key is suppressed for as long as its entry is cached,
    whatever the time of the repetition, and the entry keeps its
    timestamp. *)
Lemma shouldProcessMessage_known now later msg eventType cache key ts :
  lacks_identifier msg = false ->
  key_of msg eventType = Ret key ->
  cache !! key = Some ts ->
  shouldProcessMessage now later msg eventType cache = (Ret false, cache).
Proof.
  intros Hid Hkey Hin.
  rewrite (shouldProcessMessage_identified _ _ _ _ _ Hid), Hkey.
  rewrite bool_decide_eq_true_2; [reflexivity | by eexists].
Qed.

Lemma shouldProcessMessage_fresh now later msg eventType cache key :
  lacks_identifier msg = false ->
  key_of msg eventType = Ret key ->
  cache !! key = None ->
  shouldProcessMessage now later msg eventType cache =
    (Ret true, sweep_if_large (later - 5 * 60 * 1000) (<[key := now]> cache)).
Proof.
  intros Hid Hkey Hout.
  rewrite (shouldProcessMessage_identified _ _ _ _ _ Hid), Hkey.
  rewrite bool_decide_eq_false_2; [reflexivity |].
  rewrite Hout. intros [? ?]. discriminate.
Qed.

(** Without an identifier nothing is recorded and the event is held back. *)
Lemma shouldProcessMessage_anonymous now later msg eventType cache :
  lacks_identifier msg = true ->
  snd (shouldProcessMessage now later msg eventType cache) = cache
  /\ fst (shouldProcessMessage now later msg eventType cache) <> Ret true.
Proof.
  intros H.
  assert (E : shouldProcessMessage now later msg eventType cache
              = (Ret false, cache)).
  { unfold lacks_identifier in H. unfold shouldProcessMessage.
    destruct (truthy msg) eqn:H1; [| reflexivity]. cbn [negb].
    unfold ebind at 1. unfold lift at 1.
    rewrite (get_opt msg "id" (truthy_not_nullish _ H1)).
    destruct (truthy (opt msg "id")) eqn:H2; [| reflexivity]. cbn [negb].
    unfold ebind at 1. unfold lift at 1.
    rewrite (get_opt _ "_serialized" (truthy_not_nullish _ H2)).
    destruct (truthy (opt (opt msg "id") "_serialized")) eqn:H3; [| reflexivity].
    simpl in H. discriminate. }
  rewrite E. split; [reflexivity | discriminate].
Qed.

Lemma sweep_lookup cutoff (cache : gmap string Z) k ts :
  sweep cutoff cache !! k = Some ts <-> cache !! k = Some ts /\ cutoff <= ts.
Proof. unfold sweep. rewrite map_lookup_filter_Some. reflexivity. Qed.

Lemma sweep_size cutoff (cache : gmap string Z) :
  (size (sweep cutoff cache) <= size cache)%nat.
Proof. apply map_subseteq_size, map_filter_subseteq. Qed.

Lemma sweep_if_large_size cutoff (cache : gmap string Z) :
  (size (sweep_if_large cutoff cache) <= size cache)%nat.
Proof.
  unfold sweep_if_large. destruct (1000 <? _); [apply sweep_size | lia].
Qed.

Lemma sweep_if_large_keeps_recent cutoff (cache : gmap string Z) k ts :
  cache !! k = Some ts -> cutoff <= ts ->
  sweep_if_large cutoff cache !! k = Some ts.
Proof.
  intros Hin Hts. unfold sweep_if_large.
  destruct (1000 <? _); [by apply sweep_lookup | done].
Qed.

Lemma sweep_if_large_bound cutoff (cache : gmap string Z) :
  (size (sweep_if_large cutoff cache) <= 1000)%nat
  \/ (forall k ts, sweep_if_large cutoff cache !! k = Some ts -> cutoff <= ts).
Proof.
  unfold sweep_if_large. destruct (1000 <? _) eqn:E.
  - right. intros k ts H. by apply sweep_lookup in H as [_ ?].
  - left. apply Z.ltb_ge in E. lia.
Qed.

(** The contact listeners' helper does what the message helper omits: the
    age of the entry is checked at lookup. *)
Lemma shouldProcess_expired now key ttlMs (seen : gmap string Z) last :
  seen !! key = Some last -> ttlMs <= now - last ->
  shouldProcess now key ttlMs seen =
    (Ret true, sweep_if_large (now - 10 * 60 * 1000) (<[key := now]> seen)).
Proof.
  intros Hin Hgap. unfold shouldProcess, ebind, gets. rewrite Hin. simpl.
  destruct (now - last <? ttlMs) eqn:E; [apply Z.ltb_lt in E; lia | reflexivity].
Qed.

Lemma shouldProcess_within now key ttlMs (seen : gmap string Z) last :
  seen !! key = Some last -> now - last < ttlMs ->
  shouldProcess now key ttlMs seen = (Ret false, seen).
Proof.
  intros Hin Hgap. unfold shouldProcess, ebind, gets. rewrite Hin. simpl.
  destruct (now - last <? ttlMs) eqn:E; [reflexivity | apply Z.ltb_ge in E; lia].
Qed.

End DedupFacts.

(** C1 (as the code has it).  An event without an extractable identifier is
    never let through: [shouldProcessMessage] answers false, every time, and
    leaves the cache as it is. *)
Theorem C1_unidentified_is_suppressed
    (now later : Z) (msg : JS.Value) (eventType : string)
    (cache : gmap string Z) :
  lacks_identifier msg = true ->
  Dedup.shouldProcessMessage now later msg eventType cache = (Ret false, cache).
Proof.
  unfold lacks_identifier, Dedup.shouldProcessMessage. intros H.
  destruct (JS.truthy msg) eqn:H1; [| reflexivity]. cbn [negb].
  unfold ebind at 1. unfold lift at 1.
  rewrite (get_opt msg "id" (truthy_not_nullish _ H1)).
  destruct (JS.truthy (JS.opt msg "id")) eqn:H2; [| reflexivity]. cbn [negb].
  unfold ebind at 1. unfold lift at 1.
  rewrite (get_opt _ "_serialized" (truthy_not_nullish _ H2)).
  destruct (JS.truthy (JS.opt (JS.opt msg "id") "_serialized")) eqn:H3;
    [| reflexivity].
  simpl in H. discriminate.
Qed.

Lemma C1_unidentified_is_suppressed_witness :
  Dedup.shouldProcessMessage 1700000000000 1700000000000
    (JS.JObj [("body", JS.JStr "hello"); ("type", JS.JStr "chat")]) "create" ∅
  = (Ret false, ∅).
Proof.
  apply (C1_unidentified_is_suppressed 1700000000000 1700000000000
           (JS.JObj [("body", JS.JStr "hello"); ("type", JS.JStr "chat")])
           "create" ∅).
  reflexivity.
Defined.

(** C1, the claim as stated, fails: a message without [id] is not let
    through. *)
Lemma C1_counterexample :
  let msg := JS.JObj [("body", JS.JStr "hello"); ("type", JS.JStr "chat")] in
  lacks_identifier msg = true
  /\ fst (Dedup.shouldProcessMessage 1700000000000 1700000000000 msg "create" ∅)
     <> Ret true.
Proof. split; [reflexivity | vm_compute; discriminate]. Qed.

(** C2 at the failing input.  The same message is seen for the same event
    type at [t] and again ten minutes later, twice the five-minute window;
    the cache is far below its ceiling, so no sweep has run.  The second
    sighting is suppressed and the entry still carries the time of the
    first. *)
Theorem C2_repeat_after_window_is_suppressed :
  let msg := JS.JObj [ ("id", JS.JObj [("_serialized", JS.JStr "true_5355@c.us_3EB0")]);
                       ("ack", JS.JNum 2) ] in
  let t := 1700000000000 in
  let first := Dedup.shouldProcessMessage t t msg "delivered" ∅ in
  let second :=
    Dedup.shouldProcessMessage (t + 600000) (t + 600000) msg "delivered"
      (snd first) in
  fst first = Ret true
  /\ fst second = Ret false
  /\ snd second = snd first
  /\ snd second !! "true_5355@c.us_3EB0_delivered_2" = Some t.
Proof. vm_compute. repeat split; reflexivity. Qed.

(** C5 (as the code has it).  A call adds at most one entry, and a call
    that does not let its event through leaves the cache as it is.  A call
    that lets its event through inserts the key of its message, which the
    cache did not hold; if the cache then holds at most 1000 entries that
    is all, and if it holds more, one sweep removes exactly the entries
    older than five minutes.  So the cache afterwards holds at most 1000
    entries or only entries seen within the five minutes before the sweep;
    entries that recent are never removed, and the sweep does not bound
    the size by itself. *)
Theorem C5_sweep_guarantee
    (now later : Z) (msg : JS.Value) (eventType : string)
    (cache cache' : gmap string Z) (r : Outcome bool) :
  Dedup.shouldProcessMessage now later msg eventType cache = (r, cache') ->
  (size cache' <= size cache + 1)%nat
  /\ (r = Ret true ->
      (size cache' <= 1000)%nat
      \/ (forall k ts, cache' !! k = Some ts -> later - 300000 <= ts))
  /\ (forall k ts, cache !! k = Some ts -> later - 300000 <= ts ->
                   cache' !! k = Some ts)
  /\ (r <> Ret true -> cache' = cache)
  /\ (r = Ret true ->
      exists key,
        key_of msg eventType = Ret key
        /\ cache !! key = None
        /\ ((size (<[key := now]> cache) <= 1000)%nat ->
            cache' = <[key := now]> cache)
        /\ ((1000 < size (<[key := now]> cache))%nat ->
            forall k ts,
              cache' !! k = Some ts
              <-> (<[key := now]> cache) !! k = Some ts
                  /\ later - 300000 <= ts)).
Proof.
  intros Hrun.
  destruct (lacks_identifier msg) eqn:Hid.
  - destruct (shouldProcessMessage_anonymous now later msg eventType cache Hid)
      as [Hsame Hnot].
    rewrite Hrun in Hsame, Hnot. cbn [fst snd] in Hsame, Hnot. subst cache'.
    repeat split; [lia | contradiction | auto | contradiction].
  - rewrite (shouldProcessMessage_identified _ _ _ _ _ Hid) in Hrun.
    destruct (key_of msg eventType) as [key | e |].
    2,3: inversion Hrun; subst;
      repeat split; [lia | discriminate | auto | discriminate].
    destruct (bool_decide (is_Some (cache !! key))) eqn:Hk.
    + inversion Hrun; subst.
      repeat split; [lia | discriminate | auto | discriminate].
    + apply bool_decide_eq_false in Hk.
      assert (Hfresh : cache !! key = None).
      { destruct (cache !! key) eqn:E; [exfalso; apply Hk; by eexists | done]. }
      inversion Hrun; subst. change (5 * 60 * 1000) with 300000.
      split; [| split; [| split; [| split]]].
      * pose proof (sweep_if_large_size (later - 300000) (<[key := now]> cache)).
        rewrite (map_size_insert_None _ _ _ Hfresh) in H. lia.
      * intros _. apply sweep_if_large_bound.
      * intros k ts Hin Hts. apply sweep_if_large_keeps_recent; [| exact Hts].
        rewrite lookup_insert_ne; [exact Hin |]. intros ->. congruence.
      * intros Hne. by destruct Hne.
      * intros _. exists key. split; [reflexivity | split; [exact Hfresh |]].
        unfold Dedup.sweep_if_large. split.
        -- intros Hsmall.
           destruct (Z.ltb_spec 1000 (Z.of_nat (size (<[key := now]> cache))));
             [lia | reflexivity].
        -- intros Hlarge k ts.
           destruct (Z.ltb_spec 1000 (Z.of_nat (size (<[key := now]> cache))));
             [apply sweep_lookup | lia].
Qed.

(** A cache of 1000 entries, all seen at one instant, and a new message
    five minutes and a millisecond later: the insert takes the cache over
    the ceiling, the sweep runs and removes the 1000 old entries. *)
Lemma C5_sweep_guarantee_witness :
  let msg := JS.JObj [("id", JS.JObj [("_serialized", JS.JStr "3EB0")])] in
  let t0 := 1700000000000 in
  let cache := burst 1000 t0 ∅ in
  let now := t0 + 300001 in
  let cache' := snd (Dedup.shouldProcessMessage now now msg "create" cache) in
  (size cache = 1000)%nat
  /\ cache' = {[ "3EB0_create_0" := now ]}
  /\ (size cache' <= size cache + 1)%nat
  /\ (forall k ts, cache !! k = Some ts -> now - 300000 <= ts ->
                   cache' !! k = Some ts)
  /\ exists key,
       key_of msg "create" = Ret key
       /\ cache !! key = None
       /\ ((size (<[key := now]> cache) <= 1000)%nat ->
           cache' = <[key := now]> cache)
       /\ ((1000 < size (<[key := now]> cache))%nat ->
           forall k ts,
             cache' !! k = Some ts
             <-> (<[key := now]> cache) !! k = Some ts
                 /\ now - 300000 <= ts).
Proof.
  intros msg t0 cache now cache'.
  assert (Hrun : Dedup.shouldProcessMessage now now msg "create" cache
                 = (Ret true, {[ "3EB0_create_0" := now ]}))
    by (vm_compute; reflexivity).
  assert (Hcache' : cache' = {[ "3EB0_create_0" := now ]})
    by (unfold cache'; rewrite Hrun; reflexivity).
  rewrite <- Hcache' in Hrun.
  destruct (C5_sweep_guarantee now now msg "create" cache cache' (Ret true) Hrun)
    as (Hsize & _ & Hkeep & _ & Hexact).
  split; [vm_compute; reflexivity |].
  split; [exact Hcache' |].
  split; [exact Hsize |].
  split; [exact Hkeep | exact (Hexact eq_refl)].
Defined.

(** C5, the claim as stated, fails: 1002 distinct keys inserted at one
    instant leave 1002 entries, more than the ceiling plus one. *)
Lemma C5_counterexample :
  (1000 + 1 < size (burst 1002 1700000000000 ∅))%nat.
Proof.
  assert (H : size (burst 1002 1700000000000 ∅) = 1002%nat)
    by (vm_compute; reflexivity).
  rewrite H. lia.
Qed.

(** ** Ack levels and lifecycle states *)

Section AckFacts.
Import JS EventTransformers.





Lemma pretty_Z_eqb (n m : Z) : String.eqb (pretty n) (pretty m) = (n =? m).
Proof.
  destruct (Z.eqb_spec n m) as [-> | Hne].
  - apply String.eqb_refl.
  - apply String.eqb_neq. intros H. apply Hne. by apply (inj pretty).
Qed.

Variable tr : EventTransformers.t.





End AckFacts.

Ltac bind_inv H :=
  let x := fresh "x" in
  let E := fresh "E" in
  apply bind_Ret_inv in H as (x & E & H).

Section MapperFacts.
Import JS EventTransformers.
Variable tr : EventTransformers.t.

Lemma is_str_opt_object (v : Value) (k s : string) :
  is_str (opt v k) s = true -> exists fs, v = JObj fs.
Proof. destruct v; simpl; intros H; try discriminate. eauto. Qed.

Lemma status_event_shape (event : Value) :
  _isStatusEvent event = Ret true ->
  nullish event = false /\ exists fs, payload_of event = JObj fs.
Proof.
  unfold _isStatusEvent, payload_of. intros H.
  destruct (get_outcome event "data") as [E | [_ E]]; rewrite E in H;
    [| discriminate].
  cbn [bind] in H. injection H as H.
  split; [destruct event; simpl in *; try discriminate; reflexivity |].
  apply orb_prop in H as [H | H].
  - apply is_str_opt_object in H as [fs H].
    destruct (opt (opt (opt event "data") "data") "id") eqn:E1; try discriminate.
    destruct (opt (opt event "data") "data") eqn:E2; try discriminate. eauto.
  - apply is_str_opt_object in H as [fs H].
    destruct (opt (opt event "data") "data") eqn:E2; try discriminate. eauto.
Qed.

Lemma opt_object_inv (v : Value) (k : string) fs :
  opt v k = JObj fs -> exists fs', v = JObj fs'.
Proof. destruct v; simpl; intros H; try discriminate. eauto. Qed.



Lemma lookup_set_field_ne (k k' : string) (v : Value) fs :
  k <> k' -> lookup_field k (set_field k' v fs) = lookup_field k fs.
Proof.
  intros Hne. induction fs as [| [k0 v0] rest IH]; simpl.
  - destruct (String.eqb_spec k k'); [contradiction | reflexivity].
  - destruct (String.eqb_spec k' k0) as [Heq | Hk0]; [subst k0 |]; simpl.
    + destruct (String.eqb_spec k k'); [contradiction | reflexivity].
    + rewrite IH. reflexivity.
Qed.


Lemma add_body_keeps_type originalData td td' :
  add_body originalData td = Ret td' ->
  lookup_field "type" td' = lookup_field "type" td.
Proof.
  unfold add_body. intros H. bind_inv H.
  destruct (truthy x); [| by injection H as <-].
  bind_inv H. destruct (is_str x0 "chat"); injection H as <-;
    [by rewrite lookup_set_field_ne | done].
Qed.

Lemma buildBase_data event originalData td v :
  _buildBaseTransformedEvent event originalData td = Ret v ->
  opt v "data" = JObj td.
Proof.
  unfold _buildBaseTransformedEvent. intros H. repeat bind_inv H.
  injection H as <-. reflexivity.
Qed.


End MapperFacts.

(** ** Which events the mappers handle without raising *)

Section DefensiveFacts.
Import JS EventTransformers.
Variable tr : EventTransformers.t.

Lemma to_string_scalar (v : Value) :
  scalar v = true -> exists s, to_string v = Ret s.
Proof.
  destruct v; simpl; intros H; try discriminate; eauto.
  unfold number_to_string. rewrite H. eauto.
Qed.

Lemma index_object_scalar own (key : Value) :
  scalar key = true -> exists v, index_object own key = Ret v.
Proof.
  intros H. destruct (to_string_scalar key H) as [s Hs].
  unfold index_object. rewrite Hs. cbn [bind].
  destruct (has_own s own); [eauto |].
  destruct (existsb _ _); eauto.
Qed.

Lemma getEventTypeByAck_returns (ack : Value) (isStatus : bool) :
  scalar ack = true -> exists v, _getEventTypeByAck tr ack isStatus = Ret v.
Proof.
  intros H. unfold _getEventTypeByAck.
  destruct (index_object_scalar (ackMap tr isStatus) ack H) as [v ->].
  cbn [bind]. eauto.
Qed.

Lemma opt_call_includes_returns (v : Value) (needle : string) :
  opt_string v = true -> exists r, opt_call_includes v needle = Ret r.
Proof. destruct v; simpl; intros H; try discriminate; eauto. Qed.

Lemma isGroupMessage_returns (originalData : Value) :
  nullish originalData = false ->
  opt_string (opt (opt originalData "from") "user") = true ->
  opt_string (opt (opt (opt originalData "id") "remote") "user") = true ->
  opt_string (opt (opt originalData "__raw") "from") = true ->
  exists g, _isGroupMessage originalData = Ret g.
Proof.
  intros Hod H1 H2 H3. unfold _isGroupMessage.
  rewrite !(get_opt originalData _ Hod). cbn [bind].
  destruct (opt_call_includes_returns _ "@g.us" H1) as [a ->]. cbn [bind].
  destruct (truthy a); [eauto |].
  destruct (opt_call_includes_returns _ "@g.us" H2) as [b ->]. cbn [bind].
  destruct (truthy b); [eauto |].
  apply opt_call_includes_returns. exact H3.
Qed.

Lemma normalizeId_returns (id : Value) :
  falsy_or_string id = true -> exists r, _normalizeId id = Ret r.
Proof.
  unfold falsy_or_string, _normalizeId. intros H.
  destruct (truthy id); [| eauto]. simpl in H.
  destruct id; try discriminate. simpl. eauto.
Qed.

Lemma falsy_or_string_or (a b : Value) :
  falsy_or_string a = true -> falsy_or_string b = true ->
  falsy_or_string (or a b) = true.
Proof. unfold or. destruct (truthy a); auto. Qed.

Lemma opt_call_toString_scalar (v : Value) :
  scalar v = true -> exists r, opt_call_toString v = Ret r.
Proof.
  intros H. destruct v; try discriminate; try (simpl; eauto; fail).
  simpl in *. unfold number_to_string. rewrite H. simpl. eauto.
Qed.

Lemma timestamp_ok_scalar (v : Value) : timestamp_ok v = true -> scalar v = true.
Proof.
  destruct v; simpl; intros H; try discriminate; try reflexivity.
  unfold safe_integer, max_time_value in *. apply Z.leb_le in H. apply Z.leb_le.
  lia.
Qed.

Lemma getMediaFormat_returns (originalData : Value) :
  nullish originalData = false ->
  falsy_or_string (opt (opt originalData "__raw") "mimetype") = true ->
  exists f, _getMediaFormat originalData = Ret f.
Proof.
  intros Hod Hm. unfold _getMediaFormat.
  rewrite !(get_opt originalData _ Hod). cbn [bind].
  unfold falsy_or_string in Hm.
  destruct (truthy (opt (opt originalData "__raw") "mimetype")) eqn:Ht.
  - simpl in Hm. destruct (opt (opt originalData "__raw") "mimetype");
      try discriminate. cbn [call_startsWith bind].
    destruct (str_starts_with "audio/" s);
      [| destruct (str_starts_with "video/" s)];
      cbn [bind truthy negb];
      destruct (is_str (opt originalData "type") "chat"); cbn [bind]; eauto.
  - cbn [bind]. rewrite Ht. cbn [negb].
    destruct (is_str (opt originalData "type") "chat"); cbn [bind]; eauto.
Qed.

Lemma buildBase_returns (event originalData : Value) td :
  nullish event = false ->
  nullish originalData = false ->
  timestamp_ok (opt originalData "timestamp") = true ->
  exists v, _buildBaseTransformedEvent event originalData td = Ret v
            /\ normalized v.
Proof.
  intros Hev Hod Hts. unfold _buildBaseTransformedEvent.
  rewrite (get_opt event _ Hev), (get_opt originalData _ Hod). cbn [bind].
  destruct (truthy (opt originalData "timestamp")) eqn:Ht.
  - destruct (opt originalData "timestamp"); try discriminate.
    unfold iso_of_seconds. cbn [to_number bind]. simpl in Hts. rewrite Hts.
    cbn [bind]. eexists. split; [reflexivity |]. unfold normalized. eauto.
  - rewrite (get_opt event _ Hev). cbn [bind].
    eexists. split; [reflexivity |]. unfold normalized. eauto.
Qed.

Lemma add_body_returns (originalData : Value) td :
  nullish originalData = false -> exists td', add_body originalData td = Ret td'.
Proof.
  intros Hod. unfold add_body. rewrite !(get_opt originalData _ Hod). cbn [bind].
  destruct (truthy _); [| eauto]. cbn [bind].
  destruct (is_str _ _); eauto.
Qed.

Lemma map_normalizeId_returns (items : list Value) :
  forallb falsy_or_string items = true ->
  exists ys, map_normalizeId items = Ret ys.
Proof.
  induction items as [| x rest IH]; simpl; intros H; [eauto |].
  apply andb_prop in H as [Hx Hrest].
  destruct (normalizeId_returns x Hx) as [y ->]. cbn [bind].
  destruct (IH Hrest) as [ys ->]. cbn [bind]. eauto.
Qed.

Lemma handleSpecial_returns (originalData : Value) td :
  nullish originalData = false ->
  expected_types originalData = true ->
  exists td', _handleSpecialMessageTypes tr originalData td = Ret td'.
Proof.
  intros Hod Hty. unfold expected_types in Hty.
  repeat (apply andb_prop in Hty as [Hty ?]).
  unfold _handleSpecialMessageTypes. rewrite (get_opt originalData _ Hod).
  cbn [bind].
  destruct (is_str (opt originalData "type") "notification_template").
  { unfold _handleNotificationTemplate. rewrite (get_opt originalData _ Hod).
    cbn [bind]. destruct (is_str _ "disappearing_mode"); [| eauto].
    destruct (normalizeId_returns (opt (opt originalData "__raw") "ephemeralSettingUser"))
      as [u ->]; [assumption |]. cbn [bind]. eauto. }
  destruct (is_str (opt originalData "type") "revoked").
  { unfold _handleRevokedMessage. rewrite !(get_opt originalData _ Hod).
    cbn [bind].
    destruct (opt_call_toString_scalar (opt (opt originalData "__raw") "revokeTimestamp"))
      as [r ->]; [assumption |]. cbn [bind].
    destruct (normalizeId_returns
                (or (opt (opt (opt originalData "id") "participant") "user")
                    (opt (opt originalData "__raw") "author")))
      as [u ->]; [by apply falsy_or_string_or |]. cbn [bind]. eauto. }
  destruct (is_str (opt originalData "type") "gp2"); [| eauto].
  unfold _handleGroupEvent. rewrite !(get_opt originalData _ Hod). cbn [bind].
  destruct (index_object_scalar (groupActions tr)
              (opt (opt originalData "__raw") "subtype")) as [a ->];
    [assumption |]. cbn [bind].
  assert (Hmap : exists ys,
    match or (opt (opt originalData "__raw") "recipients") (JArr []) with
    | JArr items => map_normalizeId items
    | _ => Throw (NotAFunction "map")
    end = Ret ys).
  { destruct (opt (opt originalData "__raw") "recipients") as [| | | | | items | |];
      try discriminate; try (simpl; eauto; fail).
    unfold or. cbn [truthy]. by apply map_normalizeId_returns. }
  destruct Hmap as [ys ->]. cbn [bind].
  destruct (normalizeId_returns
              (or (opt (opt (opt originalData "id") "participant") "user")
                  (opt (opt originalData "__raw") "author")))
    as [u ->]; [by apply falsy_or_string_or |]. cbn [bind]. eauto.
Qed.

Lemma transformStatusEvent_returns (event : Value) :
  nullish event = false ->
  expected_types (payload_of event) = true ->
  exists v, transformStatusEvent tr event = Ret v /\ (v = JNull \/ normalized v).
Proof.
  intros Hev Hty. unfold transformStatusEvent.
  destruct (_isStatusEvent event) as [st | e |] eqn:Hst.
  2,3: unfold _isStatusEvent in Hst; rewrite (get_opt event _ Hev) in Hst;
       discriminate.
  cbn [bind]. destruct st; cbn [negb]; [| eauto].
  destruct (status_event_shape event Hst) as [_ [fs Hod]].
  unfold payload_of in *.
  destruct (opt_object_inv _ _ _ Hod) as [fs' Hd].
  rewrite (get_opt event "data" Hev). cbn [bind].
  rewrite (get_opt (opt event "data") "data") by (rewrite Hd; reflexivity).
  cbn [bind]. set (od := opt (opt event "data") "data") in *.
  assert (Hnn : nullish od = false) by (rewrite Hod; reflexivity).
  pose proof Hty as Hty'. unfold expected_types in Hty'.
  repeat (apply andb_prop in Hty' as [Hty' ?]).
  rewrite (get_opt od "ack" Hnn). cbn [bind].
  destruct (getEventTypeByAck_returns (opt od "ack") true) as [et ->];
    [assumption |]. cbn [bind].
  destruct (truthy et); cbn [negb]; [| eauto].
  rewrite (get_opt od "id" Hnn). cbn [bind].
  destruct (getMediaFormat_returns od Hnn) as [f ->]; [assumption |]. cbn [bind].
  rewrite !(get_opt od _ Hnn). cbn [bind].
  destruct (opt_call_toString_scalar (opt od "timestamp")) as [rt ->];
    [by apply timestamp_ok_scalar |]. cbn [bind].
  match goal with
  | |- context [add_body od ?td] =>
      destruct (add_body_returns od td Hnn) as [td' ->]
  end. cbn [bind].
  destruct (buildBase_returns event od td' Hev Hnn) as (v & -> & Hv);
    [assumption |]. eauto.
Qed.

Lemma transformChatMessage_returns (event : Value) :
  nullish event = false ->
  expected_types (payload_of event) = true ->
  exists v, transformChatMessage tr event = Ret v /\ (v = JNull \/ normalized v).
Proof.
  intros Hev Hty. unfold transformChatMessage.
  rewrite (get_opt event "data" Hev). cbn [bind].
  fold (payload_of event). set (od := payload_of event) in *.
  destruct (truthy od && list_includes (messageTypes tr) (opt od "type"))
    eqn:Hacc; cbn [negb]; [| eauto].
  apply andb_prop in Hacc as [Hod _]. apply truthy_not_nullish in Hod.
  pose proof Hty as Hty'. unfold expected_types in Hty'.
  repeat (apply andb_prop in Hty' as [Hty' ?]).
  rewrite (get_opt od "ack" Hod). cbn [bind].
  destruct (getEventTypeByAck_returns (opt od "ack") false) as [mt ->];
    [assumption |]. cbn [bind].
  destruct (isGroupMessage_returns od Hod) as [g ->]; try assumption.
  cbn [bind]. rewrite !(get_opt od _ Hod). cbn [bind].
  assert (Hfrom : exists n,
    (if truthy g
     then if truthy (opt (opt (opt od "id") "participant") "user")
          then Ret (opt (opt (opt od "id") "participant") "user")
          else let* author := _normalizeId (opt (opt od "__raw") "author") in
               Ret (or author (opt (opt od "from") "user"))
     else Ret (or (opt (opt od "from") "user") JNull)) = Ret n).
  { destruct (truthy g); [| eauto].
    destruct (truthy (opt (opt (opt od "id") "participant") "user")); [eauto |].
    destruct (normalizeId_returns (opt (opt od "__raw") "author")) as [a ->];
      [assumption |]. cbn [bind]. eauto. }
  destruct Hfrom as [n ->]. cbn [bind].
  destruct (opt_call_toString_scalar (opt od "timestamp")) as [mtime ->];
    [by apply timestamp_ok_scalar |]. cbn [bind].
  match goal with
  | |- context [_handleSpecialMessageTypes tr od ?td] =>
      destruct (handleSpecial_returns od td Hod Hty) as [td1 ->]
  end. cbn [bind].
  destruct (add_body_returns od td1 Hod) as [td2 ->]. cbn [bind].
  destruct (buildBase_returns event od td2 Hev Hod) as (v & -> & Hv);
    [assumption |]. eauto.
Qed.

Lemma transform_returns (event : Value) :
  nullish event = false ->
  expected_types (payload_of event) = true ->
  exists v, transform tr event = Ret v
            /\ (v = JNull \/ v = event \/ normalized v).
Proof.
  intros Hev Hty. unfold transform.
  destruct (shouldIgnoreEvent_returns tr event Hev) as [ign ->]. cbn [bind].
  destruct ign; [eauto |].
  destruct (transformStatusEvent_returns event Hev Hty) as (s & -> & Hs).
  cbn [bind]. destruct (truthy s) eqn:Ts.
  { destruct Hs as [-> | Hs]; [discriminate | eauto]. }
  destruct (transformChatMessage_returns event Hev Hty) as (c & -> & Hc).
  cbn [bind]. destruct (truthy c) eqn:Tc; [| eauto].
  destruct Hc as [-> | Hc]; [discriminate | eauto].
Qed.

End DefensiveFacts.

Section RaisingFacts.
Import JS EventTransformers.
Variable tr : EventTransformers.t.

Lemma list_includes_object (l : list string) (v : Value) (k : string) :
  list_includes l (opt v k) = true -> truthy v = true /\ nullish v = false.
Proof.
  unfold list_includes. intros H. apply existsb_exists in H as (s & _ & H).
  apply is_str_opt_object in H as [fs ->]. by split.
Qed.

(** [includes] is not a function of a number: the group test raises on a
    numeric [from.user], and with it the chat mapper on every message it
    accepts. *)
Lemma transformChatMessage_numeric_sender (event : Value) (n : Z) :
  nullish event = false ->
  list_includes (messageTypes tr) (opt (payload_of event) "type") = true ->
  scalar (opt (payload_of event) "ack") = true ->
  opt (opt (payload_of event) "from") "user" = JNum n ->
  transformChatMessage tr event = Throw (NotAFunction "includes").
Proof.
  intros Hev Htype Hack Hfrom. unfold transformChatMessage.
  rewrite (get_opt event "data" Hev). cbn [bind].
  fold (payload_of event). rewrite Htype.
  destruct (list_includes_object _ _ _ Htype) as [Hod Hnn].
  rewrite Hod. cbn [andb negb].
  rewrite (get_opt _ "ack" Hnn). cbn [bind].
  destruct (getEventTypeByAck_returns tr _ false Hack) as [mt ->]. cbn [bind].
  unfold _isGroupMessage. rewrite (get_opt _ "from" Hnn). cbn [bind].
  rewrite Hfrom. reflexivity.
Qed.

Lemma transform_numeric_sender (event : Value) (n : Z) :
  shouldIgnoreEvent tr event = Ret false ->
  transformStatusEvent tr event = Ret JNull ->
  list_includes (messageTypes tr) (opt (payload_of event) "type") = true ->
  scalar (opt (payload_of event) "ack") = true ->
  opt (opt (payload_of event) "from") "user" = JNum n ->
  transform tr event = Throw (NotAFunction "includes").
Proof.
  intros Hign Hst Htype Hack Hfrom.
  pose proof (shouldIgnoreEvent_Ret_inv tr event false Hign) as Hev.
  unfold transform. rewrite Hign. cbn [bind]. rewrite Hst. cbn [bind truthy].
  by rewrite (transformChatMessage_numeric_sender event n).
Qed.


End RaisingFacts.




(** ** What the mappers build *)

Section MapperFieldFacts.
Import JS EventTransformers.
Variable tr : EventTransformers.t.

Lemma handleSpecial_keeps_field (k : string) originalData td td' :
  _handleSpecialMessageTypes tr originalData td = Ret td' ->
  ~ In k special_fields ->
  lookup_field k td' = lookup_field k td.
Proof.
  unfold _handleSpecialMessageTypes, special_fields. intros H Hk.
  assert (Hne : forall k', In k' special_fields -> k <> k').
  { intros k' Hin ->. contradiction. }
  bind_inv H.
  destruct (is_str x "notification_template").
  { unfold _handleNotificationTemplate in H. bind_inv H.
    destruct (is_str (opt x0 "subtype") "disappearing_mode").
    - bind_inv H. injection H as <-.
      rewrite !lookup_set_field_ne; [reflexivity | ..]; apply Hne; cbn; tauto.
    - injection H as <-.
      rewrite !lookup_set_field_ne; [reflexivity | ..]; apply Hne; cbn; tauto. }
  destruct (is_str x "revoked").
  { unfold _handleRevokedMessage in H. repeat bind_inv H. injection H as <-.
    rewrite !lookup_set_field_ne; [reflexivity | ..]; apply Hne; cbn; tauto. }
  destruct (is_str x "gp2").
  { unfold _handleGroupEvent in H. repeat bind_inv H. injection H as <-.
    rewrite !lookup_set_field_ne; [reflexivity | ..]; apply Hne; cbn; tauto. }
  by injection H as <-.
Qed.

Lemma add_body_keeps_field (k : string) originalData td td' :
  add_body originalData td = Ret td' ->
  k <> "body" ->
  lookup_field k td' = lookup_field k td.
Proof.
  unfold add_body. intros H Hk. bind_inv H.
  destruct (truthy x); [| by injection H as <-].
  bind_inv H. destruct (is_str x0 "chat"); injection H as <-;
    [by rewrite lookup_set_field_ne | done].
Qed.

Lemma buildBase_identity event originalData td v :
  _buildBaseTransformedEvent event originalData td = Ret v ->
  opt v "internal_event_id" = opt event "id"
  /\ (truthy (opt originalData "timestamp") = true ->
      exists s, iso_of_seconds (opt originalData "timestamp") = Ret s
                /\ opt v "timestamp" = JStr s)
  /\ (truthy (opt originalData "timestamp") = false ->
      opt v "timestamp" = opt event "timestamp").
Proof.
  unfold _buildBaseTransformedEvent. intros H.
  bind_inv H. apply get_Ret_inv in E as [Hev ->].
  bind_inv H. apply get_Ret_inv in E as [Hod ->].
  bind_inv H. injection H as <-. cbn [opt lookup_field String.eqb Ascii.eqb Bool.eqb].
  split; [reflexivity |].
  destruct (truthy (opt originalData "timestamp")).
  - split; [intros _ | discriminate].
    bind_inv E. injection E as <-. eauto.
  - split; [discriminate | intros _].
    by apply get_Ret_inv in E as [_ ->].
Qed.

(** A normalized event comes out of [_buildBaseTransformedEvent]. *)
Lemma transformStatusEvent_built (event v : Value) :
  transformStatusEvent tr event = Ret v -> v <> JNull ->
  exists td, _buildBaseTransformedEvent event (payload_of event) td = Ret v.
Proof.
  unfold transformStatusEvent. intros H Hv.
  bind_inv H. destruct x; cbn [negb] in H; [| injection H as <-; contradiction].
  bind_inv H. apply get_Ret_inv in E0 as [Hev ->].
  bind_inv H. apply get_Ret_inv in E0 as [Hd ->].
  fold (payload_of event) in H.
  do 2 bind_inv H.
  destruct (truthy x0); cbn [negb] in H; [| injection H as <-; contradiction].
  do 7 bind_inv H. eauto.
Qed.

Lemma transformChatMessage_built (event v : Value) :
  transformChatMessage tr event = Ret v -> v <> JNull ->
  exists g sender time td,
    _isGroupMessage (payload_of event) = Ret g
    /\ sender_of (payload_of event) g = Ret sender
    /\ opt_call_toString (opt (payload_of event) "timestamp") = Ret time
    /\ _buildBaseTransformedEvent event (payload_of event) td = Ret v
    /\ (forall k, In k base_fields ->
          lookup_field k td
            = lookup_field k (chat_base (payload_of event) g sender time)).
Proof.
  unfold transformChatMessage. intros H Hv.
  bind_inv H. apply get_Ret_inv in E as [Hev ->].
  fold (payload_of event) in H.
  destruct (truthy (payload_of event)
            && list_includes (messageTypes tr) (opt (payload_of event) "type"))
    eqn:Hacc; cbn [negb] in H; [| injection H as <-; contradiction].
  apply andb_prop in Hacc as [Hod _]. apply truthy_not_nullish in Hod.
  bind_inv H. apply get_Ret_inv in E as [_ ->].
  apply bind_Ret_inv in H as (messageType & Hmt & H).
  apply bind_Ret_inv in H as (g & Hg & H).
  rewrite !(get_opt (payload_of event)) in H by exact Hod. cbn [bind] in H.
  apply bind_Ret_inv in H as (sender & Hsender & H).
  apply bind_Ret_inv in H as (time & Htime & H).
  apply bind_Ret_inv in H as (td1 & HS & H).
  apply bind_Ret_inv in H as (td2 & HB & H).
  exists g, sender, time, td2. repeat split; try assumption.
  intros k Hk.
  rewrite (add_body_keeps_field k _ _ _ HB).
  2: { intros ->. cbn in Hk. intuition discriminate. }
  rewrite (handleSpecial_keeps_field k _ _ _ HS).
  2: { unfold base_fields, special_fields in *. cbn in Hk |- *.
       intuition (subst; discriminate). }
  unfold base_fields in Hk. cbn in Hk.
  destruct Hk as [<- | [<- | [<- | [<- | [<- | [<- | [<- | [<- | []]]]]]]]];
    reflexivity.
Qed.

End MapperFieldFacts.

Section NormalizedFacts.
Import JS EventTransformers.
Variable tr : EventTransformers.t.

Lemma buildBase_normalized event originalData td v :
  _buildBaseTransformedEvent event originalData td = Ret v -> normalized v.
Proof.
  unfold _buildBaseTransformedEvent. intros H. repeat bind_inv H.
  injection H as <-. unfold normalized. eauto.
Qed.

(** What [transform] returns is null, the envelope, or what one of the two
    mappers built. *)
Lemma transform_Ret_inv (event v : Value) :
  transform tr event = Ret v ->
  (v = JNull /\ shouldIgnoreEvent tr event = Ret true)
  \/ (shouldIgnoreEvent tr event = Ret false
      /\ v <> JNull
      /\ ((transformStatusEvent tr event = Ret v /\ normalized v)
          \/ (exists s, transformStatusEvent tr event = Ret s
                        /\ truthy s = false
                        /\ transformChatMessage tr event = Ret v
                        /\ normalized v)
          \/ (exists s c, transformStatusEvent tr event = Ret s
                          /\ truthy s = false
                          /\ transformChatMessage tr event = Ret c
                          /\ truthy c = false
                          /\ v = event))).
Proof.
  unfold transform. intros H.
  apply bind_Ret_inv in H as (ignored & Hign & H).
  destruct ignored; [injection H as <-; by left |].
  right. split; [exact Hign |].
  pose proof (shouldIgnoreEvent_Ret_inv tr event false Hign) as Hev.
  apply bind_Ret_inv in H as (st & Hst & H).
  destruct (truthy st) eqn:Tst.
  { injection H as <-.
    assert (Hv : st <> JNull) by (intros ->; discriminate).
    split; [exact Hv | left]. split; [exact Hst |].
    destruct (transformStatusEvent_built tr event st Hst Hv) as (td & Hb).
    exact (buildBase_normalized _ _ _ _ Hb). }
  apply bind_Ret_inv in H as (ch & Hch & H).
  destruct (truthy ch) eqn:Tch; injection H as <-.
  - assert (Hv : ch <> JNull) by (intros ->; discriminate).
    split; [exact Hv | right; left]. exists st. repeat split; try assumption.
    destruct (transformChatMessage_built tr event ch Hch Hv)
      as (g & sender & time & td & _ & _ & _ & Hb & _).
    exact (buildBase_normalized _ _ _ _ Hb).
  - split; [intros ->; discriminate |]. right; right. exists st, ch. by repeat split.
Qed.

End NormalizedFacts.

Section DefaultFacts.
Import JS EventTransformers.
Variable tr : EventTransformers.t.

Lemma or_falsy (a b : Value) : truthy a = false -> or a b = b.
Proof. unfold or. by intros ->. Qed.

Lemma opt_call_toString_nullish (v r : Value) :
  nullish v = true -> opt_call_toString v = Ret r -> r = JUndefined.
Proof. destruct v; try discriminate; by intros _ [= <-]. Qed.

Lemma opt_call_includes_nullish (v : Value) (needle : string) :
  nullish v = true -> opt_call_includes v needle = Ret JUndefined.
Proof. by destruct v. Qed.

Lemma isGroupMessage_absent (originalData g : Value) :
  _isGroupMessage originalData = Ret g ->
  nullish (opt (opt originalData "from") "user") = true ->
  nullish (opt (opt (opt originalData "id") "remote") "user") = true ->
  nullish (opt (opt originalData "__raw") "from") = true ->
  g = JUndefined.
Proof.
  unfold _isGroupMessage. intros H H1 H2 H3.
  bind_inv H. apply get_Ret_inv in E as [Hod ->].
  rewrite (opt_call_includes_nullish _ _ H1) in H. cbn [bind truthy] in H.
  rewrite (get_opt _ "id" Hod) in H. cbn [bind] in H.
  rewrite (opt_call_includes_nullish _ _ H2) in H. cbn [bind truthy] in H.
  rewrite (get_opt _ "__raw" Hod) in H. cbn [bind] in H.
  rewrite (opt_call_includes_nullish _ _ H3) in H. by injection H as <-.
Qed.

Lemma transformChatMessage_defaults (event v : Value) :
  transformChatMessage tr event = Ret v -> v <> JNull ->
  chat_defaults (payload_of event) (opt v "data").
Proof.
  intros H Hv.
  destruct (transformChatMessage_built tr event v H Hv)
    as (g & sender & time & td & Hg & Hs & Ht & Hb & Hfields).
  unfold chat_defaults. rewrite (buildBase_data _ _ _ _ Hb). cbn [opt].
  rewrite !Hfields by (cbn; tauto).
  cbn [chat_base lookup_field String.eqb Ascii.eqb Bool.eqb].
  split; [intros F; by rewrite or_falsy |].
  split; [intros F; by rewrite or_falsy |].
  split; [intros F; by rewrite (opt_call_toString_nullish _ _ F Ht) |].
  split; [intros F; by rewrite or_falsy |].
  split; [intros F1 F2 F3; exact (isGroupMessage_absent _ _ Hg F1 F2 F3) |].
  intros G. rewrite G. split; [reflexivity |].
  intros F. unfold sender_of in Hs. rewrite G in Hs.
  injection Hs as <-. by rewrite or_falsy.
Qed.

Lemma getMediaFormat_absent (originalData f : Value) :
  _getMediaFormat originalData = Ret f ->
  truthy (opt (opt originalData "__raw") "mimetype") = false ->
  is_str (opt originalData "type") "chat" = false ->
  truthy (opt originalData "body") = false ->
  f = JNull.
Proof.
  unfold _getMediaFormat. intros H H1 H2 H3.
  bind_inv H. apply get_Ret_inv in E as [Hod ->].
  rewrite H1 in H. cbn [bind] in H.
  rewrite (get_opt _ "type" Hod) in H. cbn [bind] in H.
  rewrite H2, H1 in H. cbn [negb] in H.
  rewrite (get_opt _ "body" Hod) in H. cbn [bind] in H.
  rewrite H3 in H. injection H as <-. by rewrite or_falsy.
Qed.

Lemma transformStatusEvent_defaults (event v : Value) :
  transformStatusEvent tr event = Ret v -> v <> JNull ->
  status_defaults (payload_of event) (opt v "data").
Proof.
  unfold transformStatusEvent. intros H Hv.
  bind_inv H. destruct x; cbn [negb] in H; [| injection H as <-; contradiction].
  bind_inv H. apply get_Ret_inv in E0 as [Hev ->].
  bind_inv H. apply get_Ret_inv in E0 as [Hd ->].
  fold (payload_of event) in H.
  set (od := payload_of event) in *.
  bind_inv H. apply get_Ret_inv in E0 as [Hod ->].
  apply bind_Ret_inv in H as (eventType & Het & H).
  destruct (truthy eventType); cbn [negb] in H;
    [| injection H as <-; contradiction].
  rewrite !(get_opt od _ Hod) in H. cbn [bind] in H.
  apply bind_Ret_inv in H as (format & Hf & H).
  apply bind_Ret_inv in H as (time & Ht & H).
  apply bind_Ret_inv in H as (td & HB & H).
  unfold status_defaults. rewrite (buildBase_data _ _ _ _ H). cbn [opt].
  rewrite !(add_body_keeps_field _ _ _ _ HB) by discriminate.
  cbn [lookup_field String.eqb Ascii.eqb Bool.eqb].
  split; [intros F; by rewrite or_falsy |].
  split; [intros F1 F2; by rewrite !or_falsy |].
  split; [intros F; by rewrite or_falsy |].
  split; [intros F; by rewrite (opt_call_toString_nullish _ _ F Ht) |].
  split; [intros F; by rewrite or_falsy |].
  intros F1 F2 F3. exact (getMediaFormat_absent _ _ Hf F1 F2 F3).
Qed.

(** [toISOString] rejects a time value out of range: the builder raises on
    a non-zero timestamp beyond the range of [Date]. *)
Lemma buildBase_out_of_range (event originalData : Value) td (n : Z) :
  nullish event = false ->
  opt originalData "timestamp" = JNum n ->
  n <> 0 ->
  max_time_value < Z.abs (n * 1000) ->
  _buildBaseTransformedEvent event originalData td = Throw InvalidTime.
Proof.
  intros Hev Hts Hn Hrange. unfold _buildBaseTransformedEvent.
  rewrite (get_opt event _ Hev). cbn [bind].
  assert (Hod : nullish originalData = false).
  { destruct originalData; try reflexivity; discriminate. }
  rewrite (get_opt originalData _ Hod). cbn [bind]. rewrite Hts.
  cbn [truthy]. rewrite (proj2 (Z.eqb_neq n 0) Hn). cbn [negb].
  unfold iso_of_seconds. cbn [to_number bind].
  rewrite (proj2 (Z.leb_gt _ _) Hrange). reflexivity.
Qed.

End DefaultFacts.

Section ProcessorCatchFacts.
Import JS EventProcessor.

(** What [transform] raises, the processor catches. *)
Lemma processEvent_transform_throws cfg env rawEvent p tr e :
  transformers_for env p = Some tr ->
  EventTransformers.isIgnored tr (envelope env rawEvent) = Ret false ->
  EventTransformers.transform tr (envelope env rawEvent) = Throw e ->
  processEvent cfg env rawEvent p =
    (Ret (error e (or (opt rawEvent "type") (JStr "unknown"))),
     {| eventTransformers := Some tr;
        calls := (calls p ++ [call_isIgnored; call_transform])%list |}).
Proof.
  intros Htr Hign Hthrow. unfold transformers_for in Htr.
  unfold processEvent, try_catch, ebind, gets, modify, eret, lift, invoked.
  destruct p as [current calls].
  cbn [eventTransformers EventProcessor.calls] in *.
  destruct current as [tr0 |];
    cbn [eventTransformers EventProcessor.calls set_transformers].
  - injection Htr as ->. rewrite Hign, Hthrow. cbn. rewrite <- app_assoc. reflexivity.
  - rewrite Htr, Hign, Hthrow. cbn. rewrite <- app_assoc. reflexivity.
Qed.

End ProcessorCatchFacts.

(** C9 (as the code has it).  On an event object [isIgnored] never raises.
    [transform] does not raise when the payload fields it calls methods on
    or converts are absent, null or of their expected type (identifiers,
    mimetype and subtype strings, integer ack levels and timestamps within
    the range of [Date], a recipients array of strings); it then returns
    null, the envelope itself, or a normalized event.  A normalized event it
    returns is the one of the status mapper or of the chat mapper, with the
    defaults of that mapper for what the payload lacks: null for a missing
    identifier, sender, recipient or time, false for a missing direction
    flag, the group flag left undefined, and the timestamp of the envelope
    where the payload has none.  On a field of another type it can raise:
    where the status mapper declines and the chat mapper accepts a message
    whose [from.user] is a number, [transform] raises a type error; on a
    non-zero timestamp beyond the range of [Date] the builder of normalized
    events raises a range error, so that [transform] returns no normalized
    event.  What [transform] raises, [EventProcessor.processEvent] catches
    and reports as an error result under the type of the raw event. *)
Theorem C9_defensive_on_expected_types
    (tr : EventTransformers.t) (event : JS.Value) :
  JS.nullish event = false ->
  returns (EventTransformers.isIgnored tr event)
  /\ (expected_types (payload_of event) = true ->
      exists v, EventTransformers.transform tr event = Ret v
                /\ (v = JS.JNull \/ v = event \/ normalized v))
  /\ (forall v,
        EventTransformers.transform tr event = Ret v ->
        v <> JS.JNull -> v <> event ->
        normalized v
        /\ ((EventTransformers.transformStatusEvent tr event = Ret v
             /\ status_defaults (payload_of event) (JS.opt v "data"))
            \/ (EventTransformers.transformChatMessage tr event = Ret v
                /\ chat_defaults (payload_of event) (JS.opt v "data")))
        /\ (JS.truthy (JS.opt (payload_of event) "timestamp") = false ->
            JS.opt v "timestamp" = JS.opt event "timestamp"))
  /\ (forall n,
        EventTransformers.shouldIgnoreEvent tr event = Ret false ->
        EventTransformers.transformStatusEvent tr event = Ret JS.JNull ->
        JS.list_includes (EventTransformers.messageTypes tr)
          (JS.opt (payload_of event) "type") = true ->
        scalar (JS.opt (payload_of event) "ack") = true ->
        JS.opt (JS.opt (payload_of event) "from") "user" = JS.JNum n ->
        EventTransformers.transform tr event = Throw (NotAFunction "includes"))
  /\ (forall n,
        JS.opt (payload_of event) "timestamp" = JS.JNum n ->
        n <> 0 ->
        JS.max_time_value < Z.abs (n * 1000) ->
        (forall td,
            EventTransformers._buildBaseTransformedEvent event
              (payload_of event) td = Throw InvalidTime)
        /\ (forall v,
              EventTransformers.transform tr event = Ret v ->
              v = JS.JNull \/ v = event))
  /\ (forall cfg env rawEvent p e,
        event = EventProcessor.envelope env rawEvent ->
        transformers_for env p = Some tr ->
        EventTransformers.isIgnored tr event = Ret false ->
        EventTransformers.transform tr event = Throw e ->
        fst (EventProcessor.processEvent cfg env rawEvent p)
          = Ret (EventProcessor.error e
                   (JS.or (JS.opt rawEvent "type") (JS.JStr "unknown")))).
Proof.
  intros Hev.
  split; [apply shouldIgnoreEvent_returns; exact Hev |].
  split; [intros Hty; by apply transform_returns |].
  split.
  { intros v H Hnull Hpass.
    destruct (transform_Ret_inv tr event v H)
      as [[-> _] | (_ & _ & [[Hst Hn] | [(s & _ & _ & Hch & Hn)
                                        | (s & c & _ & _ & _ & _ & ->)]])];
      try contradiction.
    - split; [exact Hn |]. split.
      + left. split; [exact Hst |]. by apply (transformStatusEvent_defaults tr).
      + destruct (transformStatusEvent_built tr event v Hst Hnull) as (td & Hb).
        apply (buildBase_identity _ _ _ _ Hb).
    - split; [exact Hn |]. split.
      + right. split; [exact Hch |]. by apply (transformChatMessage_defaults tr).
      + destruct (transformChatMessage_built tr event v Hch Hnull)
          as (g & sender & time & td & _ & _ & _ & Hb & _).
        apply (buildBase_identity _ _ _ _ Hb). }
  split; [intros n; apply transform_numeric_sender |].
  split.
  { intros n Hts Hn Hrange.
    assert (Hthrow : forall td,
              EventTransformers._buildBaseTransformedEvent event
                (payload_of event) td = Throw InvalidTime).
    { intros td. by apply (buildBase_out_of_range event _ td n). }
    split; [exact Hthrow |]. intros v H.
    destruct (transform_Ret_inv tr event v H)
      as [[-> _] | (_ & Hnull & [[Hst _] | [(s & _ & _ & Hch & _)
                                           | (s & c & _ & _ & _ & _ & ->)]])];
      [by left | exfalso | exfalso | by right].
    - destruct (transformStatusEvent_built tr event v Hst Hnull) as (td & Hb).
      rewrite Hthrow in Hb. discriminate.
    - destruct (transformChatMessage_built tr event v Hch Hnull)
        as (g & sender & time & td & _ & _ & _ & Hb & _).
      rewrite Hthrow in Hb. discriminate. }
  intros cfg env rawEvent p e -> Htr Hign Hthrow.
  by rewrite (processEvent_transform_throws cfg env rawEvent p tr e).
Qed.

(** A chat message whose payload has nothing but its type comes back
    normalized, every other field at its default; and the processor
    reports what [transform] raises on a numeric sender. *)
Lemma C9_defensive_on_expected_types_witness :
  let v :=
    match EventTransformers.transform EventTransformers.defaults
            bare_chat_event with
    | Ret v => v
    | _ => JS.JNull
    end in
  let raw :=
    JS.JObj [ ("type", JS.JStr "message_create");
              ("data", JS.JObj [ ("type", JS.JStr "chat");
                                 ("from", JS.JObj [("user", JS.JNum 5355)]) ]) ] in
  returns (EventTransformers.isIgnored EventTransformers.defaults bare_chat_event)
  /\ EventTransformers.transform EventTransformers.defaults bare_chat_event
       = Ret v
  /\ normalized v
  /\ chat_defaults (payload_of bare_chat_event) (JS.opt v "data")
  /\ JS.opt v "timestamp" = JS.opt bare_chat_event "timestamp"
  /\ fst (EventProcessor.processEvent sample_config (sample_env None) raw
            {| EventProcessor.eventTransformers := None;
               EventProcessor.calls := [] |})
     = Ret (EventProcessor.error (NotAFunction "includes")
              (JS.JStr "message_create")).
Proof.
  intros v raw.
  destruct (C9_defensive_on_expected_types EventTransformers.defaults
              bare_chat_event eq_refl) as (Hign & _ & Hfields & _).
  destruct (Hfields v) as (Hnorm & Hmapper & Htime);
    [vm_compute; reflexivity | vm_compute; discriminate
     | vm_compute; discriminate |].
  destruct (C9_defensive_on_expected_types EventTransformers.defaults
              (EventProcessor.envelope (sample_env None) raw) eq_refl)
    as (_ & _ & _ & Hraise & _ & Hcatch).
  split; [exact Hign |]. split; [vm_compute; reflexivity |].
  split; [exact Hnorm |]. split.
  { destruct Hmapper as [[Hst _] | [_ Hd]]; [| exact Hd].
    vm_compute in Hst. discriminate. }
  split; [exact (Htime eq_refl) |].
  apply (Hcatch sample_config (sample_env None) raw
           {| EventProcessor.eventTransformers := None;
              EventProcessor.calls := [] |} (NotAFunction "includes"));
    [reflexivity | reflexivity | reflexivity |].
  apply (Hraise 5355); reflexivity.
Defined.

Example bare_chat_event_nulls :
  EventTransformers.transform EventTransformers.defaults bare_chat_event =
    Ret (JS.JObj
           [ ("internal_event_id", JS.JNum 1);
             ("timestamp", JS.JStr "2026-01-01T00:00:00.000Z");
             ("data",
               JS.JObj
                 [ ("message_id", JS.JNull);
                   ("type", JS.JStr "message_created");
                   ("format", JS.JStr "chat");
                   ("from_number", JS.JNull);
                   ("to_number", JS.JNull);
                   ("isGroup", JS.JUndefined);
                   ("group_id", JS.JNull);
                   ("fromMe", JS.JBool false);
                   ("message_time", JS.JNull) ]) ]).
Proof. vm_compute. reflexivity. Qed.

(** C9, the claim as stated, fails: [transform] raises on event objects of
    unexpected shape.  [originalData.from?.user?.includes] is not a function
    when [user] is a number, and [toISOString] rejects a time value out of
    range. *)
Lemma C9_counterexample :
  EventTransformers.transform EventTransformers.defaults numeric_sender_event
    = Throw (NotAFunction "includes")
  /\ EventTransformers.transform EventTransformers.defaults far_future_event
    = Throw InvalidTime.
Proof. split; vm_compute; reflexivity. Qed.

(** ** The statistics *)

Section StatsFacts.
Import JS StatsCollector.

Lemma updateEventStats_counted (eventType : Value) (action : Action) (c : t) key :
  type_key eventType = Ret key ->
  updateEventStats eventType action c =
    (Ret tt,
     set_eventStats
       (count_action action (count_type key (count_total (eventStats c)))) c).
Proof.
  intros Hk. unfold updateEventStats, ebind, modify, lift. rewrite Hk.
  reflexivity.
Qed.

Lemma type_key_to_string (v : Value) key :
  type_key v = Ret key -> to_string v = Ret key.
Proof.
  unfold type_key. destruct (to_string v) as [s | e |]; cbn [bind];
    try discriminate.
  destruct (existsb _ _); [discriminate | congruence].
Qed.

End StatsFacts.

(** ** The event processor *)

Section ProcessorFacts.
Import JS EventProcessor.

Lemma processEvent_catches cfg env rawEvent p e :
  fst (processEvent cfg env rawEvent p) <> Throw e.
Proof.
  unfold processEvent, try_catch.
  match goal with |- context [match ?m p with _ => _ end] =>
    destruct (m p) as [[r | e' |] p'] end; simpl; discriminate.
Qed.

Lemma processEvent_result_type cfg env rawEvent p r p' :
  processEvent cfg env rawEvent p = (Ret r, p') ->
  result_type r = None
  \/ result_type r = Some (opt rawEvent "type")
  \/ result_type r = Some (or (opt rawEvent "type") (JStr "unknown")).
Proof.
  unfold processEvent, try_catch.
  match goal with |- context [match ?m p with _ => _ end] =>
    destruct (m p) as [[r0 | e' |] p0] eqn:Hbody end.
  2: { unfold eret. intros [= <- <-]. right. right. reflexivity. }
  2: { discriminate. }
  intros [= <- <-]. revert Hbody.
  unfold ebind, gets, modify, eret, lift, invoked.
  destruct (eventTransformers p) as [tr0 |]; cbn.
  all: repeat match goal with
    | |- context [match ?x with _ => _ end] =>
        match x with
        | get ?v "type" =>
            destruct (get_outcome v "type") as [-> | [_ ->]]
        | _ => destruct x eqn:?
        end; cbn
    end; intros [= <- <-]; cbn; auto; try discriminate.
Qed.

End ProcessorFacts.

(** ** The per-event pipeline *)

Section PipelineFacts.
Import JS Bridge.

Lemma countable_inv (event : Value) :
  countable event = true ->
  nullish event = false
  /\ exists key, StatsCollector.type_key (opt event "type") = Ret key.
Proof.
  unfold countable. intros H.
  destruct (get_outcome event "type") as [E | [_ E]]; rewrite E in H;
    [| discriminate].
  split; [destruct event; simpl in *; try discriminate; reflexivity |].
  destruct (StatsCollector.type_key (opt event "type")) as [k | |];
    try discriminate. eauto.
Qed.

Lemma countable_or_unknown (event : Value) :
  countable event = true ->
  exists key,
    StatsCollector.type_key (or (opt event "type") (JStr "unknown")) = Ret key.
Proof.
  intros H. apply countable_inv in H as [_ [key Hk]].
  unfold or. destruct (truthy (opt event "type")); eauto.
Qed.

Lemma stats_updateEventStats (eventType : Value) a (b : t) key :
  StatsCollector.type_key eventType = Ret key ->
  exists b',
    stats (StatsCollector.updateEventStats eventType a) b = (Ret tt, b')
    /\ stats_step a b b'.
Proof.
  intros Hk. unfold stats, zoom.
  rewrite (updateEventStats_counted _ a _ _ Hk).
  eexists. split; [reflexivity |].
  unfold stats_step, total_of, errors_of, filtered_of, ignored_of.
  destruct a; cbn; repeat split; unfold indicator; lia.
Qed.

Lemma same_counts_refl b : same_counts b b.
Proof. by repeat split. Qed.

Lemma same_counts_trans b1 b2 b3 :
  same_counts b1 b2 -> same_counts b2 b3 -> same_counts b1 b3.
Proof. unfold same_counts. intros (? & ? & ?) (? & ? & ?). repeat split; congruence. Qed.

Lemma publishEvent_same_counts cfg broker eventData eventType b o b' :
  nats (NATSManager.publishEvent cfg broker eventData eventType) b = (o, b') ->
  same_counts b b'.
Proof.
  unfold nats, zoom, NATSManager.publishEvent, NATSManager.connection_publish,
    NATSManager.record_call, ebind, gets, modify, lift, eret.
  destruct (natsManager b) as [conn pub] eqn:Hn. cbn.
  destruct conn; cbn; [| intros [= <- <-]; (unfold same_counts; cbn; rewrite ?Hn; by repeat split)].
  destruct broker; cbn; [intros [= <- <-]; (unfold same_counts; cbn; rewrite ?Hn; by repeat split) |].
  destruct (Config.debug_enabled cfg); cbn;
    [destruct (to_string eventType); cbn |];
    intros [= <- <-]; (unfold same_counts; cbn; rewrite ?Hn; by repeat split).
Qed.

Lemma publishIgnoredEvent_same_counts cfg broker eventData b o b' :
  nats (NATSManager.publishIgnoredEvent cfg broker eventData) b = (o, b') ->
  same_counts b b'.
Proof.
  unfold nats, zoom, NATSManager.publishIgnoredEvent,
    NATSManager.connection_publish, NATSManager.record_call,
    ebind, gets, modify, lift, eret.
  destruct (natsManager b) as [conn pub] eqn:Hn. cbn.
  destruct conn; cbn; [| intros [= <- <-]; (unfold same_counts; cbn; rewrite ?Hn; by repeat split)].
  destruct broker; cbn; [intros [= <- <-]; (unfold same_counts; cbn; rewrite ?Hn; by repeat split) |].
  destruct (Config.debug_enabled cfg); cbn;
    [destruct (let* d := get eventData "data" in _); cbn |];
    intros [= <- <-]; (unfold same_counts; cbn; rewrite ?Hn; by repeat split).
Qed.

Lemma updateMessageStats_same_counts cfg subject success b :
  same_counts b
    (set_stats (StatsCollector.updateMessageStats cfg subject success
                  (statsCollector b)) b).
Proof.
  unfold same_counts, StatsCollector.updateMessageStats. cbn.
  repeat split. repeat (case_match; try reflexivity).
Qed.

Lemma counts_step_of_same extra out b1 b2 b3 :
  same_counts b1 b2 -> counts_step extra out b2 b3 -> counts_step extra out b1 b3.
Proof.
  unfold same_counts, counts_step, total_of, errors_of, filtered_of, ignored_of.
  intros (E & R & C) (? & ? & ? & ? & ? & ?). rewrite E in *.
  repeat split; congruence.
Qed.

Lemma counts_step_same out b b' :
  counted_twice out = false -> same_counts b b' -> counts_step 0 out b b'.
Proof.
  unfold same_counts, counts_step, total_of, errors_of, filtered_of, ignored_of.
  intros Hout (E & R & C). rewrite E.
  destruct out; try discriminate; cbn; repeat split; try lia; assumption.
Qed.

Lemma counts_step_of_stats a out b b' :
  stats_step a b b' ->
  (match a, out with
   | StatsCollector.error, Failed
   | StatsCollector.filtered_out, Filtered
   | StatsCollector.ignored_event, Ignored _ => True
   | _, _ => False
   end) ->
  counts_step 0 out b b'.
Proof.
  unfold stats_step, counts_step. intros (? & ? & ? & ? & ? & Hn & ?) Hm.
  rewrite Hn. destruct a, out; try contradiction; cbn in *;
    repeat split; lia || assumption.
Qed.

Lemma dispatch_counts cfg env r b o b' :
  dispatch cfg env r b = (o, b') ->
  (forall t, result_type r = Some t ->
             exists key, StatsCollector.type_key t = Ret key) ->
  match o with
  | Ret out => counts_step 0 out b b'
  | Throw _ => same_counts b b'
  | Beyond => True
  end.
Proof.
  intros Hrun Hkey. destruct r as [reason | eventData eventType | reason eventType
                                  | eventData original eventType was | e eventType];
    cbn [dispatch] in Hrun.
  - injection Hrun as <- <-. apply counts_step_same; [reflexivity |].
    apply same_counts_refl.
  - unfold ebind at 1 in Hrun.
    destruct (nats _ b) as [[subject | e | ] b1] eqn:Hpub;
      pose proof (publishIgnoredEvent_same_counts _ _ _ _ _ _ Hpub) as S1.
    2: { injection Hrun as <- <-. exact S1. }
    2: { injection Hrun as <- <-. exact I. }
    unfold ebind at 1, modify at 1 in Hrun.
    destruct (Hkey eventType eq_refl) as [key Hk].
    pose proof (updateMessageStats_same_counts (Config.nats cfg) subject true b1)
      as S2.
    destruct (stats_updateEventStats eventType StatsCollector.ignored_event
                (set_stats (StatsCollector.updateMessageStats (Config.nats cfg)
                              subject true (statsCollector b1)) b1) key Hk)
      as (b3 & Hst & Hstep).
    unfold ebind at 1 in Hrun. rewrite Hst in Hrun. injection Hrun as <- <-.
    eapply counts_step_of_same; [exact S1 |].
    eapply counts_step_of_same; [exact S2 |].
    eapply counts_step_of_stats; [exact Hstep | exact I].
  - destruct (Hkey eventType eq_refl) as [key Hk].
    destruct (stats_updateEventStats eventType StatsCollector.filtered_out
                b key Hk) as (b3 & Hst & Hstep).
    unfold ebind at 1 in Hrun. rewrite Hst in Hrun. injection Hrun as <- <-.
    eapply counts_step_of_stats; [exact Hstep | exact I].
  - unfold ebind at 1 in Hrun.
    destruct (nats _ b) as [[subject | e | ] b1] eqn:Hpub;
      pose proof (publishEvent_same_counts _ _ _ _ _ _ _ Hpub) as S1.
    2: { injection Hrun as <- <-. exact S1. }
    2: { injection Hrun as <- <-. exact I. }
    pose proof (updateMessageStats_same_counts (Config.nats cfg) subject true b1)
      as S2.
    unfold ebind at 1, modify at 1 in Hrun.
    destruct (was && Config.debug_enabled cfg).
    + unfold ebind at 1, lift at 1 in Hrun.
      match type of Hrun with context [match ?m with _ => _ end] =>
        destruct m as [u | e |] end; injection Hrun as <- <-.
      * apply counts_step_same; [reflexivity |].
        eapply same_counts_trans; eassumption.
      * eapply same_counts_trans; eassumption.
      * exact I.
    + injection Hrun as <- <-. apply counts_step_same; [reflexivity |].
      eapply same_counts_trans; eassumption.
  - destruct (Hkey eventType eq_refl) as [key Hk].
    unfold ebind at 1, lift at 1 in Hrun.
    rewrite (type_key_to_string _ _ Hk) in Hrun.
    destruct (stats_updateEventStats eventType StatsCollector.error
                b key Hk) as (b3 & Hst & Hstep).
    unfold ebind at 1 in Hrun. rewrite Hst in Hrun. injection Hrun as <- <-.
    eapply counts_step_of_stats; [exact Hstep | exact I].
Qed.

Lemma recordProcessingTime_same_counts ms b :
  same_counts b (recordProcessingTime ms b).
Proof. by repeat split. Qed.

Lemma counts_step_then_same extra out b1 b2 b3 :
  counts_step extra out b1 b2 -> same_counts b2 b3 -> counts_step extra out b1 b3.
Proof.
  unfold same_counts, counts_step, total_of, errors_of, filtered_of, ignored_of.
  intros (? & ? & ? & ? & ? & ?) (E & R & C). rewrite E.
  repeat split; congruence.
Qed.

Lemma counts_step_after_count out b1 b2 b3 :
  stats_step StatsCollector.processed b1 b2 ->
  counts_step 0 out b2 b3 -> counts_step 1 out b1 b3.
Proof.
  unfold stats_step, counts_step.
  intros (? & ? & ? & ? & ? & Hn & ?) (? & ? & ? & ? & ? & ?). rewrite Hn in *.
  cbn in *. repeat split; lia || congruence.
Qed.

(** One event through [processEvent]: it is counted once on receipt, and a
    second time unless it ends published or skipped. *)
Lemma processEvent_counts cfg env event b o b' :
  countable event = true ->
  processEvent cfg env event b = (o, b') ->
  o = Beyond \/ exists out, o = Ret out /\ counts_step 1 out b b'.
Proof.
  intros Hc Hrun. pose proof (countable_or_unknown event Hc) as [ukey Hunknown].
  apply countable_inv in Hc as [Hev [key Hk]].
  unfold processEvent, finally in Hrun.
  destruct (try_catch _ _ b) as [o1 b1] eqn:Htry. injection Hrun as <- <-.
  unfold try_catch in Htry.
  destruct (attempt cfg env event b) as [o2 b2] eqn:Hatt.
  unfold attempt in Hatt.
  unfold ebind at 1, lift at 1 in Hatt. rewrite (get_opt event _ Hev) in Hatt.
  destruct (stats_updateEventStats (opt event "type") StatsCollector.processed
              b key Hk) as (b0 & Hst & Hstep).
  unfold ebind at 1 in Hatt. rewrite Hst in Hatt.
  unfold ebind at 1, lift at 1 in Hatt.
  unfold ebind at 1, lift at 1 in Hatt.
  rewrite (type_key_to_string _ _ Hk) in Hatt.
  unfold ebind at 1, processor at 1, zoom at 1 in Hatt.
  destruct (EventProcessor.processEvent cfg env event (eventProcessor b0))
    as [[r | e |] p'] eqn:HEP.
  - assert (Hkeys : forall t, result_type r = Some t ->
                              exists k, StatsCollector.type_key t = Ret k).
    { intros t Ht.
      destruct (processEvent_result_type _ _ _ _ _ _ HEP) as [E | [E | E]];
        rewrite E in Ht; [discriminate | |]; injection Ht as <-; eauto. }
    pose proof (dispatch_counts _ _ _ _ _ _ Hatt Hkeys) as Hd.
    assert (S0 : same_counts b0 (set_processor p' b0)) by (by repeat split).
    destruct o2 as [out | e |].
    + injection Htry as <- <-. right. exists out. split; [reflexivity |].
      eapply counts_step_then_same; [| apply recordProcessingTime_same_counts].
      eapply counts_step_after_count; [exact Hstep |].
      eapply counts_step_of_same; eassumption.
    + unfold recover in Htry.
      unfold ebind at 1, lift at 1 in Htry. rewrite (get_opt event _ Hev) in Htry.
      destruct (stats_updateEventStats (opt event "type") StatsCollector.error
                  b2 key Hk) as (b3 & Hst3 & Hstep3).
      unfold ebind at 1 in Htry. rewrite Hst3 in Htry. injection Htry as <- <-.
      right. exists Failed. split; [reflexivity |].
      eapply counts_step_then_same; [| apply recordProcessingTime_same_counts].
      eapply counts_step_after_count; [exact Hstep |].
      eapply counts_step_of_same; [exact S0 |].
      eapply counts_step_of_same; [exact Hd |].
      eapply counts_step_of_stats; [exact Hstep3 | exact I].
    + injection Htry as <- <-. by left.
  - exfalso. eapply processEvent_catches. rewrite HEP. reflexivity.
  - injection Hatt as <- <-. injection Htry as <- <-. by left.
Qed.

End PipelineFacts.

Section BatchFacts.
Import JS Bridge.

Lemma tally_length outs :
  tally counted_once outs + tally counted_twice outs = Z.of_nat (length outs).
Proof.
  induction outs as [| o rest IH]; [reflexivity |].
  cbn [tally fold_right length]. fold (tally counted_once rest).
  fold (tally counted_twice rest). unfold counted_once at 1.
  destruct (counted_twice o); cbn [negb indicator]; lia.
Qed.

Lemma tally_twice outs :
  tally counted_twice outs =
    tally is_ignored outs + tally is_filtered outs + tally is_failed outs.
Proof.
  induction outs as [| o rest IH]; [reflexivity |].
  cbn [tally fold_right]. fold (tally counted_twice rest).
  fold (tally is_ignored rest). fold (tally is_filtered rest).
  fold (tally is_failed rest). destruct o; cbn; lia.
Qed.

Lemma tally_nonneg P outs : 0 <= tally P outs.
Proof.
  induction outs as [| o rest IH]; [reflexivity |].
  cbn [tally fold_right]. fold (tally P rest). destruct (P o); cbn; lia.
Qed.

Lemma processEvents_counts cfg (events : list (Value * Env.t)) b o b' :
  Forall (fun e => countable (fst e) = true) events ->
  processEvents cfg events b = (o, b') ->
  o = Beyond
  \/ exists outs, o = Ret outs /\ length outs = length events
                  /\ batch_step outs b b'.
Proof.
  revert b o b'. induction events as [| [event env] rest IH];
    intros b o b' Hall Hrun.
  - injection Hrun as <- <-. right. exists []. repeat split.
    unfold total_of. cbn. lia.
    all: unfold errors_of, filtered_of, ignored_of; cbn; lia.
  - inversion Hall as [| ? ? Hc Hrest]; subst. cbn [fst] in Hc.
    cbn [processEvents] in Hrun. unfold ebind at 1 in Hrun.
    destruct (processEvent cfg env event b) as [o1 b1] eqn:H1.
    destruct (processEvent_counts _ _ _ _ _ _ Hc H1) as [-> | (out & -> & Hstep)];
      [injection Hrun as <- <-; by left |].
    unfold ebind at 1 in Hrun.
    destruct (processEvents cfg rest b1) as [o2 b2] eqn:H2.
    destruct (IH _ _ _ Hrest H2) as [-> | (outs & -> & Hlen & Hbatch)];
      [injection Hrun as <- <-; by left |].
    injection Hrun as <- <-. right. exists (out :: outs).
    split; [reflexivity |]. split; [cbn; lia |].
    destruct Hstep as (? & ? & ? & ? & ? & ?).
    destruct Hbatch as (? & ? & ? & ? & ? & ?).
    unfold batch_step. cbn [tally fold_right length].
    fold (tally counted_twice outs). fold (tally is_failed outs).
    fold (tally is_filtered outs). fold (tally is_ignored outs).
    repeat split; try lia; congruence.
Qed.

End BatchFacts.

(** C10.  Every event of a batch is counted once on receipt and a second
    time when it ends ignored, filtered or errored; published and skipped
    events are counted once.  After the batch the total has grown by the
    number of published-or-skipped events plus twice the number of ignored,
    filtered and errored ones, which exceeds the number of events received
    as soon as one of them is counted twice. *)
Theorem C10_total_counts_twice
    (cfg : Config.t) (events : list (JS.Value * Env.t)) (b b' : Bridge.t)
    (o : Outcome (list Bridge.PipelineOutcome)) :
  Forall (fun e => countable (fst e) = true) events ->
  Bridge.processEvents cfg events b = (o, b') ->
  o <> Beyond ->
  exists outs,
    o = Ret outs
    /\ length outs = length events
    /\ total_of b' = total_of b + tally counted_once outs
                     + 2 * tally counted_twice outs
    /\ tally counted_twice outs
       = tally is_ignored outs + tally is_filtered outs + tally is_failed outs
    /\ ignored_of b' = ignored_of b + tally is_ignored outs
    /\ filtered_of b' = filtered_of b + tally is_filtered outs
    /\ errors_of b' = errors_of b + tally is_failed outs
    /\ Z.of_nat (length events) <= total_of b' - total_of b
    /\ (0 < tally counted_twice outs ->
        Z.of_nat (length events) < total_of b' - total_of b).
Proof.
  intros Hall Hrun Hmodel.
  destruct (processEvents_counts _ _ _ _ _ Hall Hrun)
    as [-> | (outs & -> & Hlen & Hstep)]; [contradiction |].
  exists outs. destruct Hstep as (Ht & He & Hf & Hi & _ & _).
  pose proof (tally_length outs) as Hl. pose proof (tally_twice outs) as Htw.
  pose proof (tally_nonneg counted_twice outs) as Hnn.
  rewrite <- Hlen. repeat split; try assumption; lia.
Qed.

(** One ignored and one published event: the total is three for two events
    received. *)
Lemma C10_total_counts_twice_witness :
  let events := [ (ciphertext_event, sample_env None);
                  (delivered_chat_event, sample_env None) ] in
  let run := Bridge.processEvents sample_config events fresh_bridge in
  exists outs,
    fst run = Ret outs
    /\ length outs = length events
    /\ total_of (snd run) = total_of fresh_bridge + tally counted_once outs
                            + 2 * tally counted_twice outs
    /\ tally counted_twice outs
       = tally is_ignored outs + tally is_filtered outs + tally is_failed outs
    /\ ignored_of (snd run) = ignored_of fresh_bridge + tally is_ignored outs
    /\ filtered_of (snd run) = filtered_of fresh_bridge + tally is_filtered outs
    /\ errors_of (snd run) = errors_of fresh_bridge + tally is_failed outs
    /\ Z.of_nat (length events) <= total_of (snd run) - total_of fresh_bridge
    /\ (0 < tally counted_twice outs ->
        Z.of_nat (length events) < total_of (snd run) - total_of fresh_bridge).
Proof.
  intros events run.
  apply (C10_total_counts_twice sample_config events fresh_bridge (snd run)
           (fst run)).
  - repeat constructor.
  - apply surjective_pairing.
  - vm_compute. discriminate.
Defined.

Example two_events_three_counts :
  let run := Bridge.processEvents sample_config
               [ (ciphertext_event, sample_env None);
                 (delivered_chat_event, sample_env None) ] fresh_bridge in
  fst run = Ret [ Bridge.Ignored "whatsapp.ignored";
                  Bridge.Published "whatsapp.events" ]
  /\ total_of (snd run) = 3.
Proof. vm_compute. split; reflexivity. Qed.

(** ** Ignored events and failed publishes *)

Section RoutingFacts.
Import JS Bridge.

Lemma attempt_unfold cfg env event b key :
  nullish event = false ->
  StatsCollector.type_key (opt event "type") = Ret key ->
  attempt cfg env event b =
    match EventProcessor.processEvent cfg env event (eventProcessor b) with
    | (Ret r, p') => dispatch cfg env r (set_processor p' (received key b))
    | (Throw e, p') => (Throw e, set_processor p' (received key b))
    | (Beyond, p') => (Beyond, set_processor p' (received key b))
    end.
Proof.
  intros Hev Hk. unfold attempt.
  unfold ebind at 1, lift at 1. rewrite (get_opt event _ Hev).
  unfold ebind at 1, stats at 1, zoom at 1.
  rewrite (updateEventStats_counted _ _ _ _ Hk).
  unfold ebind at 1, lift at 1. unfold ebind at 1, lift at 1.
  rewrite (type_key_to_string _ _ Hk).
  unfold ebind at 1, processor at 1, zoom at 1. cbn [eventProcessor set_stats].
  destruct (EventProcessor.processEvent cfg env event (eventProcessor b))
    as [[r | e |] p']; reflexivity.
Qed.




Lemma dispatch_publish_fails cfg env r b :
  reaches_publish r = true ->
  publish_fails (natsManager b) env = true ->
  exists e b', dispatch cfg env r b = (Throw e, b').
Proof.
  intros Hr Hf. unfold publish_fails in Hf.
  destruct r; try discriminate; cbn [dispatch];
    unfold ebind at 1, nats, zoom, NATSManager.publishEvent,
      NATSManager.publishIgnoredEvent, NATSManager.connection_publish,
      NATSManager.record_call, ebind, gets, modify, lift, eret;
    destruct (natsManager b) as [conn pub]; cbn in *;
    destruct conn; cbn in *; eauto;
    destruct (Env.broker env); try discriminate; cbn; eauto.
Qed.

Lemma processEvent_publish_failure cfg env event b r p' :
  countable event = true ->
  EventProcessor.processEvent cfg env event (eventProcessor b) = (Ret r, p') ->
  reaches_publish r = true ->
  publish_fails (natsManager b) env = true ->
  exists b', processEvent cfg env event b = (Ret Failed, b')
             /\ counts_step 1 Failed b b'.
Proof.
  intros Hc HEP Hr Hf.
  destruct (countable_inv event Hc) as [Hev [key Hk]].
  destruct (dispatch_publish_fails cfg env r
              (set_processor p' (received key b)) Hr Hf) as (e & b1 & Hd).
  assert (Hrun : exists b', processEvent cfg env event b = (Ret Failed, b')).
  { unfold processEvent, finally, try_catch.
    rewrite (attempt_unfold _ _ _ _ _ Hev Hk), HEP, Hd.
    unfold recover. unfold ebind at 1, lift at 1. rewrite (get_opt _ _ Hev).
    unfold ebind at 1, stats at 1, zoom at 1.
    rewrite (updateEventStats_counted _ _ _ _ Hk). cbn. eauto. }
  destruct Hrun as [b' Hrun]. exists b'. split; [exact Hrun |].
  destruct (processEvent_counts _ _ _ _ _ _ Hc Hrun) as [? | (out & [= <-] & ?)];
    [discriminate | assumption].
Qed.

End RoutingFacts.




(** ** The polling loop *)

Section PollingFacts.
Import JS Polling.

Lemma keeps_running_eret {A} (a : A) : keeps_running (eret a).
Proof. intros b o b' [= <- <-]. reflexivity. Qed.

Lemma keeps_running_lift {A} (x : Outcome A) : keeps_running (lift x).
Proof. intros b o b' [= <- <-]. reflexivity. Qed.

Lemma keeps_running_ebind {A B} (m : Eff Bridge.t A) (k : A -> Eff Bridge.t B) :
  keeps_running m -> (forall a, keeps_running (k a)) -> keeps_running (ebind m k).
Proof.
  intros Hm Hk b o b' H. unfold ebind in H.
  destruct (m b) as [[a | e |] b1] eqn:E; pose proof (Hm _ _ _ E) as H1.
  - pose proof (Hk a _ _ _ H). congruence.
  - injection H as <- <-. exact H1.
  - injection H as <- <-. exact H1.
Qed.

Lemma keeps_running_stats {A} (m : Eff StatsCollector.t A) :
  keeps_running (Bridge.stats m).
Proof.
  intros b o b' H. unfold Bridge.stats, zoom in H.
  destruct (m _) as [o1 c]. injection H as <- <-. reflexivity.
Qed.

Lemma keeps_running_nats {A} (m : Eff NATSManager.t A) :
  keeps_running (Bridge.nats m).
Proof.
  intros b o b' H. unfold Bridge.nats, zoom in H.
  destruct (m _) as [o1 c]. injection H as <- <-. reflexivity.
Qed.

Lemma keeps_running_processor {A} (m : Eff EventProcessor.t A) :
  keeps_running (Bridge.processor m).
Proof.
  intros b o b' H. unfold Bridge.processor, zoom in H.
  destruct (m _) as [o1 c]. injection H as <- <-. reflexivity.
Qed.

Lemma keeps_running_set_stats (f : Bridge.t -> StatsCollector.t) :
  keeps_running (modify (fun b => Bridge.set_stats (f b) b)).
Proof. intros b o b' [= <- <-]. reflexivity. Qed.

Lemma keeps_running_try_catch {A} (m : Eff Bridge.t A) handler :
  keeps_running m -> (forall e, keeps_running (handler e)) ->
  keeps_running (try_catch m handler).
Proof.
  intros Hm Hh b o b' H. unfold try_catch in H.
  destruct (m b) as [[a | e |] b1] eqn:E; pose proof (Hm _ _ _ E) as H1.
  - injection H as <- <-. exact H1.
  - pose proof (Hh e _ _ _ H). congruence.
  - injection H as <- <-. exact H1.
Qed.

Lemma keeps_running_dispatch cfg env r : keeps_running (Bridge.dispatch cfg env r).
Proof.
  destruct r; cbn [Bridge.dispatch];
    repeat first
      [ apply keeps_running_ebind; [| intros ?]
      | apply keeps_running_eret
      | apply keeps_running_lift
      | apply keeps_running_stats
      | apply keeps_running_nats
      | apply keeps_running_set_stats
      | match goal with |- keeps_running (if ?c then _ else _) => destruct c end ].
Qed.

Lemma keeps_running_processEvent cfg env event :
  keeps_running (Bridge.processEvent cfg env event).
Proof.
  intros b o b' H. unfold Bridge.processEvent, finally in H.
  destruct (try_catch _ _ b) as [o1 b1] eqn:E. injection H as <- <-.
  cbn. revert E. apply keeps_running_try_catch.
  - unfold Bridge.attempt.
    repeat first
      [ apply keeps_running_ebind; [| intros ?]
      | apply keeps_running_eret
      | apply keeps_running_lift
      | apply keeps_running_stats
      | apply keeps_running_processor
      | apply keeps_running_dispatch ].
  - intros e. unfold Bridge.recover.
    repeat first
      [ apply keeps_running_ebind; [| intros ?]
      | apply keeps_running_eret
      | apply keeps_running_lift
      | apply keeps_running_stats ].
Qed.

Lemma keeps_running_processEvents cfg events :
  keeps_running (Bridge.processEvents cfg events).
Proof.
  induction events as [| [event env] rest IH]; cbn [Bridge.processEvents].
  - apply keeps_running_eret.
  - apply keeps_running_ebind; [apply keeps_running_processEvent |].
    intros o. apply keeps_running_ebind; [exact IH |].
    intros os. apply keeps_running_eret.
Qed.

Lemma pollEvents_completes cfg p events outs b' :
  Bridge.isRunning (bridge p) = true ->
  Bridge.processEvents cfg events (bridge p) = (Ret outs, b') ->
  pollEvents cfg (batch_tick events) p =
    (Ret tt,
     {| bridge := b'; pollingRetries := 0;
        timer := Some (Config.interval (Config.polling cfg));
        pollAttempts := S (pollAttempts p) |}).
Proof.
  intros Hrun Hbatch.
  pose proof (keeps_running_processEvents cfg events _ _ _ Hbatch) as Hkeep.
  rewrite Hrun in Hkeep.
  destruct p as [b retries tm attempts]. cbn [bridge pollAttempts] in *.
  unfold pollEvents, batch_tick, try_catch, browser_pollEvents, zoom, ebind,
    gets, modify, eret, lift.
  cbn -[Bridge.processEvents]. rewrite Hrun. cbn -[Bridge.processEvents].
  rewrite Hbatch. cbn. rewrite Hkeep. reflexivity.
Qed.

Lemma pollEvents_transient cfg p message :
  Bridge.isRunning (bridge p) = true ->
  transient message ->
  pollEvents cfg (failure_tick message) p =
    (Ret tt,
     if Config.maxRetries (Config.polling cfg) <=? pollingRetries p + 1 then
       {| bridge := Bridge.handleBrowserClose (bridge p);
          pollingRetries := pollingRetries p + 1;
          timer := None; pollAttempts := S (pollAttempts p) |}
     else
       {| bridge := bridge p; pollingRetries := pollingRetries p + 1;
          timer := Some (Config.retryDelay (Config.polling cfg));
          pollAttempts := S (pollAttempts p) |}).
Proof.
  intros Hrun Htr. unfold transient in Htr.
  destruct p as [b retries tm attempts]. cbn [bridge pollAttempts pollingRetries] in *.
  unfold pollEvents, failure_tick, try_catch, browser_pollEvents, zoom, ebind,
    gets, modify, eret, lift.
  cbn -[is_fatal Z.leb Z.add]. rewrite Hrun. cbn -[is_fatal Z.leb Z.add].
  rewrite Htr. cbn -[Z.leb Z.add].
  destruct (Config.maxRetries (Config.polling cfg) <=? retries + 1); reflexivity.
Qed.

Lemma timers_idle cfg ticks p : timer p = None -> timers cfg ticks p = (Ret tt, p).
Proof.
  intros H. destruct ticks as [| tick rest]; [reflexivity |].
  cbn [timers]. unfold ebind, gets. rewrite H. reflexivity.
Qed.

Lemma handleBrowserClose_stops b :
  Bridge.isRunning (Bridge.handleBrowserClose b) = false.
Proof. unfold Bridge.handleBrowserClose. destruct (Bridge.isRunning b) eqn:E; auto. Qed.

(** A run of transient errors that brings the counter to the maximum. *)
Lemma timers_transient_run cfg messages : forall p later,
  Bridge.isRunning (bridge p) = true ->
  timer p <> None ->
  Forall transient messages ->
  messages <> [] ->
  pollingRetries p + Z.of_nat (length messages)
    = Config.maxRetries (Config.polling cfg) ->
  timers cfg (map failure_tick messages ++ later)%list p =
    (Ret tt,
     {| bridge := Bridge.handleBrowserClose (bridge p);
        pollingRetries := Config.maxRetries (Config.polling cfg);
        timer := None;
        pollAttempts := (pollAttempts p + length messages)%nat |}).
Proof.
  induction messages as [| m rest IH]; intros p later Hrun Htimer Hall Hne Hmax;
    [contradiction |].
  inversion Hall as [| ? ? Hm Hrest]; subst.
  cbn [map app timers]. unfold ebind at 1, gets at 1.
  destruct (timer p) as [d |] eqn:Ht; [| contradiction].
  unfold ebind at 1. rewrite (pollEvents_transient cfg p m Hrun Hm).
  destruct rest as [| m' rest'].
  - cbn [length] in Hmax.
    destruct (Z.leb_spec (Config.maxRetries (Config.polling cfg))
                (pollingRetries p + 1)) as [_ | Hlt]; [| lia].
    rewrite timers_idle by reflexivity.
    f_equal. f_equal; [lia | cbn; lia].
  - cbn [length] in Hmax.
    destruct (Z.leb_spec (Config.maxRetries (Config.polling cfg))
                (pollingRetries p + 1)) as [Hle | _]; [lia |].
    rewrite IH; try assumption; cbn [bridge pollingRetries timer pollAttempts];
      try discriminate; [| cbn [length]; lia].
    f_equal. f_equal. cbn [length]. lia.
Qed.

Lemma startEventPolling_transient_run cfg b m rest later :
  Bridge.isRunning b = true ->
  Forall transient (m :: rest) ->
  Z.of_nat (length (m :: rest)) = Config.maxRetries (Config.polling cfg) ->
  startEventPolling cfg b (failure_tick m)
    (map failure_tick rest ++ later)%list =
    (Ret tt,
     {| bridge := Bridge.handleBrowserClose b;
        pollingRetries := Config.maxRetries (Config.polling cfg);
        timer := None;
        pollAttempts := length (m :: rest) |}).
Proof.
  intros Hrun Hall Hmax. inversion Hall as [| ? ? Hm Hrest]; subst.
  unfold startEventPolling. unfold ebind at 1.
  rewrite (pollEvents_transient cfg
             {| bridge := b; pollingRetries := 0; timer := None;
                pollAttempts := 0 |} m Hrun Hm).
  cbn [bridge pollingRetries timer pollAttempts].
  destruct rest as [| m' rest'].
  - cbn [length] in Hmax.
    destruct (Z.leb_spec (Config.maxRetries (Config.polling cfg)) (0 + 1))
      as [_ | Hlt]; [| lia].
    rewrite timers_idle by reflexivity. f_equal. f_equal. lia.
  - cbn [length] in Hmax.
    destruct (Z.leb_spec (Config.maxRetries (Config.polling cfg)) (0 + 1))
      as [Hle | _]; [lia |].
    rewrite timers_transient_run; try assumption;
      cbn [bridge pollingRetries timer pollAttempts];
      try discriminate; [| cbn [length]; lia].
    reflexivity.
Qed.

End PollingFacts.

(** C7.  A poll that completes its batch sets the consecutive-failure
    counter to zero and schedules the next poll after the polling interval.
    A run of consecutive transient poll errors that brings the counter to
    the configured maximum, right after the start or later from any counter
    value, stops the bridge: it is no longer running, no timer is pending,
    and the browser has been polled exactly once per error, whatever would
    have come next. *)
Theorem C7_counter_reset_and_stop (cfg : Config.t) :
  (forall (p : Polling.t) events outs b',
      Bridge.isRunning (Polling.bridge p) = true ->
      Bridge.processEvents cfg events (Polling.bridge p) = (Ret outs, b') ->
      Polling.pollEvents cfg (batch_tick events) p =
        (Ret tt,
         {| Polling.bridge := b'; Polling.pollingRetries := 0;
            Polling.timer := Some (Config.interval (Config.polling cfg));
            Polling.pollAttempts := S (Polling.pollAttempts p) |}))
  /\ (forall (b : Bridge.t) m rest later,
         Bridge.isRunning b = true ->
         Forall transient (m :: rest) ->
         Z.of_nat (length (m :: rest)) = Config.maxRetries (Config.polling cfg) ->
         exists final,
           Polling.startEventPolling cfg b (failure_tick m)
             (map failure_tick rest ++ later)%list = (Ret tt, final)
           /\ Bridge.isRunning (Polling.bridge final) = false
           /\ Polling.timer final = None
           /\ Polling.pollAttempts final = length (m :: rest))
  /\ (forall (p : Polling.t) messages later,
         Bridge.isRunning (Polling.bridge p) = true ->
         Polling.timer p <> None ->
         Forall transient messages ->
         messages <> [] ->
         Polling.pollingRetries p + Z.of_nat (length messages)
           = Config.maxRetries (Config.polling cfg) ->
         exists final,
           Polling.timers cfg (map failure_tick messages ++ later)%list p
             = (Ret tt, final)
           /\ Bridge.isRunning (Polling.bridge final) = false
           /\ Polling.timer final = None
           /\ Polling.pollAttempts final
              = (Polling.pollAttempts p + length messages)%nat).
Proof.
  split; [| split].
  - intros p events outs b'. apply pollEvents_completes.
  - intros b m rest later Hrun Hall Hmax.
    eexists. split; [by apply startEventPolling_transient_run |].
    cbn [Polling.bridge Polling.timer Polling.pollAttempts].
    split; [apply handleBrowserClose_stops | split; reflexivity].
  - intros p messages later Hrun Htimer Hall Hne Hmax.
    eexists. split; [by apply timers_transient_run |].
    cbn [Polling.bridge Polling.timer Polling.pollAttempts].
    split; [apply handleBrowserClose_stops | split; reflexivity].
Qed.

(** Scenario D: three transient errors with [maxRetries = 3], and a batch
    that would have come fourth. *)
Lemma C7_counter_reset_and_stop_witness :
  exists final,
    Polling.startEventPolling sample_config fresh_bridge
      (failure_tick "Navigation timeout")
      (map failure_tick ["Navigation timeout"; "Navigation timeout"]
       ++ [batch_tick [(delivered_chat_event, sample_env None)]])%list
      = (Ret tt, final)
    /\ Bridge.isRunning (Polling.bridge final) = false
    /\ Polling.timer final = None
    /\ Polling.pollAttempts final = 3%nat.
Proof.
  destruct (C7_counter_reset_and_stop sample_config) as [_ [Hstop _]].
  apply (Hstop fresh_bridge "Navigation timeout"
           ["Navigation timeout"; "Navigation timeout"]
           [batch_tick [(delivered_chat_event, sample_env None)]]).
  - reflexivity.
  - repeat constructor.
  - reflexivity.
Defined.

Example scenario_D_states :
  let p0 := {| Polling.bridge := fresh_bridge; Polling.pollingRetries := 0;
               Polling.timer := None; Polling.pollAttempts := 0 |} in
  let p1 := snd (Polling.pollEvents sample_config
                   (failure_tick "Navigation timeout") p0) in
  let p2 := snd (Polling.pollEvents sample_config
                   (failure_tick "Navigation timeout") p1) in
  let p3 := snd (Polling.pollEvents sample_config
                   (failure_tick "Navigation timeout") p2) in
  (Polling.pollingRetries p1, Polling.timer p1,
   Bridge.isRunning (Polling.bridge p1)) = (1, Some 5000, true)
  /\ (Polling.pollingRetries p2, Polling.timer p2,
      Bridge.isRunning (Polling.bridge p2)) = (2, Some 5000, true)
  /\ (Polling.pollingRetries p3, Polling.timer p3,
      Bridge.isRunning (Polling.bridge p3)) = (3, None, false).
Proof. vm_compute. repeat split; reflexivity. Qed.

(** C8.  When the publish step of an event fails (no connection, or the
    broker refuses), the event ends as Failed and is counted among the
    errors; the bridge keeps running, the rest of the batch is processed
    from the state the failure left, and the poll completes as any other:
    counter at zero, next poll scheduled. *)
Theorem C8_publish_failure_is_local
    (cfg : Config.t) (env : Env.t) (event : JS.Value)
    (rest : list (JS.Value * Env.t)) (p : Polling.t)
    (r : EventProcessor.Result) (ep' : EventProcessor.t) :
  Bridge.isRunning (Polling.bridge p) = true ->
  countable event = true ->
  EventProcessor.processEvent cfg env event
    (Bridge.eventProcessor (Polling.bridge p)) = (Ret r, ep') ->
  reaches_publish r = true ->
  publish_fails (Bridge.natsManager (Polling.bridge p)) env = true ->
  exists b',
    Bridge.processEvent cfg env event (Polling.bridge p) = (Ret Bridge.Failed, b')
    /\ errors_of b' = errors_of (Polling.bridge p) + 1
    /\ total_of b' = total_of (Polling.bridge p) + 2
    /\ Bridge.isRunning b' = true
    /\ NATSManager.connection (Bridge.natsManager b')
       = NATSManager.connection (Bridge.natsManager (Polling.bridge p))
    /\ forall outs b'',
         Bridge.processEvents cfg rest b' = (Ret outs, b'') ->
         Bridge.processEvents cfg ((event, env) :: rest) (Polling.bridge p)
           = (Ret (Bridge.Failed :: outs), b'')
         /\ Polling.pollEvents cfg (batch_tick ((event, env) :: rest)) p =
              (Ret tt,
               {| Polling.bridge := b''; Polling.pollingRetries := 0;
                  Polling.timer := Some (Config.interval (Config.polling cfg));
                  Polling.pollAttempts := S (Polling.pollAttempts p) |}).
Proof.
  intros Hrun Hc HEP Hr Hf.
  destruct (processEvent_publish_failure _ _ _ _ _ _ Hc HEP Hr Hf)
    as (b' & H1 & Hstep).
  destruct Hstep as (Ht & He & _ & _ & Hk & Hn).
  exists b'. split; [exact H1 |].
  split; [cbn in He; lia |]. split; [cbn in Ht; lia |].
  split; [congruence |]. split; [exact Hn |].
  intros outs b'' Hrest.
  assert (Hbatch :
    Bridge.processEvents cfg ((event, env) :: rest) (Polling.bridge p)
      = (Ret (Bridge.Failed :: outs), b'')).
  { cbn [Bridge.processEvents]. unfold ebind at 1. rewrite H1.
    unfold ebind at 1. rewrite Hrest. reflexivity. }
  split; [exact Hbatch |].
  exact (pollEvents_completes cfg p _ _ _ Hrun Hbatch).
Qed.

(** A batch of two chat messages; the broker refuses the first. *)
Lemma C8_publish_failure_is_local_witness :
  let p := {| Polling.bridge := fresh_bridge; Polling.pollingRetries := 0;
              Polling.timer := None; Polling.pollAttempts := 0 |} in
  let env := sample_env (Some "TIMEOUT") in
  exists b',
    Bridge.processEvent sample_config env delivered_chat_event fresh_bridge
      = (Ret Bridge.Failed, b')
    /\ errors_of b' = errors_of fresh_bridge + 1
    /\ total_of b' = total_of fresh_bridge + 2
    /\ Bridge.isRunning b' = true
    /\ NATSManager.connection (Bridge.natsManager b')
       = NATSManager.connection (Bridge.natsManager fresh_bridge)
    /\ forall outs b'',
         Bridge.processEvents sample_config
           [(delivered_chat_event, sample_env None)] b' = (Ret outs, b'') ->
         Bridge.processEvents sample_config
           [ (delivered_chat_event, env);
             (delivered_chat_event, sample_env None) ] fresh_bridge
           = (Ret (Bridge.Failed :: outs), b'')
         /\ Polling.pollEvents sample_config
              (batch_tick [ (delivered_chat_event, env);
                            (delivered_chat_event, sample_env None) ]) p =
              (Ret tt,
               {| Polling.bridge := b''; Polling.pollingRetries := 0;
                  Polling.timer := Some 1000;
                  Polling.pollAttempts := 1 |}).
Proof.
  intros p env.
  pose (run := EventProcessor.processEvent sample_config env delivered_chat_event
                 (Bridge.eventProcessor fresh_bridge)).
  apply (C8_publish_failure_is_local sample_config env delivered_chat_event
           [(delivered_chat_event, sample_env None)] p
           (match fst run with
            | Ret r => r
            | _ => EventProcessor.skip ""
            end) (snd run)).
  - reflexivity.
  - reflexivity.
  - vm_compute. reflexivity.
  - vm_compute. reflexivity.
  - reflexivity.
Defined.

Example failed_publish_then_next_publish :
  let run := Bridge.processEvents sample_config
               [ (delivered_chat_event, sample_env (Some "TIMEOUT"));
                 (delivered_chat_event, sample_env None) ] fresh_bridge in
  fst run = Ret [Bridge.Failed; Bridge.Published "whatsapp.events"]
  /\ map NATSManager.accepted (NATSManager.published (Bridge.natsManager (snd run)))
     = [false; true]
  /\ errors_of (snd run) = 1.
Proof. vm_compute. repeat split; reflexivity. Qed.

(** * Further properties of the code *)

(** ** The polling loop, case by case *)

Section ScheduleFacts.
Import JS Polling.

Lemma pollEvents_stopped cfg tick p :
  Bridge.isRunning (bridge p) = false ->
  pollEvents cfg tick p = (Ret tt, timer_fired p).
Proof.
  intros Hrun. unfold pollEvents, ebind, gets, modify, eret. cbn.
  rewrite Hrun. reflexivity.
Qed.

Lemma pollEvents_dead cfg tick p :
  Bridge.isRunning (bridge p) = true ->
  browserAlive tick = false ->
  pollEvents cfg tick p = (Ret tt, handleBrowserClose (timer_fired p)).
Proof.
  intros Hrun Hdead. unfold pollEvents, ebind, gets, modify, eret. cbn.
  rewrite Hrun, Hdead. reflexivity.
Qed.

Lemma pollEvents_alive cfg tick p :
  Bridge.isRunning (bridge p) = true ->
  browserAlive tick = true ->
  pollEvents cfg tick p =
    let polling := count_attempt (timer_fired p) in
    match outcome tick with
    | polled events =>
        match Bridge.processEvents cfg events (bridge p) with
        | (Ret _, b') =>
            (Ret tt,
             setTimeout (Config.interval (Config.polling cfg))
               (set_retries 0 (set_bridge b' polling)))
        | (Throw e, b') =>
            (Ret tt, after_poll_error cfg e (set_bridge b' polling))
        | (Beyond, b') => (Beyond, set_bridge b' polling)
        end
    | poll_failed message =>
        (Ret tt, after_poll_error cfg (ErrorMsg message) polling)
    end.
Proof.
  intros Hrun Halive.
  destruct p as [b retries tm attempts]. cbn [bridge] in Hrun.
  destruct tick as [alive [events | message]]; cbn [browserAlive] in Halive;
    subst alive.
  - unfold pollEvents, try_catch, browser_pollEvents, zoom, ebind,
      gets, modify, eret, lift, after_poll_error.
    cbn -[Bridge.processEvents is_fatal Z.leb Z.add]. rewrite Hrun.
    cbn -[Bridge.processEvents is_fatal Z.leb Z.add].
    destruct (Bridge.processEvents cfg events b) as [[outs | e |] b'] eqn:Hb;
      pose proof (keeps_running_processEvents cfg events _ _ _ Hb) as Hkeep;
      rewrite Hrun in Hkeep.
    + cbn. rewrite Hkeep. reflexivity.
    + cbn -[is_fatal Z.leb Z.add].
      destruct (is_fatal e); [reflexivity |].
      cbn -[Z.leb Z.add].
      destruct (Config.maxRetries (Config.polling cfg) <=? retries + 1);
        reflexivity.
    + reflexivity.
  - unfold pollEvents, try_catch, browser_pollEvents, zoom, ebind,
      gets, modify, eret, lift, after_poll_error.
    cbn -[is_fatal Z.leb Z.add]. rewrite Hrun.
    cbn -[is_fatal Z.leb Z.add].
    destruct (is_fatal (ErrorMsg message)); [reflexivity |].
    cbn -[Z.leb Z.add].
    destruct (Config.maxRetries (Config.polling cfg) <=? retries + 1);
      reflexivity.
Qed.

End ScheduleFacts.

(** X1.  A poll error whose message carries one of the fatal indicators
    stops the bridge at once, whatever the retry counter and the configured
    maximum: the bridge is no longer running, no retry is scheduled, and the
    activations that would have followed do nothing. *)
Theorem fatal_poll_error_stops_at_once
    (cfg : Config.t) (p : Polling.t) (message : string)
    (later : list Polling.Tick) :
  Bridge.isRunning (Polling.bridge p) = true ->
  Polling.is_fatal (ErrorMsg message) = true ->
  let stopped :=
    {| Polling.bridge := Bridge.handleBrowserClose (Polling.bridge p);
       Polling.pollingRetries := Polling.pollingRetries p + 1;
       Polling.timer := None;
       Polling.pollAttempts := S (Polling.pollAttempts p) |} in
  Polling.pollEvents cfg (failure_tick message) p = (Ret tt, stopped)
  /\ Bridge.isRunning (Polling.bridge stopped) = false
  /\ Polling.timers cfg later stopped = (Ret tt, stopped).
Proof.
  intros Hrun Hfatal stopped. split; [| split].
  - rewrite pollEvents_alive by (assumption || reflexivity).
    cbn [failure_tick Polling.outcome]. unfold after_poll_error.
    rewrite Hfatal. reflexivity.
  - apply handleBrowserClose_stops.
  - apply timers_idle. reflexivity.
Qed.

Lemma fatal_poll_error_stops_at_once_witness :
  let p := {| Polling.bridge := fresh_bridge; Polling.pollingRetries := 0;
              Polling.timer := None; Polling.pollAttempts := 0 |} in
  let stopped :=
    {| Polling.bridge := Bridge.handleBrowserClose fresh_bridge;
       Polling.pollingRetries := 0 + 1;
       Polling.timer := None;
       Polling.pollAttempts := 1 |} in
  Polling.pollEvents sample_config
    (failure_tick "Protocol error (Runtime.callFunctionOn): Session closed.") p
    = (Ret tt, stopped)
  /\ Bridge.isRunning (Polling.bridge stopped) = false
  /\ Polling.timers sample_config
       [batch_tick [(delivered_chat_event, sample_env None)]] stopped
     = (Ret tt, stopped).
Proof.
  exact (fatal_poll_error_stops_at_once sample_config
           {| Polling.bridge := fresh_bridge; Polling.pollingRetries := 0;
              Polling.timer := None; Polling.pollAttempts := 0 |}
           "Protocol error (Runtime.callFunctionOn): Session closed."
           [batch_tick [(delivered_chat_event, sample_env None)]]
           eq_refl eq_refl).
Defined.

(** X2.  When the browser does not answer the liveness probe, a running
    bridge stops without polling it: the queue is not read, the retry
    counter is left alone and nothing is scheduled, whatever the poll would
    have returned. *)
Theorem dead_browser_stops_without_polling
    (cfg : Config.t) (p : Polling.t) (tick : Polling.Tick) :
  Bridge.isRunning (Polling.bridge p) = true ->
  Polling.browserAlive tick = false ->
  Polling.pollEvents cfg tick p =
    (Ret tt,
     {| Polling.bridge := Bridge.handleBrowserClose (Polling.bridge p);
        Polling.pollingRetries := Polling.pollingRetries p;
        Polling.timer := None;
        Polling.pollAttempts := Polling.pollAttempts p |})
  /\ Bridge.isRunning (Bridge.handleBrowserClose (Polling.bridge p)) = false
  /\ Bridge.statsCollector (Bridge.handleBrowserClose (Polling.bridge p))
     = Bridge.statsCollector (Polling.bridge p)
  /\ published_of (Bridge.handleBrowserClose (Polling.bridge p))
     = published_of (Polling.bridge p).
Proof.
  intros Hrun Hdead. split; [| split; [| split]].
  - rewrite pollEvents_dead by assumption. reflexivity.
  - apply handleBrowserClose_stops.
  - unfold Bridge.handleBrowserClose. destruct (Bridge.isRunning _); reflexivity.
  - unfold Bridge.handleBrowserClose, published_of.
    destruct (Bridge.isRunning _); reflexivity.
Qed.

Lemma dead_browser_stops_without_polling_witness :
  let p := {| Polling.bridge := fresh_bridge; Polling.pollingRetries := 2;
              Polling.timer := Some 5000; Polling.pollAttempts := 7 |} in
  Polling.pollEvents sample_config
    {| Polling.browserAlive := false;
       Polling.outcome :=
         Polling.polled [(delivered_chat_event, sample_env None)] |} p =
    (Ret tt,
     {| Polling.bridge := Bridge.handleBrowserClose fresh_bridge;
        Polling.pollingRetries := 2;
        Polling.timer := None;
        Polling.pollAttempts := 7 |})
  /\ Bridge.isRunning (Bridge.handleBrowserClose fresh_bridge) = false
  /\ Bridge.statsCollector (Bridge.handleBrowserClose fresh_bridge)
     = Bridge.statsCollector fresh_bridge
  /\ published_of (Bridge.handleBrowserClose fresh_bridge)
     = published_of fresh_bridge.
Proof.
  exact (dead_browser_stops_without_polling sample_config
           {| Polling.bridge := fresh_bridge; Polling.pollingRetries := 2;
              Polling.timer := Some 5000; Polling.pollAttempts := 7 |}
           {| Polling.browserAlive := false;
              Polling.outcome :=
                Polling.polled [(delivered_chat_event, sample_env None)] |}
           eq_refl eq_refl).
Defined.

(** X3.  Once the bridge is stopped, the polling loop is over: a poll that
    was still pending returns at once when it fires, and no sequence of
    further activations polls the browser, processes an event, touches the
    retry counter or schedules anything. *)
Theorem stopped_bridge_never_polls
    (cfg : Config.t) (p : Polling.t) (ticks : list Polling.Tick) :
  Bridge.isRunning (Polling.bridge p) = false ->
  (forall tick,
      Polling.pollEvents cfg tick p = (Ret tt, Polling.timer_fired p))
  /\ exists p',
       Polling.timers cfg ticks p = (Ret tt, p')
       /\ Polling.bridge p' = Polling.bridge p
       /\ Polling.pollingRetries p' = Polling.pollingRetries p
       /\ Polling.pollAttempts p' = Polling.pollAttempts p
       /\ (ticks <> [] -> Polling.timer p' = None).
Proof.
  intros Hrun. split; [intros tick; by apply pollEvents_stopped |].
  destruct ticks as [| tick rest].
  - exists p. cbn. repeat split; congruence.
  - cbn [Polling.timers]. unfold ebind at 1, gets at 1.
    destruct (Polling.timer p) as [d |] eqn:Ht.
    + unfold ebind. rewrite pollEvents_stopped by assumption.
      rewrite timers_idle by reflexivity.
      exists (Polling.timer_fired p). repeat split.
    + exists p. cbn. repeat split; congruence.
Qed.

Lemma stopped_bridge_never_polls_witness :
  let p := {| Polling.bridge := Bridge.handleBrowserClose fresh_bridge;
              Polling.pollingRetries := 1;
              Polling.timer := Some 1000; Polling.pollAttempts := 4 |} in
  let ticks := [ batch_tick [(delivered_chat_event, sample_env None)];
                 failure_tick "Navigation timeout" ] in
  (forall tick,
      Polling.pollEvents sample_config tick p = (Ret tt, Polling.timer_fired p))
  /\ exists p',
       Polling.timers sample_config ticks p = (Ret tt, p')
       /\ Polling.bridge p' = Polling.bridge p
       /\ Polling.pollingRetries p' = Polling.pollingRetries p
       /\ Polling.pollAttempts p' = Polling.pollAttempts p
       /\ (ticks <> [] -> Polling.timer p' = None).
Proof.
  exact (stopped_bridge_never_polls sample_config
           {| Polling.bridge := Bridge.handleBrowserClose fresh_bridge;
              Polling.pollingRetries := 1;
              Polling.timer := Some 1000; Polling.pollAttempts := 4 |}
           [ batch_tick [(delivered_chat_event, sample_env None)];
             failure_tick "Navigation timeout" ]
           eq_refl).
Defined.

(** ** Events whose type cannot be counted *)

Section ValueFacts.
Import JS.

Lemma Value_nested_ind (P : Value -> Prop) :
  P JUndefined -> P JNull -> (forall b, P (JBool b)) -> (forall z, P (JNum z)) ->
  (forall s, P (JStr s)) ->
  (forall items, Forall P items -> P (JArr items)) ->
  (forall fs, Forall (fun kv => P (snd kv)) fs -> P (JObj fs)) ->
  (forall name, P (JHost name)) ->
  forall v, P v.
Proof.
  intros HU HN HB HZ HS HA HO HH. fix IH 1.
  intros [| | b | z | s | items | fs | name];
    [exact HU | exact HN | apply HB | apply HZ | apply HS | | | apply HH].
  - apply HA. induction items as [| x xs IHxs]; constructor; [apply IH | exact IHxs].
  - apply HO. induction fs as [| [k x] xs IHxs]; constructor; [apply IH | exact IHxs].
Qed.

Lemma to_string_throws (v : Value) (e : JSError) :
  to_string v = Throw e -> e = NotPrimitive.
Proof.
  revert e. induction v as [| | b | z | s | items IH | fs _ | name]
    using Value_nested_ind; intros e; cbn [to_string]; try discriminate.
  - unfold number_to_string. destruct (safe_integer z); discriminate.
  - revert e. induction IH as [| x xs Hx _ IHxs]; intros e; [discriminate |].
    match type of IHxs with
    | forall _, ?f xs = _ -> _ => set (join := f) in *
    end.
    destruct (nullish x).
    + cbn [bind]. destruct xs as [| y ys]; [discriminate |].
      destruct (join (y :: ys)) as [r | e' |] eqn:E; cbn [bind];
        try discriminate.
      intros [= <-]. by apply IHxs.
    + destruct (to_string x) as [a | e' |] eqn:Ex; cbn [bind]; try discriminate.
      * destruct xs as [| y ys]; [discriminate |].
        destruct (join (y :: ys)) as [r | e'' |] eqn:E; cbn [bind];
          try discriminate.
        intros [= <-]. by apply IHxs.
      * intros [= <-]. by apply Hx.
  - destruct (has_own "toString" fs); [intros [= <-]; reflexivity | discriminate].
Qed.

Lemma type_key_throws (v : Value) (e : JSError) :
  StatsCollector.type_key v = Throw e -> e = NotPrimitive.
Proof.
  unfold StatsCollector.type_key. destruct (to_string v) as [k | e' |] eqn:E;
    cbn [bind]; try discriminate.
  - destruct (existsb _ _); discriminate.
  - intros [= <-]. by eapply to_string_throws.
Qed.

End ValueFacts.

Section UncountableFacts.
Import JS Bridge.

Lemma type_error_not_fatal (event : Value) (e : JSError) :
  type_error event = Some e -> Polling.is_fatal e = false.
Proof.
  unfold type_error. destruct event; cbn [get]; try (intros [= <-]; reflexivity);
    destruct (StatsCollector.type_key _) as [k | e' |] eqn:E; try discriminate;
    intros [= <-]; apply type_key_throws in E; subst; reflexivity.
Qed.

Lemma processEvent_type_error cfg env event b e :
  type_error event = Some e ->
  exists b',
    processEvent cfg env event b = (Throw e, b')
    /\ errors_of b' = errors_of b
    /\ total_of b' = total_of b + (if nullish event then 0 else 2)
    /\ published_of b' = published_of b
    /\ eventProcessor b' = eventProcessor b
    /\ isRunning b' = isRunning b.
Proof.
  unfold type_error. intros H.
  destruct (get event "type") as [type | e0 |] eqn:Hget; [| | discriminate].
  - destruct (StatsCollector.type_key type) as [k | e0 |] eqn:Hkey;
      try discriminate. injection H as ->.
    destruct (get_Ret_inv _ _ _ Hget) as [Hnn _]. rewrite Hnn.
    unfold processEvent, finally, try_catch, attempt, recover, ebind, lift,
      stats, zoom, StatsCollector.updateEventStats, modify.
    repeat (rewrite ?Hget, ?Hkey; cbn -[StatsCollector.type_key get]).
    eexists. split; [reflexivity |].
    unfold errors_of, total_of, published_of. cbn. repeat split. lia.
  - injection H as ->.
    unfold processEvent, finally, try_catch, attempt, recover, ebind, lift.
    repeat (rewrite ?Hget; cbn -[get]).
    eexists. split; [reflexivity |].
    destruct event; try discriminate;
      unfold errors_of, total_of, published_of; cbn; repeat split; lia.
Qed.

End UncountableFacts.

(** ** Batches and the schedule *)

Section BatchOrderFacts.
Import JS Bridge.

Lemma processEvents_app cfg (pre rest : list (Value * Env.t)) b :
  processEvents cfg (pre ++ rest)%list b =
    match processEvents cfg pre b with
    | (Ret outs, b1) =>
        match processEvents cfg rest b1 with
        | (Ret outs', b2) => (Ret (outs ++ outs')%list, b2)
        | (Throw e, b2) => (Throw e, b2)
        | (Beyond, b2) => (Beyond, b2)
        end
    | (Throw e, b1) => (Throw e, b1)
    | (Beyond, b1) => (Beyond, b1)
    end.
Proof.
  revert b. induction pre as [| [event env] pre IH]; intros b.
  - cbn [app processEvents]. unfold eret at 1.
    destruct (processEvents cfg rest b) as [[outs | e |] b2]; reflexivity.
  - cbn [app processEvents]. unfold ebind, eret.
    destruct (processEvent cfg env event b) as [[o | e |] b1]; try reflexivity.
    rewrite IH.
    destruct (processEvents cfg pre b1) as [[outs | e |] b2]; try reflexivity.
    destruct (processEvents cfg rest b2) as [[outs' | e |] b3]; reflexivity.
Qed.

End BatchOrderFacts.

Section InvariantFacts.
Import JS Polling.

Lemma well_scheduled_closed cfg b retries attempts :
  0 <= retries ->
  well_scheduled cfg
    {| bridge := Bridge.handleBrowserClose b; pollingRetries := retries;
       timer := None; pollAttempts := attempts |}.
Proof.
  intros Hr. unfold well_scheduled. cbn [bridge pollingRetries timer].
  rewrite handleBrowserClose_stops. repeat split; try done.
Qed.

Lemma after_poll_error_scheduled cfg e p :
  Bridge.isRunning (bridge p) = true ->
  timer p = None ->
  0 <= pollingRetries p ->
  well_scheduled cfg (after_poll_error cfg e p).
Proof.
  intros Hrun Ht Hr. destruct p as [b retries tm attempts].
  cbn [bridge pollingRetries timer] in *. subst tm.
  unfold after_poll_error, handleBrowserClose, set_bridge, set_retries,
    setTimeout.
  cbn [bridge pollingRetries timer pollAttempts].
  destruct (is_fatal e); [apply well_scheduled_closed; lia |].
  destruct (Z.leb_spec (Config.maxRetries (Config.polling cfg)) (retries + 1))
    as [Hle | Hlt]; [apply well_scheduled_closed; lia |].
  unfold well_scheduled. cbn. rewrite Hrun. repeat split; try done; try lia.
  intros delay [= <-]. destruct (Z.eqb_spec (retries + 1) 0); [lia | reflexivity].
Qed.

Lemma pollEvents_scheduled cfg tick p p' :
  1 <= Config.maxRetries (Config.polling cfg) ->
  0 <= pollingRetries p ->
  pollEvents cfg tick p = (Ret tt, p') ->
  well_scheduled cfg p'.
Proof.
  intros Hmax Hr H.
  destruct (Bridge.isRunning (bridge p)) eqn:Hrun.
  - destruct (browserAlive tick) eqn:Halive.
    + rewrite pollEvents_alive in H by assumption. cbn zeta in H.
      destruct (outcome tick) as [events | message].
      * destruct (Bridge.processEvents cfg events (bridge p))
          as [[outs | e |] b'] eqn:Hb; [| | discriminate];
          pose proof (keeps_running_processEvents cfg events _ _ _ Hb) as Hkeep;
          rewrite Hrun in Hkeep; injection H as <-.
        -- unfold well_scheduled. cbn. rewrite Hkeep.
           repeat split; try done; try lia. by intros delay [= <-].
        -- apply after_poll_error_scheduled; [exact Hkeep | reflexivity | exact Hr].
      * injection H as <-.
        apply after_poll_error_scheduled; [exact Hrun | reflexivity | exact Hr].
    + rewrite pollEvents_dead in H by assumption. injection H as <-.
      unfold handleBrowserClose, set_bridge, timer_fired.
      cbn [bridge pollingRetries timer pollAttempts].
      apply well_scheduled_closed. exact Hr.
  - rewrite pollEvents_stopped in H by assumption. injection H as <-.
    unfold well_scheduled. cbn. rewrite Hrun. repeat split; try done.
Qed.

Lemma timers_scheduled cfg ticks : forall p p',
  1 <= Config.maxRetries (Config.polling cfg) ->
  well_scheduled cfg p ->
  timers cfg ticks p = (Ret tt, p') ->
  well_scheduled cfg p'.
Proof.
  induction ticks as [| tick rest IH]; intros p p' Hmax Hp H.
  - injection H as <-. exact Hp.
  - cbn [timers] in H. unfold ebind at 1, gets at 1 in H.
    destruct (timer p) as [d |] eqn:Ht.
    + unfold ebind at 1 in H.
      destruct (pollEvents cfg tick p) as [[[] | e |] p1] eqn:Hp1;
        [| discriminate | discriminate].
      apply (IH p1 p' Hmax); [| exact H].
      apply (pollEvents_scheduled cfg tick p p1 Hmax); [apply Hp | exact Hp1].
    + injection H as <-. exact Hp.
Qed.

End InvariantFacts.

(** X4.  With at least one retry configured, the polling loop keeps its
    schedule whatever it meets: after any sequence of polls that returns,
    a next poll is pending exactly if the bridge is still running, it is due
    after the polling interval when the failure counter is zero and after
    the retry delay otherwise, and a running bridge has a counter below the
    maximum. *)
Theorem polling_keeps_its_schedule
    (cfg : Config.t) (b : Bridge.t) (first : Polling.Tick)
    (later : list Polling.Tick) (final : Polling.t) :
  1 <= Config.maxRetries (Config.polling cfg) ->
  Polling.startEventPolling cfg b first later = (Ret tt, final) ->
  well_scheduled cfg final.
Proof.
  intros Hmax H. unfold Polling.startEventPolling in H.
  unfold ebind at 1 in H.
  destruct (Polling.pollEvents cfg first _) as [[[] | e |] p1] eqn:Hp1;
    [| discriminate | discriminate].
  apply (timers_scheduled cfg later p1 final Hmax); [| exact H].
  eapply (pollEvents_scheduled cfg first); [exact Hmax | | exact Hp1].
  cbn. lia.
Qed.

Lemma polling_keeps_its_schedule_witness :
  well_scheduled sample_config
    (snd (Polling.startEventPolling sample_config fresh_bridge
            (failure_tick "Navigation timeout")
            [ batch_tick [(delivered_chat_event, sample_env None)];
              failure_tick "Navigation timeout" ])).
Proof.
  apply (polling_keeps_its_schedule sample_config fresh_bridge
           (failure_tick "Navigation timeout")
           [ batch_tick [(delivered_chat_event, sample_env None)];
             failure_tick "Navigation timeout" ]).
  - vm_compute. discriminate.
  - vm_compute. reflexivity.
Defined.

(** X5.  An event record whose type cannot be read or counted (the record
    is null or undefined, or its type does not convert to a property key)
    is not contained by the pipeline: [processEvent] raises, nothing is
    published and no error is counted for it, the events behind it in the
    batch are not processed, and the poll is handled as a failed poll, with
    a retry after the retry delay or, at the maximum, the stop. *)
Theorem uncountable_event_aborts_batch
    (cfg : Config.t) (p : Polling.t) (pre rest : list (JS.Value * Env.t))
    (event : JS.Value) (env : Env.t) (outs : list Bridge.PipelineOutcome)
    (b1 : Bridge.t) (e : JSError) :
  Bridge.isRunning (Polling.bridge p) = true ->
  Bridge.processEvents cfg pre (Polling.bridge p) = (Ret outs, b1) ->
  type_error event = Some e ->
  exists b2,
    Bridge.processEvent cfg env event b1 = (Throw e, b2)
    /\ Bridge.processEvents cfg (pre ++ (event, env) :: rest)%list
         (Polling.bridge p) = (Throw e, b2)
    /\ errors_of b2 = errors_of b1
    /\ published_of b2 = published_of b1
    /\ Polling.pollEvents cfg (batch_tick (pre ++ (event, env) :: rest)%list) p =
         (Ret tt,
          if Config.maxRetries (Config.polling cfg)
               <=? Polling.pollingRetries p + 1
          then
            {| Polling.bridge := Bridge.handleBrowserClose b2;
               Polling.pollingRetries := Polling.pollingRetries p + 1;
               Polling.timer := None;
               Polling.pollAttempts := S (Polling.pollAttempts p) |}
          else
            {| Polling.bridge := b2;
               Polling.pollingRetries := Polling.pollingRetries p + 1;
               Polling.timer := Some (Config.retryDelay (Config.polling cfg));
               Polling.pollAttempts := S (Polling.pollAttempts p) |}).
Proof.
  intros Hrun Hpre Herr.
  destruct (processEvent_type_error cfg env event b1 e Herr)
    as (b2 & Hev & Herrors & _ & Hpub & _ & _).
  assert (Hbatch : Bridge.processEvents cfg (pre ++ (event, env) :: rest)%list
                     (Polling.bridge p) = (Throw e, b2)).
  { rewrite processEvents_app, Hpre. cbn [Bridge.processEvents].
    unfold ebind at 1. rewrite Hev. reflexivity. }
  exists b2. repeat split; try assumption.
  rewrite pollEvents_alive by (assumption || reflexivity).
  cbn [batch_tick Polling.outcome]. cbn zeta. rewrite Hbatch.
  unfold after_poll_error. rewrite (type_error_not_fatal event e Herr).
  destruct p as [b retries tm attempts]. cbn.
  destruct (Config.maxRetries (Config.polling cfg) <=? retries + 1); reflexivity.
Qed.

Lemma uncountable_event_aborts_batch_witness :
  let p := {| Polling.bridge := fresh_bridge; Polling.pollingRetries := 0;
              Polling.timer := None; Polling.pollAttempts := 0 |} in
  let pre := [(delivered_chat_event, sample_env None)] in
  let rest := [(ciphertext_event, sample_env None)] in
  let b1 := snd (Bridge.processEvents sample_config pre fresh_bridge) in
  exists b2,
    Bridge.processEvent sample_config (sample_env None) JS.JNull b1
      = (Throw (NullAccess "type"), b2)
    /\ Bridge.processEvents sample_config
         (pre ++ (JS.JNull, sample_env None) :: rest)%list fresh_bridge
       = (Throw (NullAccess "type"), b2)
    /\ errors_of b2 = errors_of b1
    /\ published_of b2 = published_of b1
    /\ Polling.pollEvents sample_config
         (batch_tick (pre ++ (JS.JNull, sample_env None) :: rest)%list) p =
         (Ret tt,
          if 3 <=? 0 + 1
          then
            {| Polling.bridge := Bridge.handleBrowserClose b2;
               Polling.pollingRetries := 0 + 1;
               Polling.timer := None;
               Polling.pollAttempts := 1 |}
          else
            {| Polling.bridge := b2;
               Polling.pollingRetries := 0 + 1;
               Polling.timer := Some 5000;
               Polling.pollAttempts := 1 |}).
Proof.
  intros p pre rest b1.
  apply (uncountable_event_aborts_batch sample_config p pre rest JS.JNull
           (sample_env None) [Bridge.Published "whatsapp.events"] b1
           (NullAccess "type")).
  - reflexivity.
  - vm_compute. reflexivity.
  - reflexivity.
Defined.

(** ** What the pipeline leaves alone *)

Section FootprintFacts.
Import JS Bridge.

Lemma keeps_eret {A X} (f : t -> X) (a : A) : keeps f (eret a).
Proof. intros b o b' [= <- <-]. reflexivity. Qed.

Lemma keeps_lift {A X} (f : t -> X) (x : Outcome A) : keeps f (lift x).
Proof. intros b o b' [= <- <-]. reflexivity. Qed.

Lemma keeps_ebind {A B X} (f : t -> X) (m : Eff t A) (k : A -> Eff t B) :
  keeps f m -> (forall a, keeps f (k a)) -> keeps f (ebind m k).
Proof.
  intros Hm Hk b o b' H. unfold ebind in H.
  destruct (m b) as [[a | e |] b1] eqn:E; pose proof (Hm _ _ _ E) as H1.
  - pose proof (Hk a _ _ _ H). congruence.
  - injection H as <- <-. exact H1.
  - injection H as <- <-. exact H1.
Qed.

(** The continuation only has to behave on the results the first part can
    give. *)
Lemma keeps_ebind_ensured {A B X} (Q : A -> Prop) (f : t -> X)
    (m : Eff t A) (k : A -> Eff t B) :
  ensures Q m -> keeps f m -> (forall a, Q a -> keeps f (k a)) ->
  keeps f (ebind m k).
Proof.
  intros HQ Hm Hk b o b' H. unfold ebind in H.
  destruct (m b) as [[a | e |] b1] eqn:E; pose proof (Hm _ _ _ E) as H1.
  - pose proof (Hk a (HQ _ _ _ E) _ _ _ H). congruence.
  - injection H as <- <-. exact H1.
  - injection H as <- <-. exact H1.
Qed.

Lemma keeps_try_catch {A X} (f : t -> X) (m : Eff t A) handler :
  keeps f m -> (forall e, keeps f (handler e)) -> keeps f (try_catch m handler).
Proof.
  intros Hm Hh b o b' H. unfold try_catch in H.
  destruct (m b) as [[a | e |] b1] eqn:E; pose proof (Hm _ _ _ E) as H1.
  - injection H as <- <-. exact H1.
  - pose proof (Hh e _ _ _ H). congruence.
  - injection H as <- <-. exact H1.
Qed.

Lemma keeps_nats {A X} (f : t -> X) (m : Eff NATSManager.t A) :
  (forall n b, f (set_nats n b) = f b) -> keeps f (nats m).
Proof.
  intros Hf b o b' H. unfold nats, zoom in H.
  destruct (m _) as [o1 n]. injection H as <- <-. apply Hf.
Qed.

Lemma keeps_processor {A X} (f : t -> X) (m : Eff EventProcessor.t A) :
  (forall p b, f (set_processor p b) = f b) -> keeps f (processor m).
Proof.
  intros Hf b o b' H. unfold processor, zoom in H.
  destruct (m _) as [o1 n]. injection H as <- <-. apply Hf.
Qed.

(** A method of the statistics collector keeps what the observation reads
    of the collector. *)
Lemma keeps_stats {A X} (g : StatsCollector.t -> X) (m : Eff StatsCollector.t A) :
  (forall c o c', m c = (o, c') -> g c' = g c) ->
  keeps (fun b => g (statsCollector b)) (stats m).
Proof.
  intros Hm b o b' H. unfold stats, zoom in H.
  destruct (m _) as [o1 c] eqn:E. injection H as <- <-.
  cbn. by eapply Hm.
Qed.

Lemma keeps_stats_other {A X} (f : t -> X) (m : Eff StatsCollector.t A) :
  (forall c b, f (set_stats c b) = f b) -> keeps f (stats m).
Proof.
  intros Hf b o b' H. unfold stats, zoom in H.
  destruct (m _) as [o1 n]. injection H as <- <-. apply Hf.
Qed.

Lemma updateEventStats_footprint eventType action c o c' :
  StatsCollector.updateEventStats eventType action c = (o, c') ->
  StatsCollector.messageStats c' = StatsCollector.messageStats c
  /\ StatsCollector.performanceStats c' = StatsCollector.performanceStats c
  /\ (action <> StatsCollector.filtered_out ->
      StatsCollector.filtered (StatsCollector.eventStats c')
      = StatsCollector.filtered (StatsCollector.eventStats c)).
Proof.
  unfold StatsCollector.updateEventStats, ebind, modify, lift.
  destruct (StatsCollector.type_key eventType) as [key | e |];
    intros [= <- <-]; cbn; repeat split.
  destruct action; cbn; congruence.
Qed.

Lemma updateMessageStats_footprint cfg subject c :
  let c' := StatsCollector.updateMessageStats cfg subject true c in
  StatsCollector.eventStats c' = StatsCollector.eventStats c
  /\ StatsCollector.performanceStats c' = StatsCollector.performanceStats c
  /\ StatsCollector.publishErrors (StatsCollector.messageStats c')
     = StatsCollector.publishErrors (StatsCollector.messageStats c).
Proof.
  unfold StatsCollector.updateMessageStats. cbn [negb].
  repeat match goal with
         | |- context [if ?c then _ else _] => destruct c
         end; cbn; repeat split.
Qed.

End FootprintFacts.

Section NeverFilteredFacts.
Import JS EventProcessor.

Lemma strict_equal_null (v : Value) : strict_equal v JNull = true -> v = JNull.
Proof. destruct v; cbn; congruence. Qed.

Lemma transform_null_inv tr (event : Value) :
  EventTransformers.transform tr event = Ret JNull ->
  EventTransformers.shouldIgnoreEvent tr event = Ret true.
Proof.
  unfold EventTransformers.transform. intros H.
  apply bind_Ret_inv in H as (ignored & Hign & H).
  destruct ignored; [exact Hign |].
  apply bind_Ret_inv in H as (st & Hst & H).
  destruct (truthy st) eqn:Tst; [injection H as ->; discriminate |].
  apply bind_Ret_inv in H as (ch & Hch & H).
  destruct (truthy ch) eqn:Tch; [injection H as ->; discriminate |].
  injection H as ->.
  apply shouldIgnoreEvent_Ret_inv in Hign. discriminate.
Qed.

Lemma processEvent_never_filters cfg env rawEvent :
  ensures (fun r => is_filter r = false) (processEvent cfg env rawEvent).
Proof.
  intros p r p'. unfold processEvent, try_catch.
  match goal with |- context [match ?m p with _ => _ end] =>
    destruct (m p) as [[r0 | e' |] p0] eqn:Hbody end.
  2: { unfold eret. intros [= <- <-]. reflexivity. }
  2: { discriminate. }
  intros [= <- <-]. revert Hbody.
  unfold ebind, gets, modify, eret, lift, invoked.
  assert (Hno : forall tr,
             EventTransformers.isIgnored tr (envelope env rawEvent) = Ret false ->
             EventTransformers.transform tr (envelope env rawEvent) = Ret JNull ->
             False).
  { intros tr Hi Ht. apply transform_null_inv in Ht.
    unfold EventTransformers.isIgnored in Hi. congruence. }
  destruct p as [[tr0 |] calls];
    cbn -[strict_equal EventTransformers.isIgnored EventTransformers.transform envelope].
  - destruct (EventTransformers.isIgnored tr0 _) as [[] | |] eqn:Hi;
      cbn -[strict_equal EventTransformers.isIgnored EventTransformers.transform envelope]; try discriminate.
    + destruct (get rawEvent "type"); cbn; intros [= <- <-]; reflexivity.
    + destruct (EventTransformers.transform tr0 _) as [v | |] eqn:Ht;
        cbn -[strict_equal EventTransformers.isIgnored EventTransformers.transform envelope]; try discriminate.
      destruct (strict_equal v JNull) eqn:Hnull.
      * apply strict_equal_null in Hnull. subst v. destruct (Hno _ Hi Ht).
      * destruct (get rawEvent "type"); cbn; intros [= <- <-]; reflexivity.
  - destruct (Env.loaded env) as [tr0 |]; cbn -[strict_equal EventTransformers.isIgnored EventTransformers.transform envelope].
    2: { intros [= <- <-]. reflexivity. }
    destruct (EventTransformers.isIgnored tr0 _) as [[] | |] eqn:Hi;
      cbn -[strict_equal EventTransformers.isIgnored EventTransformers.transform envelope]; try discriminate.
    + destruct (get rawEvent "type"); cbn; intros [= <- <-]; reflexivity.
    + destruct (EventTransformers.transform tr0 _) as [v | |] eqn:Ht;
        cbn -[strict_equal EventTransformers.isIgnored EventTransformers.transform envelope]; try discriminate.
      destruct (strict_equal v JNull) eqn:Hnull.
      * apply strict_equal_null in Hnull. subst v. destruct (Hno _ Hi Ht).
      * destruct (get rawEvent "type"); cbn; intros [= <- <-]; reflexivity.
Qed.

End NeverFilteredFacts.

Section ObservationFacts.
Import JS Bridge.

Lemma ensures_processor {A} (Q : A -> Prop) (m : Eff EventProcessor.t A) :
  ensures Q m -> ensures Q (processor m).
Proof.
  intros Hm b a b' H. unfold processor, zoom in H.
  destruct (m _) as [o p] eqn:E. injection H as -> <-. by eapply Hm.
Qed.

Context {X : Type}.
Variable g : StatsCollector.t -> X.

(** An observation of the statistics that counting an event, other than as
    filtered, and counting a sent message leave alone. *)
Hypothesis g_event : forall eventType action c o c',
  action <> StatsCollector.filtered_out ->
  StatsCollector.updateEventStats eventType action c = (o, c') -> g c' = g c.
Hypothesis g_message : forall cfg subject c,
  g (StatsCollector.updateMessageStats cfg subject true c) = g c.

Lemma keeps_observation_count eventType action :
  action <> StatsCollector.filtered_out ->
  keeps (fun b => g (statsCollector b))
    (stats (StatsCollector.updateEventStats eventType action)).
Proof. intros Ha. apply keeps_stats. intros c o c'. by apply g_event. Qed.

Lemma keeps_observation_dispatch cfg env r :
  is_filter r = false ->
  keeps (fun b => g (statsCollector b)) (dispatch cfg env r).
Proof.
  intros Hr. destruct r; try discriminate; cbn [dispatch];
    repeat first
      [ apply keeps_ebind; [| intros ?]
      | apply keeps_eret
      | apply keeps_lift
      | apply keeps_observation_count; discriminate
      | apply keeps_nats; reflexivity
      | match goal with |- keeps _ (if ?c then _ else _) => destruct c end
      | intros b o b' [= <- <-]; cbn; apply g_message ].
Qed.

Lemma keeps_observation_attempt cfg env event :
  keeps (fun b => g (statsCollector b))
    (try_catch (attempt cfg env event) (recover event)).
Proof.
  apply keeps_try_catch.
  - unfold attempt.
    apply keeps_ebind; [apply keeps_lift | intros type].
    apply keeps_ebind; [apply keeps_observation_count; discriminate | intros _].
    apply keeps_ebind; [apply keeps_lift | intros type'].
    apply keeps_ebind; [apply keeps_lift | intros _].
    apply (keeps_ebind_ensured (fun r => is_filter r = false)).
    + apply ensures_processor, processEvent_never_filters.
    + apply keeps_processor. reflexivity.
    + intros r Hr. by apply keeps_observation_dispatch.
  - intros e. unfold recover.
    apply keeps_ebind; [apply keeps_lift | intros type].
    apply keeps_ebind; [apply keeps_observation_count; discriminate | intros _].
    apply keeps_eret.
Qed.

(** ... and that recording a processing time leaves alone as well. *)
Hypothesis g_time : forall ms c,
  g (StatsCollector.recordProcessingTime ms c) = g c.

Lemma keeps_observation_processEvent cfg env event :
  keeps (fun b => g (statsCollector b)) (processEvent cfg env event).
Proof.
  intros b o b' H. unfold processEvent, finally in H.
  destruct (try_catch _ _ b) as [o1 b1] eqn:E. injection H as <- <-.
  cbn. rewrite g_time. exact (keeps_observation_attempt cfg env event _ _ _ E).
Qed.

Lemma keeps_observation_processEvents cfg events :
  keeps (fun b => g (statsCollector b)) (processEvents cfg events).
Proof.
  induction events as [| [event env] rest IH]; cbn [processEvents].
  - apply keeps_eret.
  - apply keeps_ebind; [apply keeps_observation_processEvent |].
    intros o. apply keeps_ebind; [exact IH |].
    intros os. apply keeps_eret.
Qed.

End ObservationFacts.

Section OutcomeFacts.
Import JS Bridge.

Lemma ensures_eret {S A} (Q : A -> Prop) (a : A) :
  Q a -> ensures Q (eret a : Eff S A).
Proof. intros Ha s a' s' [= <- <-]. exact Ha. Qed.

Lemma ensures_ebind {S A B} (Q : B -> Prop) (m : Eff S A) (k : A -> Eff S B) :
  (forall a, ensures Q (k a)) -> ensures Q (ebind m k).
Proof.
  intros Hk s b s' H. unfold ebind in H.
  destruct (m s) as [[a | e |] s1]; try discriminate. by eapply Hk.
Qed.

Lemma ensures_ebind_after {S A B} (P : A -> Prop) (Q : B -> Prop)
    (m : Eff S A) (k : A -> Eff S B) :
  ensures P m -> (forall a, P a -> ensures Q (k a)) -> ensures Q (ebind m k).
Proof.
  intros Hm Hk s b s' H. unfold ebind in H.
  destruct (m s) as [[a | e |] s1] eqn:E; try discriminate.
  eapply Hk; [| exact H]. by eapply Hm.
Qed.

Lemma ensures_try_catch {S A} (Q : A -> Prop) (m : Eff S A) handler :
  ensures Q m -> (forall e, ensures Q (handler e)) ->
  ensures Q (try_catch m handler).
Proof.
  intros Hm Hh s a s' H. unfold try_catch in H.
  destruct (m s) as [[a0 | e |] s1] eqn:E.
  - injection H as <- <-. by eapply Hm.
  - by eapply Hh.
  - discriminate.
Qed.

Lemma dispatch_never_Filtered cfg env r :
  is_filter r = false ->
  ensures (fun out => is_filtered out = false) (dispatch cfg env r).
Proof.
  intros Hr. destruct r; try discriminate; cbn [dispatch];
    repeat first
      [ apply ensures_eret; reflexivity
      | apply ensures_ebind; intros ? ].
Qed.

Lemma processEvent_never_Filtered cfg env event :
  ensures (fun out => is_filtered out = false) (processEvent cfg env event).
Proof.
  intros b out b' H. unfold processEvent, finally in H.
  destruct (try_catch _ _ b) as [o1 b1] eqn:E. injection H as -> <-.
  revert b out b1 E.
  change (ensures (fun out => is_filtered out = false)
            (try_catch (attempt cfg env event) (recover event))).
  apply ensures_try_catch.
  - unfold attempt. do 4 (apply ensures_ebind; intros ?).
    apply (ensures_ebind_after (fun r => is_filter r = false)).
    + apply ensures_processor, processEvent_never_filters.
    + intros r Hr. by apply dispatch_never_Filtered.
  - intros e. unfold recover. do 2 (apply ensures_ebind; intros ?).
    apply ensures_eret. reflexivity.
Qed.

Lemma processEvents_never_Filtered cfg events :
  ensures (fun outs => tally is_filtered outs = 0) (processEvents cfg events).
Proof.
  induction events as [| [event env] rest IH]; cbn [processEvents].
  - apply ensures_eret. reflexivity.
  - apply (ensures_ebind_after (fun out => is_filtered out = false));
      [apply processEvent_never_Filtered | intros out Hout].
    apply (ensures_ebind_after (fun outs => tally is_filtered outs = 0));
      [exact IH | intros outs Houts].
    apply ensures_eret. cbn [tally fold_right]. fold (tally is_filtered outs).
    rewrite Hout, Houts. reflexivity.
Qed.

End OutcomeFacts.

(** X6.  Every event leaves exactly one processing-time sample, whatever
    becomes of it: published, ignored, failed or raised out of the pipeline,
    the performance statistics after [processEvent] are those before it with
    the elapsed time of this event recorded once. *)
Theorem one_processing_time_per_event
    (cfg : Config.t) (env : Env.t) (event : JS.Value) (b : Bridge.t) :
  performance_of (snd (Bridge.processEvent cfg env event b)) =
    StatsCollector.performanceStats
      (StatsCollector.recordProcessingTime (Env.elapsed env)
         (Bridge.statsCollector b)).
Proof.
  unfold Bridge.processEvent, finally.
  destruct (try_catch _ _ b) as [o1 b1] eqn:E. cbn [snd].
  assert (H : StatsCollector.performanceStats (Bridge.statsCollector b1)
              = StatsCollector.performanceStats (Bridge.statsCollector b)).
  { refine (keeps_observation_attempt StatsCollector.performanceStats
              _ _ cfg env event _ _ _ E).
    - intros eventType action c o c' _ Hc.
      by destruct (updateEventStats_footprint _ _ _ _ _ Hc) as (_ & ? & _).
    - intros cfg' subject c.
      by destruct (updateMessageStats_footprint cfg' subject c) as (_ & ? & _). }
  unfold performance_of, Bridge.recordProcessingTime, Bridge.set_stats,
    StatsCollector.recordProcessingTime.
  cbn [Bridge.statsCollector StatsCollector.performanceStats]. rewrite H.
  reflexivity.
Qed.

(** X7.  The pipeline never counts a failed publish in the message
    statistics: over any batch, with any broker failures and any events,
    [messageStats.errors] stays what it was. *)
Theorem publish_errors_never_counted
    (cfg : Config.t) (events : list (JS.Value * Env.t)) (b : Bridge.t) :
  publish_errors_of (snd (Bridge.processEvents cfg events b))
    = publish_errors_of b.
Proof.
  destruct (Bridge.processEvents cfg events b) as [o b'] eqn:E. cbn [snd].
  refine (keeps_observation_processEvents
            (fun c => StatsCollector.publishErrors (StatsCollector.messageStats c))
            _ _ _ cfg events _ _ _ E).
  - intros eventType action c o' c' _ Hc.
    destruct (updateEventStats_footprint _ _ _ _ _ Hc) as (Hm & _ & _).
    by rewrite Hm.
  - intros cfg' subject c.
    by destruct (updateMessageStats_footprint cfg' subject c) as (_ & _ & ?).
  - reflexivity.
Qed.

(** X8.  No event ends as filtered: the transformer returns null only for
    an event it ignores, and the processor has dealt with those before it
    transforms.  Over any batch the filtered counter stays what it was and
    no outcome is [Filtered]. *)
Theorem filtered_counter_never_moves
    (cfg : Config.t) (events : list (JS.Value * Env.t)) (b : Bridge.t) :
  filtered_of (snd (Bridge.processEvents cfg events b)) = filtered_of b
  /\ forall outs,
       fst (Bridge.processEvents cfg events b) = Ret outs ->
       tally is_filtered outs = 0.
Proof.
  destruct (Bridge.processEvents cfg events b) as [o b'] eqn:E.
  cbn [fst snd]. split.
  - refine (keeps_observation_processEvents
              (fun c => StatsCollector.filtered (StatsCollector.eventStats c))
              _ _ _ cfg events _ _ _ E).
    + intros eventType action c o' c' Ha Hc.
      by destruct (updateEventStats_footprint _ _ _ _ _ Hc) as (_ & _ & ->).
    + intros cfg' subject c.
      destruct (updateMessageStats_footprint cfg' subject c) as (He & _ & _).
      by rewrite He.
    + reflexivity.
  - intros outs ->. exact (processEvents_never_Filtered cfg events _ _ _ E).
Qed.

Lemma filtered_counter_never_moves_witness :
  let events := [ (ciphertext_event, sample_env None);
                  (delivered_chat_event, sample_env (Some "TIMEOUT"));
                  (delivered_chat_event, sample_env None) ] in
  filtered_of (snd (Bridge.processEvents sample_config events fresh_bridge))
    = filtered_of fresh_bridge
  /\ (fst (Bridge.processEvents sample_config events fresh_bridge)
        = Ret [ Bridge.Ignored "whatsapp.ignored"; Bridge.Failed;
                Bridge.Published "whatsapp.events" ] ->
      tally is_filtered [ Bridge.Ignored "whatsapp.ignored"; Bridge.Failed;
                          Bridge.Published "whatsapp.events" ] = 0).
Proof.
  intros events.
  destruct (filtered_counter_never_moves sample_config events fresh_bridge)
    as [Hcount Houts].
  split; [exact Hcount | apply Houts].
Defined.

(** ** The publish log *)

Section PublishLogFacts.
Import JS Bridge.

Lemma appends_none {A} (m : Eff t A) :
  keeps published_of m -> appends_at_most 0 m.
Proof.
  intros Hm b o b' H. exists []. rewrite (Hm _ _ _ H), app_nil_r. by split.
Qed.

Lemma appends_ebind {A B} (n1 n2 : nat) (m : Eff t A) (k : A -> Eff t B) :
  appends_at_most n1 m -> (forall a, appends_at_most n2 (k a)) ->
  appends_at_most (n1 + n2) (ebind m k).
Proof.
  intros Hm Hk b o b' H. unfold ebind in H.
  destruct (m b) as [[a | e |] b1] eqn:E;
    destruct (Hm _ _ _ E) as (calls1 & H1 & L1).
  - destruct (Hk a _ _ _ H) as (calls2 & H2 & L2).
    exists (calls1 ++ calls2)%list. rewrite H2, H1, app_assoc, length_app.
    split; [reflexivity | lia].
  - injection H as <- <-. exists calls1. split; [exact H1 | lia].
  - injection H as <- <-. exists calls1. split; [exact H1 | lia].
Qed.

Lemma appends_try_catch {A} (n1 n2 : nat) (m : Eff t A) handler :
  appends_at_most n1 m -> (forall e, appends_at_most n2 (handler e)) ->
  appends_at_most (n1 + n2) (try_catch m handler).
Proof.
  intros Hm Hh b o b' H. unfold try_catch in H.
  destruct (m b) as [[a | e |] b1] eqn:E;
    destruct (Hm _ _ _ E) as (calls1 & H1 & L1).
  - injection H as <- <-. exists calls1. split; [exact H1 | lia].
  - destruct (Hh e _ _ _ H) as (calls2 & H2 & L2).
    exists (calls1 ++ calls2)%list. rewrite H2, H1, app_assoc, length_app.
    split; [reflexivity | lia].
  - injection H as <- <-. exists calls1. split; [exact H1 | lia].
Qed.

Lemma publishEvent_once cfg broker eventData eventType :
  appends_at_most 1 (nats (NATSManager.publishEvent cfg broker eventData eventType)).
Proof.
  intros b o b'. unfold nats, zoom, NATSManager.publishEvent, ebind, gets.
  destruct (NATSManager.connection (natsManager b)) eqn:Hc; cbn [negb].
  - destruct broker as [message |]; cbn.
    + intros [= <- <-]. eexists [_]. split; [reflexivity | cbn; lia].
    + destruct (Config.debug_enabled cfg); cbn.
      * destruct (to_string eventType); cbn; intros [= <- <-];
          eexists [_]; (split; [reflexivity | cbn; lia]).
      * intros [= <- <-]. eexists [_]. split; [reflexivity | cbn; lia].
  - cbn. intros [= <- <-]. exists []. rewrite app_nil_r. split; [reflexivity | cbn; lia].
Qed.

Lemma publishIgnoredEvent_once cfg broker eventData :
  appends_at_most 1 (nats (NATSManager.publishIgnoredEvent cfg broker eventData)).
Proof.
  intros b o b'. unfold nats, zoom, NATSManager.publishIgnoredEvent, ebind, gets.
  destruct (NATSManager.connection (natsManager b)) eqn:Hc; cbn [negb].
  - destruct broker as [message |]; cbn.
    + intros [= <- <-]. eexists [_]. split; [reflexivity | cbn; lia].
    + destruct (Config.debug_enabled cfg); cbn.
      * destruct (bind (get eventData "data") _);
          cbn; intros [= <- <-];
          eexists [_]; (split; [reflexivity | cbn; lia]).
      * intros [= <- <-]. eexists [_]. split; [reflexivity | cbn; lia].
  - cbn. intros [= <- <-]. exists []. rewrite app_nil_r. split; [reflexivity | cbn; lia].
Qed.

Lemma appends_more {A} (n n' : nat) (m : Eff t A) :
  (n <= n')%nat -> appends_at_most n m -> appends_at_most n' m.
Proof.
  intros Hn Hm b o b' H. destruct (Hm _ _ _ H) as (calls & Hc & L).
  exists calls. split; [exact Hc | lia].
Qed.

Ltac quiet :=
  repeat first
    [ apply keeps_ebind; [| intros ?]
    | apply keeps_eret
    | apply keeps_lift
    | apply keeps_stats_other; reflexivity
    | apply keeps_processor; reflexivity
    | match goal with |- keeps _ (if ?c then _ else _) => destruct c end
    | intros ? ? ? [= <- <-]; reflexivity ].

Lemma dispatch_once cfg env r : appends_at_most 1 (dispatch cfg env r).
Proof.
  destruct r; cbn [dispatch].
  - apply (appends_more 0); [lia |]. apply appends_none. quiet.
  - apply (appends_ebind 1 0); [apply publishIgnoredEvent_once | intros subject].
    apply appends_none. quiet.
  - apply (appends_more 0); [lia |]. apply appends_none. quiet.
  - apply (appends_ebind 1 0); [apply publishEvent_once | intros subject].
    apply appends_none. quiet.
  - apply (appends_more 0); [lia |]. apply appends_none. quiet.
Qed.

Lemma processEvent_once cfg env event :
  appends_at_most 1 (processEvent cfg env event).
Proof.
  intros b o b' H. unfold processEvent, finally in H.
  destruct (try_catch _ _ b) as [o1 b1] eqn:E. injection H as <- <-.
  change (published_of (recordProcessingTime (Env.elapsed env) b1))
    with (published_of b1).
  revert b o1 b1 E.
  change (appends_at_most 1 (try_catch (attempt cfg env event) (recover event))).
  apply (appends_try_catch 1 0).
  - unfold attempt.
    apply (appends_ebind 0 1); [apply appends_none; quiet | intros type].
    apply (appends_ebind 0 1); [apply appends_none; quiet | intros _].
    apply (appends_ebind 0 1); [apply appends_none; quiet | intros type'].
    apply (appends_ebind 0 1); [apply appends_none; quiet | intros _].
    apply (appends_ebind 0 1); [apply appends_none; quiet | intros r].
    apply dispatch_once.
  - intros e. apply appends_none. unfold recover. quiet.
Qed.

Lemma processEvents_once cfg events :
  appends_at_most (length events) (processEvents cfg events).
Proof.
  induction events as [| [event env] rest IH]; cbn [processEvents length].
  - apply appends_none. quiet.
  - apply (appends_ebind 1 (length rest)); [apply processEvent_once | intros out].
    replace (length rest) with (length rest + 0)%nat by lia.
    apply appends_ebind; [exact IH | intros outs].
    apply appends_none. quiet.
Qed.

End PublishLogFacts.

(** X9.  The pipeline makes at most one broker call per event and never
    touches the calls made before: over any batch the publish log grows at
    its end, by no more entries than the batch has events. *)
Theorem at_most_one_publish_per_event
    (cfg : Config.t) (events : list (JS.Value * Env.t)) (b : Bridge.t) :
  exists calls,
    published_of (snd (Bridge.processEvents cfg events b))
      = (published_of b ++ calls)%list
    /\ (length calls <= length events)%nat.
Proof.
  destruct (Bridge.processEvents cfg events b) as [o b'] eqn:E. cbn [snd].
  exact (processEvents_once cfg events _ _ _ E).
Qed.

(** ** The state of the processor *)

Section ProcessorStateFacts.
Import JS EventProcessor.

Ltac split_innermost :=
  repeat match goal with
    | |- context [match ?x with _ => _ end] =>
        lazymatch x with
        | context [match _ with _ => _ end] => fail
        | _ => destruct x
        end
    end.

Lemma processEvent_transformers cfg env rawEvent p :
  eventTransformers (snd (processEvent cfg env rawEvent p))
    = transformers_for env p.
Proof.
  unfold processEvent, try_catch.
  match goal with |- context [match ?m p with _ => _ end] =>
    assert (H : eventTransformers (snd (m p)) = transformers_for env p);
    [| destruct (m p) as [[r | e |] p0]; exact H]
  end.
  unfold transformers_for, ebind, gets, modify, eret, lift, invoked.
  destruct p as [[tr0 |] calls];
    cbn -[strict_equal EventTransformers.isIgnored EventTransformers.transform envelope].
  - split_innermost; reflexivity.
  - destruct (Env.loaded env) as [tr0 |];
      cbn -[strict_equal EventTransformers.isIgnored EventTransformers.transform envelope].
    + split_innermost; reflexivity.
    + reflexivity.
Qed.

Lemma processEvent_unavailable cfg env rawEvent p :
  transformers_for env p = None ->
  processEvent cfg env rawEvent p = (Ret (skip "transformers_unavailable"), p).
Proof.
  unfold transformers_for. destruct p as [[tr0 |] calls]; cbn; [discriminate |].
  intros Hl. unfold processEvent, try_catch, ebind, gets, modify, eret. cbn.
  rewrite Hl. reflexivity.
Qed.

End ProcessorStateFacts.

(** X10.  The processor loads the transformers at most once: after an
    event it holds the instance it already had, or else what the loader
    returned for this event.  While the loader fails the event is skipped,
    no transformer method is invoked and the next event tries again; once
    an instance is held it is never replaced. *)
Theorem transformers_are_loaded_once
    (cfg : Config.t) (env : Env.t) (rawEvent : JS.Value) (p : EventProcessor.t) :
  EventProcessor.eventTransformers
    (snd (EventProcessor.processEvent cfg env rawEvent p))
    = transformers_for env p
  /\ (transformers_for env p = None ->
      EventProcessor.processEvent cfg env rawEvent p
        = (Ret (EventProcessor.skip "transformers_unavailable"), p)).
Proof.
  split; [apply processEvent_transformers | apply processEvent_unavailable].
Qed.

Lemma transformers_are_loaded_once_witness :
  let p := {| EventProcessor.eventTransformers := None;
              EventProcessor.calls := [] |} in
  let env := {| Env.now_id := JS.JNum 1767225600123;
                Env.now_iso := "2026-01-01T00:00:00.123Z";
                Env.loaded := None; Env.broker := None; Env.elapsed := 2 |} in
  EventProcessor.eventTransformers
    (snd (EventProcessor.processEvent sample_config env delivered_chat_event p))
    = transformers_for env p
  /\ EventProcessor.processEvent sample_config env delivered_chat_event p
       = (Ret (EventProcessor.skip "transformers_unavailable"), p).
Proof.
  intros p env.
  destruct (transformers_are_loaded_once sample_config env
              delivered_chat_event p) as [Hheld Hskip].
  split; [exact Hheld | apply Hskip; reflexivity].
Defined.

(** X11.  An exception of the transformer is contained like a publish
    failure: for an event with a countable type that is not ignored and on
    which [transform] raises, the pipeline ends the event as failed, counts
    it twice and as one error, publishes nothing and leaves the bridge
    running. *)
Theorem transformer_failure_is_local
    (cfg : Config.t) (env : Env.t) (event : JS.Value) (b : Bridge.t)
    (tr : EventTransformers.t) (e : JSError) :
  countable event = true ->
  transformers_for env (Bridge.eventProcessor b) = Some tr ->
  EventTransformers.isIgnored tr (EventProcessor.envelope env event) = Ret false ->
  EventTransformers.transform tr (EventProcessor.envelope env event) = Throw e ->
  exists b',
    Bridge.processEvent cfg env event b = (Ret Bridge.Failed, b')
    /\ published_of b' = published_of b
    /\ errors_of b' = errors_of b + 1
    /\ total_of b' = total_of b + 2
    /\ Bridge.isRunning b' = Bridge.isRunning b
    /\ EventProcessor.calls (Bridge.eventProcessor b') =
         (EventProcessor.calls (Bridge.eventProcessor b)
          ++ [EventProcessor.call_isIgnored; EventProcessor.call_transform])%list.
Proof.
  intros Hc Htr Hign Hthrow.
  pose proof (countable_or_unknown event Hc) as [ukey Hunknown].
  destruct (countable_inv event Hc) as [Hev [key Hk]].
  pose proof (processEvent_transform_throws cfg env event _ tr e Htr Hign Hthrow)
    as HEP.
  set (p' := {| EventProcessor.eventTransformers := Some tr;
                EventProcessor.calls := _ |}) in HEP.
  destruct (stats_updateEventStats
              (JS.or (JS.opt event "type") (JS.JStr "unknown"))
              StatsCollector.error
              (Bridge.set_processor p' (received key b)) ukey Hunknown)
    as (b3 & Hst & Hstep).
  exists (Bridge.recordProcessingTime (Env.elapsed env) b3). split.
  - unfold Bridge.processEvent, finally, try_catch.
    rewrite (attempt_unfold cfg env event b key Hev Hk), HEP.
    cbn [Bridge.dispatch]. unfold ebind at 1, lift at 1.
    rewrite (type_key_to_string _ _ Hunknown).
    unfold ebind at 1. rewrite Hst. reflexivity.
  - destruct Hstep as (Ht & He & _ & _ & Hr & Hn & Hp).
    unfold published_of, errors_of, total_of in *.
    cbn [Bridge.recordProcessingTime Bridge.set_stats Bridge.natsManager
         Bridge.statsCollector Bridge.isRunning Bridge.eventProcessor
         StatsCollector.recordProcessingTime StatsCollector.eventStats].
    rewrite Hn, Hp, Hr, Ht, He. cbn. repeat split; lia.
Qed.

Lemma transformer_failure_is_local_witness :
  let event :=
    JS.JObj [ ("type", JS.JStr "message_create");
              ("data", JS.JObj [ ("type", JS.JStr "chat");
                                 ("from", JS.JObj [("user", JS.JNum 5355)]) ]) ] in
  exists b',
    Bridge.processEvent sample_config (sample_env None) event fresh_bridge
      = (Ret Bridge.Failed, b')
    /\ published_of b' = published_of fresh_bridge
    /\ errors_of b' = errors_of fresh_bridge + 1
    /\ total_of b' = total_of fresh_bridge + 2
    /\ Bridge.isRunning b' = Bridge.isRunning fresh_bridge
    /\ EventProcessor.calls (Bridge.eventProcessor b') =
         (EventProcessor.calls (Bridge.eventProcessor fresh_bridge)
          ++ [EventProcessor.call_isIgnored; EventProcessor.call_transform])%list.
Proof.
  intros event.
  apply (transformer_failure_is_local sample_config (sample_env None) event
           fresh_bridge EventTransformers.defaults (NotAFunction "includes")).
  - reflexivity.
  - reflexivity.
  - reflexivity.
  - vm_compute. reflexivity.
Defined.

(** X12.  While the transformers cannot be loaded, an event with a
    countable type is skipped: it is counted once, as received, nothing is
    published, no transformer method is invoked, no error is counted, and
    the processor is left without an instance, so that the next event tries
    the loader again. *)
Theorem unavailable_transformers_skip_the_event
    (cfg : Config.t) (env : Env.t) (event : JS.Value) (b : Bridge.t) :
  countable event = true ->
  transformers_for env (Bridge.eventProcessor b) = None ->
  exists b',
    Bridge.processEvent cfg env event b
      = (Ret (Bridge.Skipped "transformers_unavailable"), b')
    /\ total_of b' = total_of b + 1
    /\ errors_of b' = errors_of b
    /\ published_of b' = published_of b
    /\ Bridge.eventProcessor b' = Bridge.eventProcessor b
    /\ Bridge.isRunning b' = Bridge.isRunning b.
Proof.
  intros Hc Hnone.
  destruct (countable_inv event Hc) as [Hev [key Hk]].
  eexists. split.
  - unfold Bridge.processEvent, finally, try_catch.
    rewrite (attempt_unfold cfg env event b key Hev Hk).
    rewrite (processEvent_unavailable cfg env event _ Hnone).
    cbn [Bridge.dispatch]. reflexivity.
  - unfold total_of, errors_of, published_of. cbn. repeat split.
Qed.

Lemma unavailable_transformers_skip_the_event_witness :
  let env := {| Env.now_id := JS.JNum 1767225600123;
                Env.now_iso := "2026-01-01T00:00:00.123Z";
                Env.loaded := None; Env.broker := None; Env.elapsed := 2 |} in
  exists b',
    Bridge.processEvent sample_config env delivered_chat_event fresh_bridge
      = (Ret (Bridge.Skipped "transformers_unavailable"), b')
    /\ total_of b' = total_of fresh_bridge + 1
    /\ errors_of b' = errors_of fresh_bridge
    /\ published_of b' = published_of fresh_bridge
    /\ Bridge.eventProcessor b' = Bridge.eventProcessor fresh_bridge
    /\ Bridge.isRunning b' = Bridge.isRunning fresh_bridge.
Proof.
  intros env.
  apply (unavailable_transformers_skip_the_event sample_config env
           delivered_chat_event fresh_bridge); reflexivity.
Defined.

(** ** Events without a payload *)

Section VerbatimFacts.
Import JS EventProcessor.

Lemma strict_equal_refl (v : Value) : strict_equal v v = true.
Proof.
  induction v as [| | b | z | s | items IH | fs IH | name]
    using Value_nested_ind; cbn [strict_equal].
  - reflexivity.
  - reflexivity.
  - by destruct b.
  - apply Z.eqb_refl.
  - apply String.eqb_refl.
  - induction IH as [| x xs Hx _ IHxs]; [reflexivity |].
    rewrite Hx. exact IHxs.
  - induction IH as [| [k x] xs Hx _ IHxs]; [reflexivity |].
    cbn [snd] in Hx. rewrite String.eqb_refl, Hx. exact IHxs.
  - apply String.eqb_refl.
Qed.

Lemma opt_falsy (v : Value) (k : string) : truthy v = false -> opt v k = JUndefined.
Proof. destruct v; cbn; congruence. Qed.

Lemma list_includes_undefined (l : list string) : list_includes l JUndefined = false.
Proof. unfold list_includes. induction l; cbn; auto. Qed.

(** Without a payload there is nothing for the mappers to work on. *)
Lemma transform_without_payload tr (event : Value) :
  EventTransformers.shouldIgnoreEvent tr event = Ret false ->
  truthy (payload_of event) = false ->
  EventTransformers.transform tr event = Ret event.
Proof.
  intros Hign Hdata.
  pose proof (shouldIgnoreEvent_Ret_inv tr event false Hign) as Hev.
  unfold EventTransformers.transform. rewrite Hign. cbn [bind].
  rewrite transformStatusEvent_not_status.
  2: { unfold EventTransformers._isStatusEvent. rewrite (get_opt _ _ Hev).
       cbn [bind]. fold (payload_of event).
       rewrite !(opt_falsy (payload_of event)) by exact Hdata. reflexivity. }
  cbn [bind truthy].
  rewrite transformChatMessage_declines; [reflexivity | exact Hev |].
  rewrite (opt_falsy (payload_of event)) by exact Hdata.
  apply list_includes_undefined.
Qed.

Lemma validateEvent_returns (event : Value) : returns (validateEvent event).
Proof.
  unfold validateEvent, returns.
  destruct (truthy event) eqn:Hev; cbn [negb]; [| eauto].
  rewrite !(get_opt event) by (by apply truthy_not_nullish). cbn [bind].
  destruct (truthy (opt event "type")); cbn [negb]; [| eauto].
  destruct (truthy (opt event "data")); cbn [negb]; eauto.
Qed.

Lemma validateEvent_valid (event : Value) :
  validateEvent event = Ret valid <->
  truthy event = true /\ truthy (opt event "type") = true
  /\ truthy (opt event "data") = true.
Proof.
  unfold validateEvent.
  destruct (truthy event) eqn:Hev; cbn [negb].
  2: { split; [discriminate | intros (? & _); discriminate]. }
  rewrite !(get_opt event) by (by apply truthy_not_nullish). cbn [bind].
  destruct (truthy (opt event "type")); cbn [negb].
  2: { split; [discriminate | intros (_ & ? & _); discriminate]. }
  destruct (truthy (opt event "data")); cbn [negb].
  - by split.
  - split; [discriminate | intros (_ & _ & ?); discriminate].
Qed.

End VerbatimFacts.

(** X13.  [validateEvent] rejects a record without a data field, but the
    processor does not consult it: such a record, when no rule ignores it,
    is published all the same, as the envelope itself and marked as not
    transformed, after both transformer methods have been invoked. *)
Theorem event_without_data_is_published_verbatim
    (cfg : Config.t) (env : Env.t) (rawEvent : JS.Value)
    (p : EventProcessor.t) (tr : EventTransformers.t) :
  transformers_for env p = Some tr ->
  JS.nullish rawEvent = false ->
  JS.truthy (JS.opt rawEvent "data") = false ->
  EventTransformers.isIgnored tr (EventProcessor.envelope env rawEvent)
    = Ret false ->
  (exists reason,
      EventProcessor.validateEvent rawEvent
        = Ret (EventProcessor.invalid reason))
  /\ EventProcessor.processEvent cfg env rawEvent p =
       (Ret (EventProcessor.publish (EventProcessor.envelope env rawEvent)
               (EventProcessor.envelope env rawEvent)
               (JS.opt rawEvent "type") false),
        {| EventProcessor.eventTransformers := Some tr;
           EventProcessor.calls :=
             (EventProcessor.calls p
              ++ [EventProcessor.call_isIgnored;
                  EventProcessor.call_transform])%list |}).
Proof.
  intros Htr Hraw Hdata Hign. split.
  - destruct (validateEvent_returns rawEvent) as [[| reason] Hv]; [| eauto].
    apply validateEvent_valid in Hv as (_ & _ & Hd). congruence.
  - assert (Ht : EventTransformers.transform tr
                   (EventProcessor.envelope env rawEvent)
                 = Ret (EventProcessor.envelope env rawEvent)).
    { apply transform_without_payload; [exact Hign | exact Hdata]. }
    unfold transformers_for in Htr.
    unfold EventProcessor.processEvent, try_catch, ebind, gets, modify, eret,
      lift, EventProcessor.invoked.
    destruct p as [current calls].
    cbn [EventProcessor.eventTransformers EventProcessor.calls] in *.
    destruct current as [tr0 |];
      cbn [EventProcessor.eventTransformers EventProcessor.calls
           EventProcessor.set_transformers].
    + injection Htr as ->. rewrite Hign, Ht, (get_opt _ _ Hraw).
      rewrite strict_equal_refl. cbn. rewrite <- app_assoc. reflexivity.
    + rewrite Htr, Hign, Ht, (get_opt _ _ Hraw).
      rewrite strict_equal_refl. cbn. rewrite <- app_assoc. reflexivity.
Qed.

Lemma event_without_data_is_published_verbatim_witness :
  let rawEvent := JS.JObj [("type", JS.JStr "presence_change")] in
  let p := {| EventProcessor.eventTransformers := None;
              EventProcessor.calls := [] |} in
  (exists reason,
      EventProcessor.validateEvent rawEvent
        = Ret (EventProcessor.invalid reason))
  /\ EventProcessor.processEvent sample_config (sample_env None) rawEvent p =
       (Ret (EventProcessor.publish
               (EventProcessor.envelope (sample_env None) rawEvent)
               (EventProcessor.envelope (sample_env None) rawEvent)
               (JS.opt rawEvent "type") false),
        {| EventProcessor.eventTransformers := Some EventTransformers.defaults;
           EventProcessor.calls :=
             (EventProcessor.calls p
              ++ [EventProcessor.call_isIgnored;
                  EventProcessor.call_transform])%list |}).
Proof.
  intros rawEvent p.
  apply (event_without_data_is_published_verbatim sample_config
           (sample_env None) rawEvent p EventTransformers.defaults);
    reflexivity.
Defined.

(** ** Identifiers and special message types *)

Section SuffixFacts.
Import JS.

Lemma append_length (s t : string) :
  String.length (s +:+ t) = (String.length s + String.length t)%nat.
Proof.
  induction s as [| c s IH]; [reflexivity |].
  change (String c s +:+ t) with (String c (s +:+ t)).
  cbn [String.length]. by rewrite IH.
Qed.

Lemma strip_jid_suffix_app (x suffix : string) :
  suffix = "@c.us" \/ suffix = "@lid" ->
  strip_jid_suffix (x +:+ suffix) = x.
Proof.
  intros Hs. induction x as [| c x IH].
  - destruct Hs as [-> | ->]; reflexivity.
  - change (String c x +:+ suffix) with (String c (x +:+ suffix)).
    cbn [strip_jid_suffix].
    assert (Hno : forall t, t = "c.us" \/ t = "lid" -> x +:+ suffix <> t).
    { intros t Ht Heq. pose proof (f_equal String.length Heq) as Hlen.
      rewrite append_length in Hlen.
      destruct x as [| c' x'].
      - destruct Hs as [-> | ->], Ht as [-> | ->]; discriminate.
      - destruct Hs as [-> | ->], Ht as [-> | ->]; cbn in Hlen; lia. }
    destruct (String.eqb_spec (String c (x +:+ suffix)) "@c.us") as [E1 | _].
    { injection E1 as _ E1. destruct (Hno "c.us"); auto. }
    destruct (String.eqb_spec (String c (x +:+ suffix)) "@lid") as [E2 | _].
    { injection E2 as _ E2. destruct (Hno "lid"); auto. }
    cbn [orb]. by rewrite IH.
Qed.

Lemma strip_jid_suffix_split (s : string) :
  exists removed,
    s = strip_jid_suffix s +:+ removed
    /\ (removed = "" \/ removed = "@c.us" \/ removed = "@lid").
Proof.
  induction s as [| c s (removed & IH & Hr)].
  - exists "". by split; [| left].
  - cbn [strip_jid_suffix].
    destruct (String.eqb_spec (String c s) "@c.us") as [-> | _].
    { exists "@c.us". split; [reflexivity | right; by left]. }
    destruct (String.eqb_spec (String c s) "@lid") as [-> | _].
    { exists "@lid". split; [reflexivity | right; by right]. }
    cbn [orb]. exists removed. split; [| exact Hr].
    change (String c (strip_jid_suffix s) +:+ removed)
      with (String c (strip_jid_suffix s +:+ removed)).
    by rewrite <- IH.
Qed.

End SuffixFacts.

(** X14.  [_normalizeId] removes one trailing [@c.us] or [@lid] and
    nothing else: an identifier that ends in either suffix loses exactly
    that suffix, and in general the input is the output followed by
    nothing, [@c.us] or [@lid].  The empty identifier becomes null. *)
Theorem normalizeId_removes_one_suffix (x : string) :
  EventTransformers._normalizeId (JS.JStr (x +:+ "@c.us")) = Ret (JS.JStr x)
  /\ EventTransformers._normalizeId (JS.JStr (x +:+ "@lid")) = Ret (JS.JStr x)
  /\ exists removed,
       EventTransformers._normalizeId (JS.JStr x)
         = Ret (if String.eqb x "" then JS.JNull
                else JS.JStr (JS.strip_jid_suffix x))
       /\ x = JS.strip_jid_suffix x +:+ removed
       /\ In removed [""; "@c.us"; "@lid"].
Proof.
  assert (Hne : forall suffix, suffix = "@c.us" \/ suffix = "@lid" ->
                  String.eqb (x +:+ suffix) "" = false).
  { intros suffix Hs. apply String.eqb_neq. intros Heq.
    apply (f_equal String.length) in Heq. rewrite append_length in Heq.
    destruct Hs as [-> | ->]; cbn in Heq; lia. }
  unfold EventTransformers._normalizeId. cbn [JS.truthy JS.call_replace_jid].
  rewrite !Hne by auto. cbn [negb].
  rewrite !strip_jid_suffix_app by auto.
  split; [reflexivity | split; [reflexivity |]].
  destruct (strip_jid_suffix_split x) as (removed & Hx & Hr).
  exists removed. split; [| split; [exact Hx |]].
  - destruct (String.eqb x ""); reflexivity.
  - destruct Hr as [-> | [-> | ->]]; cbn; auto.
Qed.

Section MapperOverrideFacts.
Import JS EventTransformers.
Variable tr : EventTransformers.t.

Lemma lookup_set_field_eq (k : string) (v : Value) fs :
  lookup_field k (set_field k v fs) = v.
Proof.
  induction fs as [| [k0 v0] rest IH]; cbn.
  - by rewrite String.eqb_refl.
  - destruct (String.eqb_spec k k0) as [-> | Hne]; cbn.
    + by rewrite String.eqb_refl.
    + destruct (String.eqb_spec k k0); [contradiction | exact IH].
Qed.

Lemma handleSpecial_overrides_type originalData td td' :
  _handleSpecialMessageTypes tr originalData td = Ret td' ->
  type_overridden originalData = true ->
  lookup_field "type" td' =
    if is_str (opt originalData "type") "revoked"
    then eventType tr "MESSAGE_REVOKED"
    else eventType tr "DISAPPEARING_MODE_CHANGED".
Proof.
  unfold _handleSpecialMessageTypes, type_overridden. intros H Hov.
  bind_inv H. apply get_Ret_inv in E as [Hod ->].
  destruct (is_str (opt originalData "type") "notification_template") eqn:T1.
  - assert (Hrev : is_str (opt originalData "type") "revoked" = false).
    { apply is_str_true in T1. rewrite T1. reflexivity. }
    rewrite Hrev in Hov |- *. cbn [orb andb] in Hov.
    unfold _handleNotificationTemplate in H.
    bind_inv H. apply get_Ret_inv in E as [_ ->]. rewrite Hov in H.
    bind_inv H. injection H as <-.
    rewrite !lookup_set_field_ne by discriminate.
    apply lookup_set_field_eq.
  - cbn [andb] in Hov. rewrite orb_false_r in Hov. rewrite Hov in H |- *.
    unfold _handleRevokedMessage in H.
    repeat bind_inv H. injection H as <-.
    rewrite !lookup_set_field_ne by discriminate.
    apply lookup_set_field_eq.
Qed.

End MapperOverrideFacts.

(** X15.  For a revoked message and for a disappearing-mode notification
    the chat mapper replaces the ack state: whatever the ack level, the
    normalized event has the revoked type, respectively the
    disappearing-mode type, in [data.type]. *)
Theorem special_type_replaces_ack_state
    (tr : EventTransformers.t) (event v : JS.Value) :
  EventTransformers.transformChatMessage tr event = Ret v ->
  v <> JS.JNull ->
  type_overridden (payload_of event) = true ->
  JS.opt (JS.opt v "data") "type" =
    if JS.is_str (JS.opt (payload_of event) "type") "revoked"
    then EventTransformers.eventType tr "MESSAGE_REVOKED"
    else EventTransformers.eventType tr "DISAPPEARING_MODE_CHANGED".
Proof.
  intros H Hv Hov. unfold EventTransformers.transformChatMessage in H.
  bind_inv H. apply get_Ret_inv in E as [Hev ->].
  fold (payload_of event) in H.
  destruct (JS.truthy (payload_of event)
            && JS.list_includes (EventTransformers.messageTypes tr)
                 (JS.opt (payload_of event) "type"))
    eqn:Hacc; cbn [negb] in H; [| injection H as <-; contradiction].
  do 11 bind_inv H.
  apply bind_Ret_inv in H as (td1 & HS & H).
  apply handleSpecial_overrides_type in HS; [| exact Hov].
  apply bind_Ret_inv in H as (td2 & HB & H).
  apply add_body_keeps_type in HB.
  apply buildBase_data in H. rewrite H. cbn [JS.opt].
  rewrite HB, HS. reflexivity.
Qed.

Lemma special_type_replaces_ack_state_witness :
  let event :=
    JS.JObj
      [ ("id", JS.JNum 1);
        ("timestamp", JS.JStr "2026-01-01T00:00:00.000Z");
        ("data",
          JS.JObj [ ("type", JS.JStr "message_read");
                    ("data", JS.JObj [ ("type", JS.JStr "revoked");
                                       ("ack", JS.JNum 3) ]) ]) ] in
  let v :=
    match EventTransformers.transformChatMessage EventTransformers.defaults
            event with
    | Ret v => v
    | _ => JS.JNull
    end in
  JS.opt (JS.opt v "data") "type" = JS.JStr "message_revoked".
Proof.
  intros event v.
  apply (special_type_replaces_ack_state EventTransformers.defaults event v).
  - vm_compute. reflexivity.
  - vm_compute. discriminate.
  - reflexivity.
Defined.

(** ** The fields of a normalized event *)

(** X16.  The handlers of the special message types add fields and may
    replace the type, but leave the base fields of a normalized chat
    message as the mapper computed them: message id, format, sender,
    recipient, group flag, group id, direction and message time, with null
    where the payload has no value. *)
Theorem special_handlers_keep_base_fields
    (tr : EventTransformers.t) (event v : JS.Value) :
  EventTransformers.transformChatMessage tr event = Ret v ->
  v <> JS.JNull ->
  exists g sender time,
    EventTransformers._isGroupMessage (payload_of event) = Ret g
    /\ sender_of (payload_of event) g = Ret sender
    /\ JS.opt_call_toString (JS.opt (payload_of event) "timestamp") = Ret time
    /\ forall k, In k base_fields ->
         JS.opt (JS.opt v "data") k
           = JS.lookup_field k (chat_base (payload_of event) g sender time).
Proof.
  intros H Hv.
  destruct (transformChatMessage_built tr event v H Hv)
    as (g & sender & time & td & Hg & Hs & Ht & Hb & Hfields).
  exists g, sender, time. repeat split; try assumption.
  intros k Hk. rewrite (buildBase_data _ _ _ _ Hb). cbn [JS.opt].
  by apply Hfields.
Qed.

Lemma special_handlers_keep_base_fields_witness :
  let event :=
    JS.JObj
      [ ("id", JS.JNum 1);
        ("timestamp", JS.JStr "2026-01-01T00:00:00.000Z");
        ("data",
          JS.JObj
            [ ("type", JS.JStr "message_create");
              ("data",
                JS.JObj
                  [ ("id", JS.JObj
                       [ ("id", JS.JStr "3EB0");
                         ("participant",
                           JS.JObj [("user", JS.JStr "5355512345")]) ]);
                    ("type", JS.JStr "gp2");
                    ("from", JS.JObj [("user", JS.JStr "12036304@g.us")]);
                    ("__raw",
                      JS.JObj [ ("subtype", JS.JStr "add");
                                ("recipients",
                                  JS.JArr [JS.JStr "5355598765@c.us"]) ]) ]) ]) ] in
  let v :=
    match EventTransformers.transformChatMessage EventTransformers.defaults
            event with
    | Ret v => v
    | _ => JS.JNull
    end in
  exists g sender time,
    EventTransformers._isGroupMessage (payload_of event) = Ret g
    /\ sender_of (payload_of event) g = Ret sender
    /\ JS.opt_call_toString (JS.opt (payload_of event) "timestamp") = Ret time
    /\ forall k, In k base_fields ->
         JS.opt (JS.opt v "data") k
           = JS.lookup_field k (chat_base (payload_of event) g sender time).
Proof.
  intros event v.
  apply (special_handlers_keep_base_fields EventTransformers.defaults event v).
  - vm_compute. reflexivity.
  - vm_compute. discriminate.
Defined.

(** X17.  A normalized event, from the status mapper or from the chat
    mapper, carries the identifier of its envelope; its timestamp is the
    message time, epoch seconds rendered as an ISO date, when the payload
    has one, and the time of the envelope otherwise. *)
Theorem normalized_event_identity
    (tr : EventTransformers.t) (event v : JS.Value) :
  EventTransformers.transform tr event = Ret v ->
  v <> JS.JNull ->
  v <> event ->
  JS.opt v "internal_event_id" = JS.opt event "id"
  /\ (JS.truthy (JS.opt (payload_of event) "timestamp") = true ->
      exists s,
        JS.iso_of_seconds (JS.opt (payload_of event) "timestamp") = Ret s
        /\ JS.opt v "timestamp" = JS.JStr s)
  /\ (JS.truthy (JS.opt (payload_of event) "timestamp") = false ->
      JS.opt v "timestamp" = JS.opt event "timestamp").
Proof.
  unfold EventTransformers.transform. intros H Hnull Hpass.
  apply bind_Ret_inv in H as (ignored & Hign & H).
  destruct ignored; [injection H as <-; contradiction |].
  apply bind_Ret_inv in H as (st & Hst & H).
  destruct (JS.truthy st) eqn:Tst.
  { injection H as <-.
    destruct (transformStatusEvent_built tr event st Hst Hnull) as (td & Hb).
    exact (buildBase_identity _ _ _ _ Hb). }
  apply bind_Ret_inv in H as (ch & Hch & H).
  destruct (JS.truthy ch) eqn:Tch; [| injection H as <-; contradiction].
  injection H as <-.
  destruct (transformChatMessage_built tr event ch Hch Hnull)
    as (g & sender & time & td & _ & _ & _ & Hb & _).
  exact (buildBase_identity _ _ _ _ Hb).
Qed.

Lemma normalized_event_identity_witness :
  let event := EventProcessor.envelope (sample_env None) delivered_chat_event in
  let v :=
    match EventTransformers.transform EventTransformers.defaults event with
    | Ret v => v
    | _ => JS.JNull
    end in
  JS.opt v "internal_event_id" = JS.opt event "id"
  /\ (JS.truthy (JS.opt (payload_of event) "timestamp") = true ->
      exists s,
        JS.iso_of_seconds (JS.opt (payload_of event) "timestamp") = Ret s
        /\ JS.opt v "timestamp" = JS.JStr s)
  /\ (JS.truthy (JS.opt (payload_of event) "timestamp") = false ->
      JS.opt v "timestamp" = JS.opt event "timestamp").
Proof.
  intros event v.
  apply (normalized_event_identity EventTransformers.defaults event v).
  - vm_compute. reflexivity.
  - vm_compute. discriminate.
  - vm_compute. discriminate.
Defined.

(** X18.  [transform] returns null for the events it ignores and for no
    others: what it returns for any other event is the envelope itself,
    unchanged, or a normalized event. *)
Theorem transform_returns_null_only_when_ignored
    (tr : EventTransformers.t) (event : JS.Value) :
  (EventTransformers.transform tr event = Ret JS.JNull
   <-> EventTransformers.shouldIgnoreEvent tr event = Ret true)
  /\ (forall v,
        EventTransformers.transform tr event = Ret v ->
        v <> JS.JNull ->
        EventTransformers.shouldIgnoreEvent tr event = Ret false
        /\ (v = event \/ normalized v)).
Proof.
  split.
  - split; [apply transform_null_inv |].
    intros H. unfold EventTransformers.transform. rewrite H. reflexivity.
  - intros v H Hv.
    destruct (transform_Ret_inv tr event v H)
      as [[-> _] | (Hign & _ & [[_ Hn] | [(s & _ & _ & _ & Hn) | (s & c & _ & _ & _ & _ & ->)]])];
      [contradiction | | |]; split; auto.
Qed.

(** ** Consistency of the event statistics *)

Section StatsInvariantFacts.
Import JS StatsCollector.

Lemma sum_insert (m : gmap string Z) (k : string) (v : Z) :
  map_fold (fun _ n acc => n + acc) 0 (<[k := v]> m)
  = map_fold (fun _ n acc => n + acc) 0 m - default 0 (m !! k) + v.
Proof.
  assert (Hcomm : forall (m' : gmap string Z) (j1 j2 : string) (z1 z2 y : Z),
             j1 <> j2 -> m' !! j1 = Some z1 -> m' !! j2 = Some z2 ->
             z1 + (z2 + y) = z2 + (z1 + y)) by (intros; lia).
  destruct (m !! k) as [old |] eqn:Hk; cbn [default].
  - rewrite <- (insert_delete_eq m k v) at 1.
    rewrite map_fold_insert_L; [| by eauto | apply lookup_delete_eq].
    rewrite (map_fold_delete_L _ _ k old m);
      [unfold id; lia | by eauto | exact Hk].
  - rewrite map_fold_insert_L; [lia | by eauto | exact Hk].
Qed.

Lemma count_type_agrees key e :
  by_type_sum (count_type key e) = by_type_sum e + 1.
Proof.
  unfold by_type_sum, count_type. cbn [byType]. rewrite sum_insert. lia.
Qed.

Lemma count_action_sum action e :
  by_type_sum (count_action action e) = by_type_sum e
  /\ total (count_action action e) = total e.
Proof. destruct action; by split. Qed.

Lemma updateEventStats_agrees eventType action c key :
  type_key eventType = Ret key ->
  counts_agree (eventStats c) ->
  counts_agree (eventStats (snd (updateEventStats eventType action c))).
Proof.
  intros Hkey Hc. rewrite (updateEventStats_counted _ _ _ _ Hkey).
  unfold counts_agree in *. cbn [snd eventStats set_eventStats].
  destruct (count_action_sum action (count_type key (count_total (eventStats c))))
    as [-> ->].
  rewrite count_type_agrees. unfold by_type_sum, count_type, count_total in *.
  cbn [total byType]. lia.
Qed.

End StatsInvariantFacts.

Section AgreementFacts.
Import JS Bridge.

Variable I : StatsCollector.EventStats -> Prop.

(** [I] is maintained by counting an event under a type that converts. *)
Hypothesis I_count : forall eventType action c key,
  StatsCollector.type_key eventType = Ret key ->
  I (StatsCollector.eventStats c) ->
  I (StatsCollector.eventStats
       (snd (StatsCollector.updateEventStats eventType action c))).

Lemma preserves_keeps {A} (m : Eff t A) :
  keeps event_stats_of m -> preserves (on_event_stats I) m.
Proof. intros Hm b o b' Hb H. unfold on_event_stats. by rewrite (Hm _ _ _ H). Qed.

Lemma preserves_ebind {A B} (J : t -> Prop) (m : Eff t A) (k : A -> Eff t B) :
  preserves J m -> (forall a, preserves J (k a)) -> preserves J (ebind m k).
Proof.
  intros Hm Hk b o b' Hb H. unfold ebind in H.
  destruct (m b) as [[a | e |] b1] eqn:E; pose proof (Hm _ _ _ Hb E) as H1.
  - exact (Hk a _ _ _ H1 H).
  - by injection H as <- <-.
  - by injection H as <- <-.
Qed.

Lemma preserves_ebind_ensured {A B} (Q : A -> Prop) (J : t -> Prop)
    (m : Eff t A) (k : A -> Eff t B) :
  ensures Q m -> preserves J m -> (forall a, Q a -> preserves J (k a)) ->
  preserves J (ebind m k).
Proof.
  intros HQ Hm Hk b o b' Hb H. unfold ebind in H.
  destruct (m b) as [[a | e |] b1] eqn:E; pose proof (Hm _ _ _ Hb E) as H1.
  - exact (Hk a (HQ _ _ _ E) _ _ _ H1 H).
  - by injection H as <- <-.
  - by injection H as <- <-.
Qed.

Lemma preserves_try_catch {A} (J : t -> Prop) (m : Eff t A) handler :
  preserves J m -> (forall e, preserves J (handler e)) ->
  preserves J (try_catch m handler).
Proof.
  intros Hm Hh b o b' Hb H. unfold try_catch in H.
  destruct (m b) as [[a | e |] b1] eqn:E; pose proof (Hm _ _ _ Hb E) as H1.
  - by injection H as <- <-.
  - exact (Hh e _ _ _ H1 H).
  - by injection H as <- <-.
Qed.

Lemma preserves_count eventType action key :
  StatsCollector.type_key eventType = Ret key ->
  preserves (on_event_stats I) (stats (StatsCollector.updateEventStats eventType action)).
Proof.
  intros Hkey b o b' Hb H. unfold stats, zoom in H.
  pose proof (I_count eventType action (statsCollector b) key Hkey Hb) as Hc.
  destruct (StatsCollector.updateEventStats _ _ _) as [o1 c]. injection H as <- <-.
  exact Hc.
Qed.

Ltac settled :=
  apply preserves_keeps;
  repeat first
    [ apply keeps_ebind; [| intros ?]
    | apply keeps_eret
    | apply keeps_lift
    | apply keeps_nats; reflexivity
    | apply keeps_processor; reflexivity
    | match goal with |- keeps _ (if ?c then _ else _) => destruct c end
    | intros ? ? ? [= <- <-]; unfold event_stats_of; cbn;
      apply updateMessageStats_footprint ].

Lemma preserves_dispatch cfg env r :
  countable_result r -> preserves (on_event_stats I) (dispatch cfg env r).
Proof.
  intros Hr. destruct r as [reason | eventData eventType | reason eventType
                           | eventData original eventType was | e eventType];
    cbn [dispatch].
  - settled.
  - destruct (Hr eventType eq_refl) as [key Hkey].
    apply preserves_ebind; [settled | intros subject].
    apply preserves_ebind; [settled | intros _].
    apply preserves_ebind; [by eapply preserves_count | intros _]. settled.
  - destruct (Hr eventType eq_refl) as [key Hkey].
    apply preserves_ebind; [by eapply preserves_count | intros _]. settled.
  - settled.
  - destruct (Hr eventType eq_refl) as [key Hkey].
    apply preserves_ebind; [settled | intros _].
    apply preserves_ebind; [by eapply preserves_count | intros _]. settled.
Qed.

Lemma processEvent_countable_result cfg env event :
  countable event = true ->
  ensures countable_result (processor (EventProcessor.processEvent cfg env event)).
Proof.
  intros Hc. apply ensures_processor. intros p r p' HEP type Ht.
  pose proof (countable_or_unknown event Hc) as [ukey Hunknown].
  apply countable_inv in Hc as [Hev [key Hk]].
  destruct (processEvent_result_type _ _ _ _ _ _ HEP) as [E | [E | E]];
    rewrite E in Ht; [discriminate | |]; injection Ht as <-; eauto.
Qed.

Lemma ensures_lift {S A} (x : A) :
  ensures (fun a => a = x) (lift (Ret x) : Eff S A).
Proof. by intros s a s' [= <- <-]. Qed.

Lemma preserves_processEvent cfg env event :
  countable event = true ->
  preserves (on_event_stats I) (processEvent cfg env event).
Proof.
  intros Hc b o b' Hb H.
  destruct (countable_inv event Hc) as [Hev [key Hk]].
  unfold processEvent, finally in H.
  destruct (try_catch _ _ b) as [o1 b1] eqn:E. injection H as <- <-.
  change (on_event_stats I b1). revert b o1 b1 Hb E.
  change (preserves (on_event_stats I) (try_catch (attempt cfg env event) (recover event))).
  apply preserves_try_catch.
  - unfold attempt. rewrite (get_opt event _ Hev).
    apply (preserves_ebind_ensured (fun type => type = opt event "type"));
      [apply ensures_lift | settled | intros type ->].
    apply preserves_ebind; [by eapply preserves_count | intros _].
    apply preserves_ebind; [settled | intros type'].
    apply preserves_ebind; [settled | intros _].
    apply (preserves_ebind_ensured countable_result).
    + by apply processEvent_countable_result.
    + settled.
    + intros r Hr. by apply preserves_dispatch.
  - intros e. unfold recover. rewrite (get_opt event _ Hev).
    apply (preserves_ebind_ensured (fun type => type = opt event "type"));
      [apply ensures_lift | settled | intros type ->].
    apply preserves_ebind; [by eapply preserves_count | intros _]. settled.
Qed.

Lemma preserves_processEvents cfg (events : list (Value * Env.t)) :
  Forall (fun e => countable (fst e) = true) events ->
  preserves (on_event_stats I) (processEvents cfg events).
Proof.
  induction 1 as [| [event env] rest Hc _ IH]; cbn [processEvents].
  - settled.
  - apply preserves_ebind; [by apply preserves_processEvent | intros out].
    apply preserves_ebind; [exact IH | intros outs]. settled.
Qed.

End AgreementFacts.

(** X19.  Counting an event keeps the per-type counts in step with the
    total when the event type converts to a property key.  When the
    conversion raises, the total has already been incremented and no type
    is: the call raises and leaves the total one ahead of the per-type
    counts. *)
Theorem update_event_stats_agreement
    (eventType : JS.Value) (action : StatsCollector.Action)
    (c : StatsCollector.t) :
  counts_agree (StatsCollector.eventStats c) ->
  let run := StatsCollector.updateEventStats eventType action c in
  let after := StatsCollector.eventStats (snd run) in
  match StatsCollector.type_key eventType with
  | Ret _ => fst run = Ret tt /\ counts_agree after
  | Throw e =>
      fst run = Throw e /\ StatsCollector.total after = by_type_sum after + 1
  | Beyond => fst run = Beyond
  end.
Proof.
  intros Hc run after.
  destruct (StatsCollector.type_key eventType) as [key | e |] eqn:Hkey.
  - split; [| by eapply updateEventStats_agrees].
    subst run. by rewrite (updateEventStats_counted _ _ _ _ Hkey).
  - subst after run.
    unfold StatsCollector.updateEventStats, ebind, modify, lift.
    rewrite Hkey. cbn. split; [reflexivity |].
    unfold counts_agree, by_type_sum in *. cbn. lia.
  - subst run. unfold StatsCollector.updateEventStats, ebind, modify, lift.
    rewrite Hkey. reflexivity.
Qed.

Lemma update_event_stats_agreement_witness :
  let eventType := JS.JObj [("toString", JS.JNull)] in
  let run :=
    StatsCollector.updateEventStats eventType StatsCollector.processed
      (StatsCollector.fresh 1767225600000) in
  let after := StatsCollector.eventStats (snd run) in
  fst run = Throw NotPrimitive
  /\ StatsCollector.total after = by_type_sum after + 1.
Proof.
  intros eventType run after.
  exact (update_event_stats_agreement eventType StatsCollector.processed
           (StatsCollector.fresh 1767225600000) eq_refl).
Defined.

(** X20.  Over a batch of events with countable types the pipeline keeps
    the statistics consistent: if the per-type counts added up to the total
    before, they do after, however the events end, and they do from fresh
    statistics. *)
Theorem per_type_counts_add_up
    (cfg : Config.t) (events : list (JS.Value * Env.t)) (b : Bridge.t) :
  Forall (fun e => countable (fst e) = true) events ->
  counts_agree (event_stats_of b) ->
  counts_agree (event_stats_of (snd (Bridge.processEvents cfg events b))).
Proof.
  intros Hev Hb.
  destruct (Bridge.processEvents cfg events b) as [o b'] eqn:E. cbn [snd].
  refine (preserves_processEvents counts_agree _ cfg events Hev _ _ _ Hb E).
  intros eventType action c key. apply updateEventStats_agrees.
Qed.

Lemma per_type_counts_add_up_witness :
  let events := [ (ciphertext_event, sample_env None);
                  (delivered_chat_event, sample_env (Some "TIMEOUT"));
                  (delivered_chat_event, sample_env None) ] in
  counts_agree
    (event_stats_of
       (snd (Bridge.processEvents sample_config events fresh_bridge))).
Proof.
  intros events.
  apply (per_type_counts_add_up sample_config events fresh_bridge).
  - repeat constructor.
  - reflexivity.
Defined.

(** ** Processing times and message statistics *)

Section WindowFacts.
Import JS StatsCollector.

Lemma tail_drop_snoc (l : list Z) (k : nat) (t : Z) :
  (k < length l)%nat ->
  tail (drop k l ++ [t])%list = drop (S k) (l ++ [t])%list.
Proof.
  intros Hk. destruct (lookup_lt_is_Some_2 l k Hk) as [x Hx].
  rewrite (drop_S l x k Hx). cbn [app tail].
  rewrite drop_app_le by lia. reflexivity.
Qed.

Lemma window_step (w all : list Z) (t : Z) :
  w = drop (length all - 1000) all ->
  (if 1000 <? Z.of_nat (length (w ++ [t])%list)
   then tail (w ++ [t])%list else (w ++ [t])%list)
  = drop (length (all ++ [t])%list - 1000) (all ++ [t])%list.
Proof.
  intros ->. rewrite !length_app, length_drop. cbn [length].
  destruct (Z.ltb_spec 1000
              (Z.of_nat (length all - (length all - 1000) + 1))) as [Hlt | Hge].
  - rewrite tail_drop_snoc by lia. f_equal. lia.
  - replace (length all - 1000)%nat with 0%nat by lia.
    replace (length all + 1 - 1000)%nat with 0%nat by lia.
    reflexivity.
Qed.

Lemma record_all_snoc samples t c :
  record_all (samples ++ [t])%list c
  = recordProcessingTime t (record_all samples c).
Proof. unfold record_all. by rewrite fold_left_app. Qed.

Lemma record_all_window samples : forall c all,
  eventProcessingTimes (performanceStats c) = drop (length all - 1000) all ->
  eventProcessingTimes (performanceStats (record_all samples c))
  = drop (length (all ++ samples)%list - 1000) (all ++ samples)%list.
Proof.
  induction samples as [| t rest IH]; intros c all Hc.
  - by rewrite app_nil_r.
  - change (record_all (t :: rest) c)
      with (record_all rest (recordProcessingTime t c)).
    replace (all ++ t :: rest)%list with ((all ++ [t]) ++ rest)%list
      by (by rewrite <- app_assoc).
    apply IH. unfold recordProcessingTime.
    cbn [performanceStats eventProcessingTimes].
    by apply window_step.
Qed.

Lemma recordProcessingTime_average t c :
  let p := performanceStats (recordProcessingTime t c) in
  averageProcessingTime p
  = (sum_list (eventProcessingTimes p), Z.of_nat (length (eventProcessingTimes p)))
  /\ eventProcessingTimes p <> [].
Proof.
  unfold recordProcessingTime. cbn [performanceStats eventProcessingTimes
                                    averageProcessingTime].
  split; [reflexivity |].
  destruct (Z.ltb_spec 1000
              (Z.of_nat (length (eventProcessingTimes (performanceStats c) ++ [t])%list)))
    as [Hlt | Hge].
  - intros Hnil. apply (f_equal length) in Hnil.
    destruct (eventProcessingTimes (performanceStats c) ++ [t])%list
      as [| x [| y rest]]; cbn in *; lia.
  - by destruct (eventProcessingTimes (performanceStats c)).
Qed.

Lemma record_all_extremes samples : forall c t,
  In t samples ->
  t <= maxProcessingTime (performanceStats (record_all samples c))
  /\ exists m,
       minProcessingTime (performanceStats (record_all samples c)) = Some m
       /\ m <= t.
Proof.
  assert (Hmono : forall samples c,
    maxProcessingTime (performanceStats c)
      <= maxProcessingTime (performanceStats (record_all samples c))
    /\ forall m0, minProcessingTime (performanceStats c) = Some m0 ->
         exists m, minProcessingTime (performanceStats (record_all samples c))
                     = Some m /\ m <= m0).
  { clear samples. induction samples as [| t rest IH]; intros c.
    - split; [reflexivity |]. intros m0 H. exists m0. by split.
    - change (record_all (t :: rest) c)
        with (record_all rest (recordProcessingTime t c)).
      destruct (IH (recordProcessingTime t c)) as [Hmax Hmin]. split.
      + etrans; [| exact Hmax].
        unfold recordProcessingTime. cbn [performanceStats maxProcessingTime]. lia.
      + intros m0 Hm0.
        destruct (Hmin (Z.min m0 t)) as (m & Hm & Hle).
        { unfold recordProcessingTime. cbn [performanceStats minProcessingTime].
          by rewrite Hm0. }
        exists m. split; [exact Hm | lia]. }
  induction samples as [| t' rest IH]; intros c t Hin; [destruct Hin |].
  change (record_all (t' :: rest) c)
    with (record_all rest (recordProcessingTime t' c)).
  destruct Hin as [-> | Hin]; [| by apply IH].
  destruct (Hmono rest (recordProcessingTime t c)) as [Hmax Hmin]. split.
  - etrans; [| exact Hmax].
    unfold recordProcessingTime. cbn [performanceStats maxProcessingTime]. lia.
  - destruct (Hmin (match minProcessingTime (performanceStats c) with
                    | None => t
                    | Some m => Z.min m t
                    end) eq_refl) as (m & Hm & Hle).
    exists m. split; [exact Hm |].
    destruct (minProcessingTime (performanceStats c)); lia.
Qed.

End WindowFacts.

Section ExtremesFacts.
Import JS StatsCollector.

(** The maximum and the minimum after a run are attained: each is the
    value from before the run or one of its samples. *)
Lemma record_all_attained samples : forall c,
  (maxProcessingTime (performanceStats (record_all samples c))
     = maxProcessingTime (performanceStats c)
   \/ In (maxProcessingTime (performanceStats (record_all samples c))) samples)
  /\ (minProcessingTime (performanceStats (record_all samples c))
        = minProcessingTime (performanceStats c)
      \/ exists m,
           minProcessingTime (performanceStats (record_all samples c)) = Some m
           /\ In m samples).
Proof.
  induction samples as [| t rest IH]; intros c; [by split; left |].
  change (record_all (t :: rest) c)
    with (record_all rest (recordProcessingTime t c)).
  destruct (IH (recordProcessingTime t c)) as [Hmax Hmin].
  unfold recordProcessingTime in Hmax at 2, Hmin at 2.
  cbn [performanceStats maxProcessingTime minProcessingTime] in Hmax, Hmin.
  split.
  - destruct Hmax as [-> | Hin]; [| right; by right].
    destruct (Z.max_spec (maxProcessingTime (performanceStats c)) t)
      as [[_ ->] | [_ ->]]; [right; by left | by left].
  - destruct Hmin as [-> | (m & Hm & Hin)]; [| right; exists m; split; [exact Hm | by right]].
    destruct (minProcessingTime (performanceStats c)) as [m0 |].
    + destruct (Z.min_spec m0 t) as [[_ ->] | [_ ->]];
        [by left | right; exists t; split; [reflexivity | by left]].
    + right. exists t. split; [reflexivity | by left].
Qed.

Lemma record_all_monotone samples : forall c,
  maxProcessingTime (performanceStats c)
    <= maxProcessingTime (performanceStats (record_all samples c))
  /\ forall m0, minProcessingTime (performanceStats c) = Some m0 ->
       exists m, minProcessingTime (performanceStats (record_all samples c))
                   = Some m /\ m <= m0.
Proof.
  induction samples as [| t rest IH]; intros c.
  - split; [reflexivity |]. intros m0 H. exists m0. by split.
  - change (record_all (t :: rest) c)
      with (record_all rest (recordProcessingTime t c)).
    destruct (IH (recordProcessingTime t c)) as [Hmax Hmin]. split.
    + etrans; [| exact Hmax].
      unfold recordProcessingTime. cbn [performanceStats maxProcessingTime]. lia.
    + intros m0 Hm0.
      destruct (Hmin (Z.min m0 t)) as (m & Hm & Hle).
      { unfold recordProcessingTime. cbn [performanceStats minProcessingTime].
        by rewrite Hm0. }
      exists m. split; [exact Hm | lia].
Qed.

End ExtremesFacts.

(** X21.  The processing times are kept in a sliding window of the 1000
    most recent samples: after any run of samples the window is the last
    1000 of what was there and what came in, in order, so that older
    samples have left it.  The average is the sum of that window over its
    length, which is not zero once a sample has come in.  The maximum and
    the minimum are those of every sample of the run and of the value from
    before it, also of the samples that have left the window: they bound
    every sample and the earlier value, and each is attained, by a sample
    of the run or by the earlier value. *)
Theorem processing_times_window
    (samples : list Z) (c : StatsCollector.t) :
  let before :=
    StatsCollector.eventProcessingTimes (StatsCollector.performanceStats c) in
  let p := StatsCollector.performanceStats (record_all samples c) in
  let window := StatsCollector.eventProcessingTimes p in
  (length before <= 1000)%nat ->
  window = drop (length (before ++ samples)%list - 1000) (before ++ samples)%list
  /\ (length window <= 1000)%nat
  /\ (samples <> [] ->
      StatsCollector.averageProcessingTime p
        = (StatsCollector.sum_list window, Z.of_nat (length window))
      /\ window <> [])
  /\ (forall t, In t samples ->
        t <= StatsCollector.maxProcessingTime p
        /\ exists m, StatsCollector.minProcessingTime p = Some m /\ m <= t)
  /\ StatsCollector.maxProcessingTime (StatsCollector.performanceStats c)
       <= StatsCollector.maxProcessingTime p
  /\ (StatsCollector.maxProcessingTime p
        = StatsCollector.maxProcessingTime (StatsCollector.performanceStats c)
      \/ In (StatsCollector.maxProcessingTime p) samples)
  /\ (forall m0,
        StatsCollector.minProcessingTime (StatsCollector.performanceStats c)
          = Some m0 ->
        exists m, StatsCollector.minProcessingTime p = Some m /\ m <= m0)
  /\ (StatsCollector.minProcessingTime p
        = StatsCollector.minProcessingTime (StatsCollector.performanceStats c)
      \/ exists m, StatsCollector.minProcessingTime p = Some m /\ In m samples).
Proof.
  intros before p window Hbefore.
  assert (Hw : window = drop (length (before ++ samples)%list - 1000)
                          (before ++ samples)%list).
  { apply record_all_window. fold before.
    replace (length before - 1000)%nat with 0%nat by lia. reflexivity. }
  split; [exact Hw |]. split; [rewrite Hw, length_drop; lia |].
  split.
  { intros Hne. destruct (exists_last Hne) as (front & t & ->).
    subst window p. rewrite record_all_snoc.
    apply recordProcessingTime_average. }
  split; [intros t Hin; by apply record_all_extremes |].
  destruct (record_all_monotone samples c) as [Hmax Hmin].
  destruct (record_all_attained samples c) as [Amax Amin].
  repeat split; assumption.
Qed.

(** A run of 1002 samples, 1 to 1002 in order, on a fresh collector: the
    first two have left the window, and the minimum is still the first. *)
Lemma processing_times_window_witness :
  let c := StatsCollector.fresh 1767225600000 in
  let samples := map Z.of_nat (seq 1 1002) in
  let p := StatsCollector.performanceStats (record_all samples c) in
  let window := StatsCollector.eventProcessingTimes p in
  window = map Z.of_nat (seq 3 1000)
  /\ StatsCollector.averageProcessingTime p = (502500, 1000)
  /\ StatsCollector.maxProcessingTime p = 1002
  /\ StatsCollector.minProcessingTime p = Some 1
  /\ existsb (Z.eqb 1) window = false
  /\ window = drop (length ([] ++ samples)%list - 1000) ([] ++ samples)%list
  /\ (length window <= 1000)%nat
  /\ (samples <> [] ->
      StatsCollector.averageProcessingTime p
        = (StatsCollector.sum_list window, Z.of_nat (length window))
      /\ window <> [])
  /\ (forall t, In t samples ->
        t <= StatsCollector.maxProcessingTime p
        /\ exists m, StatsCollector.minProcessingTime p = Some m /\ m <= t)
  /\ StatsCollector.maxProcessingTime (StatsCollector.performanceStats c)
       <= StatsCollector.maxProcessingTime p
  /\ (StatsCollector.maxProcessingTime p
        = StatsCollector.maxProcessingTime (StatsCollector.performanceStats c)
      \/ In (StatsCollector.maxProcessingTime p) samples)
  /\ (forall m0,
        StatsCollector.minProcessingTime (StatsCollector.performanceStats c)
          = Some m0 ->
        exists m, StatsCollector.minProcessingTime p = Some m /\ m <= m0)
  /\ (StatsCollector.minProcessingTime p
        = StatsCollector.minProcessingTime (StatsCollector.performanceStats c)
      \/ exists m, StatsCollector.minProcessingTime p = Some m /\ In m samples).
Proof.
  intros c samples p window.
  do 5 (split; [vm_compute; reflexivity |]).
  apply (processing_times_window samples c). cbn. lia.
Defined.

Section MessageStatsFacts.
Import JS StatsCollector.

Lemma presence_is_not_contact (eventType : Value) :
  NATSManager.isPresenceEvent eventType = true ->
  NATSManager.isContactEvent eventType = false.
Proof.
  unfold NATSManager.isPresenceEvent, NATSManager.isContactEvent, list_includes.
  cbn [existsb NATSManager.presenceEventTypes NATSManager.contactEventTypes].
  rewrite !orb_true_iff.
  intros [H | [H | [H | [H | H]]]]; try discriminate;
    apply is_str_true in H; subst; reflexivity.
Qed.

End MessageStatsFacts.

(** X22.  A publish is counted under one subject at most.  A successful
    publish adds one to the number of sent messages when its subject is one
    of the four configured subjects, also when two of them coincide, and
    nothing otherwise; it never counts an error.  A failed publish adds one
    error and no sent message. *)
Theorem message_is_counted_at_most_once
    (cfg : Config.Nats) (subject : string) (c : StatsCollector.t) :
  let sent := StatsCollector.updateMessageStats cfg subject true c in
  let failed := StatsCollector.updateMessageStats cfg subject false c in
  StatsCollector.totalMessages (StatsCollector.messageStats sent)
    = StatsCollector.totalMessages (StatsCollector.messageStats c)
      + indicator (counted_subject cfg subject)
  /\ StatsCollector.publishErrors (StatsCollector.messageStats sent)
     = StatsCollector.publishErrors (StatsCollector.messageStats c)
  /\ StatsCollector.totalMessages (StatsCollector.messageStats failed)
     = StatsCollector.totalMessages (StatsCollector.messageStats c)
  /\ StatsCollector.publishErrors (StatsCollector.messageStats failed)
     = StatsCollector.publishErrors (StatsCollector.messageStats c) + 1.
Proof.
  unfold StatsCollector.updateMessageStats, counted_subject,
    StatsCollector.totalMessages.
  cbn [negb].
  destruct (String.eqb subject (Config.subject cfg));
    [cbn; repeat split; lia |].
  destruct (String.eqb subject (Config.contactSubject cfg));
    [cbn; repeat split; lia |].
  destruct (String.eqb subject (Config.ignoredSubject cfg));
    [cbn; repeat split; lia |].
  destruct (bool_decide (Some subject = Config.precenseSubject cfg));
    cbn; repeat split; lia.
Qed.

(** X23.  When no presence subject is configured, presence events are
    published to the built-in subject [whatsapp.precense], but the message
    statistics keep no counter for it: the publish goes out and the
    statistics stay as they were. *)
Theorem default_presence_subject_is_not_counted
    (cfg : Config.t) (env : Env.t) (eventData original eventType : JS.Value)
    (b : Bridge.t) :
  NATSManager.isPresenceEvent eventType = true ->
  Config.precenseSubject (Config.nats cfg) = None
  \/ Config.precenseSubject (Config.nats cfg) = Some "" ->
  counted_subject (Config.nats cfg) "whatsapp.precense" = false ->
  NATSManager.connection (Bridge.natsManager b) = true ->
  Env.broker env = None ->
  exists b',
    Bridge.dispatch cfg env
      (EventProcessor.publish eventData original eventType false) b
      = (Ret (Bridge.Published "whatsapp.precense"), b')
    /\ Bridge.statsCollector b' = Bridge.statsCollector b
    /\ published_of b' =
         (published_of b
          ++ [ {| NATSManager.to_subject := "whatsapp.precense";
                  NATSManager.payload := eventData;
                  NATSManager.accepted := true |} ])%list.
Proof.
  intros Hpres Hcfg Hnot Hconn Hbroker.
  assert (Hsubject : NATSManager.determineSubject (Config.nats cfg) eventType
                     = "whatsapp.precense").
  { unfold NATSManager.determineSubject.
    rewrite (presence_is_not_contact _ Hpres), Hpres.
    destruct Hcfg as [-> | ->]; reflexivity. }
  assert (Hstr : JS.to_string eventType <> Throw NotPrimitive
                 /\ exists s, JS.to_string eventType = Ret s).
  { unfold NATSManager.isPresenceEvent, JS.list_includes in Hpres.
    destruct eventType; try discriminate. split; [discriminate | eauto]. }
  destruct Hstr as [_ [s Hs]].
  unfold counted_subject in Hnot.
  apply orb_false_elim in Hnot as [Hnot H4].
  apply orb_false_elim in Hnot as [Hnot H3].
  apply orb_false_elim in Hnot as [H1 H2].
  destruct b as [running [conn pub] p c]. cbn in Hconn. subst conn.
  eexists. split.
  - cbn [Bridge.dispatch].
    unfold ebind, Bridge.nats, zoom, NATSManager.publishEvent,
      NATSManager.connection_publish, NATSManager.record_call, gets, modify,
      eret, lift.
    cbn [Bridge.natsManager NATSManager.connection NATSManager.published negb
         andb].
    rewrite Hbroker, Hsubject, Hs.
    destruct (Config.debug_enabled cfg); cbn [bind]; reflexivity.
  - unfold StatsCollector.updateMessageStats. cbn [negb].
    rewrite H1, H2, H3, H4. unfold published_of. cbn.
    split; [by destruct c | reflexivity].
Qed.

Lemma default_presence_subject_is_not_counted_witness :
  let cfg :=
    {| Config.nats := {| Config.subject := "whatsapp.events";
                         Config.contactSubject := "whatsapp.contacts";
                         Config.ignoredSubject := "whatsapp.ignored";
                         Config.precenseSubject := None |};
       Config.polling := Config.polling sample_config;
       Config.debug_enabled := true |} in
  let raw := JS.JObj [ ("type", JS.JStr "presence_change");
                       ("data", JS.JObj [("id", JS.JStr "5355512345@c.us")]) ] in
  let eventData := EventProcessor.envelope (sample_env None) raw in
  exists b',
    Bridge.dispatch cfg (sample_env None)
      (EventProcessor.publish eventData eventData
         (JS.JStr "presence_change") false) fresh_bridge
      = (Ret (Bridge.Published "whatsapp.precense"), b')
    /\ Bridge.statsCollector b' = Bridge.statsCollector fresh_bridge
    /\ published_of b' =
         (published_of fresh_bridge
          ++ [ {| NATSManager.to_subject := "whatsapp.precense";
                  NATSManager.payload := eventData;
                  NATSManager.accepted := true |} ])%list.
Proof.
  intros cfg raw eventData.
  apply (default_presence_subject_is_not_counted cfg (sample_env None)
           eventData eventData (JS.JStr "presence_change") fresh_bridge).
  - reflexivity.
  - left. reflexivity.
  - reflexivity.
  - reflexivity.
  - reflexivity.
Defined.

(** ** The message listeners *)

Section CaptureFacts.
Import JS Dedup Capture.

Variable serializeMsg : Value -> Value.

Lemma shouldProcessMessage_unidentified now later msg eventType cache :
  lacks_identifier msg = true ->
  shouldProcessMessage now later msg eventType cache = (Ret false, cache).
Proof.
  intros H. unfold lacks_identifier in H. unfold shouldProcessMessage.
  destruct (truthy msg) eqn:H1; [| reflexivity]. cbn [negb].
  unfold ebind at 1. unfold lift at 1.
  rewrite (get_opt msg "id" (truthy_not_nullish _ H1)).
  destruct (truthy (opt msg "id")) eqn:H2; [| reflexivity]. cbn [negb].
  unfold ebind at 1. unfold lift at 1.
  rewrite (get_opt _ "_serialized" (truthy_not_nullish _ H2)).
  destruct (truthy (opt (opt msg "id") "_serialized")) eqn:H3; [| reflexivity].
  simpl in H. discriminate.
Qed.

Lemma strict_equal_num (v : Value) (n : Z) :
  strict_equal v (JNum n) = true <-> v = JNum n.
Proof.
  destruct v; cbn; try (split; [discriminate | intros [=]]).
  rewrite Z.eqb_eq. split; [by intros -> | by intros [= ->]].
Qed.

Lemma push_footprint type data stamp s :
  push type data stamp s =
    (Ret tt,
     {| processedMessages := processedMessages s; seen := seen s;
        whatsappEvents :=
          (whatsappEvents s
           ++ [JObj [ ("type", JStr type); ("data", data);
                      ("timestamp", JNum stamp) ]])%list |}).
Proof. reflexivity. Qed.

End CaptureFacts.

(** X24.  The change listener queues a lifecycle event for the ack levels
    1, 2 and 3 only.  A change to any other level (pending, played, or no
    ack at all) queues nothing and leaves the deduplication cache as it
    was. *)
Theorem change_listener_ignores_other_acks
    (serializeMsg : JS.Value -> JS.Value) (clock : Capture.Clock)
    (msg : JS.Value) (s : Capture.t) :
  ~ In (JS.opt msg "ack") [JS.JNum 1; JS.JNum 2; JS.JNum 3] ->
  Capture.on_message_change serializeMsg clock msg s =
    (if JS.nullish msg then Throw (NullAccess "ack") else Ret tt, s).
Proof.
  intros Hack. unfold Capture.on_message_change.
  unfold ebind at 1, lift at 1.
  destruct (JS.nullish msg) eqn:Hn; [by destruct msg |].
  rewrite (get_opt msg "ack" Hn).
  destruct (JS.strict_equal (JS.opt msg "ack") JS.JUndefined); [reflexivity |].
  assert (Hquiet : forall level eventType,
            In (JS.JNum level) [JS.JNum 1; JS.JNum 2; JS.JNum 3] ->
            Capture.ack_is clock msg (JS.opt msg "ack") level eventType s
            = (Ret false, s)).
  { intros level eventType Hin. unfold Capture.ack_is.
    destruct (JS.strict_equal (JS.opt msg "ack") (JS.JNum level)) eqn:E;
      [| reflexivity].
    apply strict_equal_num in E. rewrite E in Hack. contradiction. }
  unfold ebind. rewrite !Hquiet by (cbn; tauto). reflexivity.
Qed.

Lemma change_listener_ignores_other_acks_witness :
  let msg := JS.JObj [ ("id", JS.JObj [("_serialized", JS.JStr "3EB0")]);
                       ("ack", JS.JNum 4) ] in
  let s := {| Capture.processedMessages := ∅; Capture.seen := ∅;
              Capture.whatsappEvents := [] |} in
  Capture.on_message_change (fun m => m)
    {| Capture.at_insert := 1767225600000; Capture.at_sweep := 1767225600000;
       Capture.at_push := 1767225600001 |} msg s
  = (if JS.nullish msg then Throw (NullAccess "ack") else Ret tt, s).
Proof.
  intros msg s.
  apply (change_listener_ignores_other_acks (fun m => m)).
  cbn. intros [H | [H | [H | []]]]; discriminate.
Defined.

Section ReplayFacts.
Import JS Dedup Capture.

Variable serializeMsg : Value -> Value.

(** What a check leaves behind answers false to every later check of the
    same message and stage, on any cache that still holds its key. *)
Lemma shouldProcessMessage_remembered now later msg eventType cache b cache' :
  shouldProcessMessage now later msg eventType cache = (Ret b, cache') ->
  later - 300000 <= now ->
  (forall cache2 now' later',
      (forall key, key_of msg eventType = Ret key ->
                   is_Some (cache' !! key) -> is_Some (cache2 !! key)) ->
      shouldProcessMessage now' later' msg eventType cache2 = (Ret false, cache2))
  /\ (b = false -> cache' = cache).
Proof.
  intros H Hclock. destruct (lacks_identifier msg) eqn:Hid.
  - rewrite shouldProcessMessage_unidentified in H by exact Hid.
    injection H as <- <-. split; [| reflexivity].
    intros cache2 now' later' _. by apply shouldProcessMessage_unidentified.
  - rewrite shouldProcessMessage_identified in H by exact Hid.
    destruct (key_of msg eventType) as [key | e |] eqn:Hkey; try discriminate.
    destruct (bool_decide (is_Some (cache !! key))) eqn:Hknown;
      injection H as <- <-.
    + split; [| reflexivity]. intros cache2 now' later' Hrem.
      apply bool_decide_eq_true in Hknown.
      destruct (Hrem key eq_refl Hknown) as [ts Hts].
      by eapply shouldProcessMessage_known.
    + split; [| discriminate]. intros cache2 now' later' Hrem.
      destruct (Hrem key eq_refl) as [ts Hts].
      { exists now.
        apply sweep_if_large_keeps_recent; [apply lookup_insert_eq | lia]. }
      by eapply shouldProcessMessage_known.
Qed.

Lemma ack_is_remembered clock clock' msg ack level eventType s b s1 :
  ack_is clock msg ack level eventType s = (Ret b, s1) ->
  at_sweep clock - 300000 <= at_insert clock ->
  (b = false -> s1 = s)
  /\ (b = true -> strict_equal ack (JNum level) = true)
  /\ forall s2,
       (forall key, key_of msg eventType = Ret key ->
                    is_Some (processedMessages s1 !! key) ->
                    is_Some (processedMessages s2 !! key)) ->
       ack_is clock' msg ack level eventType s2 = (Ret false, s2).
Proof.
  unfold ack_is, messages, zoom. intros H Hclock.
  destruct (strict_equal ack (JNum level)).
  - destruct (shouldProcessMessage _ _ msg eventType (processedMessages s))
      as [o cache'] eqn:Hs.
    injection H as -> <-.
    destruct (shouldProcessMessage_remembered _ _ _ _ _ _ _ Hs Hclock)
      as [Hrep Hsame].
    repeat split.
    + intros ->. rewrite (Hsame eq_refl). by destruct s.
    + intros s2 Hs2. cbn [processedMessages set_processedMessages] in Hs2.
      rewrite (Hrep (processedMessages s2) _ _ Hs2). by destruct s2.
  - injection H as <- <-. repeat split. discriminate.
Qed.

Lemma ack_is_other clock msg ack level eventType s :
  strict_equal ack (JNum level) = false ->
  ack_is clock msg ack level eventType s = (Ret false, s).
Proof. intros H. unfold ack_is. by rewrite H. Qed.

Lemma on_message_change_remembered clock clock' msg s s1 s2 :
  on_message_change serializeMsg clock msg s = (Ret tt, s1) ->
  at_sweep clock - 300000 <= at_insert clock ->
  still_remembers msg s1 s2 ->
  on_message_change serializeMsg clock' msg s2 = (Ret tt, s2).
Proof.
  unfold on_message_change. intros H Hclock Hrem.
  unfold ebind at 1, lift at 1 in H. unfold ebind at 1, lift at 1.
  destruct (get msg "ack") as [ack | e |]; try discriminate.
  destruct (strict_equal ack JUndefined); [reflexivity |].
  assert (Hnum : forall a b : Z, a <> b ->
            forall c2 stage t, ack = JNum a ->
              ack_is c2 msg ack b stage t = (Ret false, t)).
  { intros a b Hab c2 stage t ->. apply ack_is_other. cbn.
    by apply Z.eqb_neq. }
  (* level 1 *)
  unfold ebind at 1 in H.
  destruct (ack_is clock msg ack 1 "received" s) as [[b1 | e |] t1] eqn:H1;
    try discriminate.
  destruct (ack_is_remembered clock clock' _ _ _ _ _ _ _ H1 Hclock)
    as (Hs1 & Ht1 & Hr1).
  destruct (strict_equal ack (JNum 1)) eqn:E1.
  { apply strict_equal_num in E1.
    assert (Hcache : processedMessages s1 = processedMessages t1).
    { destruct b1.
      - rewrite push_footprint in H. by injection H as <-.
      - rewrite (Hs1 eq_refl) in *. unfold ebind in H.
        rewrite !(Hnum 1) in H by (done || lia). by injection H as <-. }
    unfold ebind. rewrite Hr1.
    - rewrite !(Hnum 1) by (done || lia). reflexivity.
    - intros key Hkey Hin. apply (Hrem "received" key Hkey). by rewrite Hcache. }
  destruct b1; [by specialize (Ht1 eq_refl) |].
  rewrite (Hs1 eq_refl) in *. clear Hs1 Ht1 Hr1 t1 H1.
  unfold ebind at 1. rewrite (ack_is_other _ _ _ _ _ _ E1).
  (* level 2 *)
  unfold ebind at 1 in H.
  destruct (ack_is clock msg ack 2 "delivered" s) as [[b2 | e |] t2] eqn:H2;
    try discriminate.
  destruct (ack_is_remembered clock clock' _ _ _ _ _ _ _ H2 Hclock)
    as (Hs2 & Ht2 & Hr2).
  destruct (strict_equal ack (JNum 2)) eqn:E2.
  { apply strict_equal_num in E2.
    assert (Hcache : processedMessages s1 = processedMessages t2).
    { destruct b2.
      - rewrite push_footprint in H. by injection H as <-.
      - rewrite (Hs2 eq_refl) in *. unfold ebind in H.
        rewrite !(Hnum 2) in H by (done || lia). by injection H as <-. }
    unfold ebind. rewrite Hr2.
    - rewrite !(Hnum 2) by (done || lia). reflexivity.
    - intros key Hkey Hin. apply (Hrem "delivered" key Hkey). by rewrite Hcache. }
  destruct b2; [by specialize (Ht2 eq_refl) |].
  rewrite (Hs2 eq_refl) in *. clear Hs2 Ht2 Hr2 t2 H2.
  unfold ebind at 1. rewrite (ack_is_other _ _ _ _ _ _ E2).
  (* level 3 *)
  unfold ebind at 1 in H.
  destruct (ack_is clock msg ack 3 "read" s) as [[b3 | e |] t3] eqn:H3;
    try discriminate.
  destruct (ack_is_remembered clock clock' _ _ _ _ _ _ _ H3 Hclock)
    as (Hs3 & Ht3 & Hr3).
  destruct (strict_equal ack (JNum 3)) eqn:E3.
  { assert (Hcache : processedMessages s1 = processedMessages t3).
    { destruct b3.
      - rewrite push_footprint in H. by injection H as <-.
      - by injection H as <-. }
    unfold ebind. rewrite Hr3; [reflexivity |].
    intros key Hkey Hin. apply (Hrem "read" key Hkey). by rewrite Hcache. }
  unfold ebind. rewrite (ack_is_other _ _ _ _ _ _ E3). reflexivity.
Qed.

Lemma on_message_add_remembered clock clock' msg s s1 s2 :
  on_message_add serializeMsg clock msg s = (Ret tt, s1) ->
  at_sweep clock - 300000 <= at_insert clock ->
  still_remembers msg s1 s2 ->
  on_message_add serializeMsg clock' msg s2 = (Ret tt, s2).
Proof.
  unfold on_message_add. intros H Hclock Hrem.
  unfold ebind at 1, messages at 1, zoom at 1 in H.
  unfold ebind at 1, messages at 1, zoom at 1.
  destruct (shouldProcessMessage _ _ msg "create" (processedMessages s))
    as [[b | e |] cache'] eqn:Hs; try discriminate.
  destruct (shouldProcessMessage_remembered _ _ _ _ _ _ _ Hs Hclock)
    as [Hrep Hsame].
  assert (Hcache : processedMessages s1 = cache').
  { destruct b.
    - unfold ebind at 1, lift at 1 in H.
      destruct (get msg "body") as [body | |]; try discriminate.
      unfold ebind at 1 in H.
      destruct (truthy body).
      + unfold eret at 1 in H. unfold ebind at 1, lift at 1 in H.
        destruct (to_string body); try discriminate.
        rewrite push_footprint in H. by injection H as <-.
      + unfold ebind at 1, lift at 1 in H.
        destruct (get msg "type") as [type | |]; try discriminate.
        unfold eret at 1 in H. unfold ebind at 1, lift at 1 in H.
        destruct (to_string _); try discriminate.
        rewrite push_footprint in H. by injection H as <-.
    - by injection H as <-. }
  rewrite Hrep; [by destruct s2 |].
  intros key Hkey Hin. apply (Hrem "create" key Hkey). by rewrite Hcache.
Qed.

End ReplayFacts.

(** X25.  A notification that is delivered twice is queued once.  When a
    message listener has returned for a message, its two clock readings of
    the check being less than five minutes apart, the same notification
    again queues nothing and changes nothing, whatever the clock reads by
    then and whatever the listeners have done in between, on every state
    of the page whose cache still holds the keys of that message which it
    held when the listener returned. *)
Theorem repeated_notification_is_dropped
    (serializeMsg : JS.Value -> JS.Value) (clock clock' : Capture.Clock)
    (msg : JS.Value) (s s2 : Capture.t) :
  Capture.at_sweep clock - 300000 <= Capture.at_insert clock ->
  (forall s1,
      Capture.on_message_add serializeMsg clock msg s = (Ret tt, s1) ->
      still_remembers msg s1 s2 ->
      Capture.on_message_add serializeMsg clock' msg s2 = (Ret tt, s2))
  /\ (forall s1,
        Capture.on_message_change serializeMsg clock msg s = (Ret tt, s1) ->
        still_remembers msg s1 s2 ->
        Capture.on_message_change serializeMsg clock' msg s2 = (Ret tt, s2)).
Proof.
  intros Hclock. split; intros s1 H Hrem.
  - by eapply on_message_add_remembered.
  - by eapply on_message_change_remembered.
Qed.

(** The notification comes again an hour later, after the listeners have
    queued another message in between. *)
Lemma repeated_notification_is_dropped_witness :
  let msg := JS.JObj [ ("id", JS.JObj [("_serialized", JS.JStr "3EB0")]);
                       ("body", JS.JStr "hola");
                       ("ack", JS.JNum 2) ] in
  let other := JS.JObj [ ("id", JS.JObj [("_serialized", JS.JStr "3EB1")]);
                         ("body", JS.JStr "adios");
                         ("ack", JS.JNum 2) ] in
  let s := {| Capture.processedMessages := ∅; Capture.seen := ∅;
              Capture.whatsappEvents := [] |} in
  let clock := {| Capture.at_insert := 1767225600000;
                  Capture.at_sweep := 1767225600000;
                  Capture.at_push := 1767225600001 |} in
  let between := {| Capture.at_insert := 1767225660000;
                    Capture.at_sweep := 1767225660000;
                    Capture.at_push := 1767225660001 |} in
  let clock' := {| Capture.at_insert := 1767229200000;
                   Capture.at_sweep := 1767229200000;
                   Capture.at_push := 1767229200001 |} in
  let added := snd (Capture.on_message_add (fun m => m) clock msg s) in
  let added2 := snd (Capture.on_message_add (fun m => m) between other added) in
  let changed := snd (Capture.on_message_change (fun m => m) clock msg s) in
  let changed2 :=
    snd (Capture.on_message_change (fun m => m) between other changed) in
  length (Capture.whatsappEvents added2) = 2%nat
  /\ Capture.on_message_add (fun m => m) clock' msg added2 = (Ret tt, added2)
  /\ length (Capture.whatsappEvents changed2) = 2%nat
  /\ Capture.on_message_change (fun m => m) clock' msg changed2
     = (Ret tt, changed2).
Proof.
  intros msg other s clock between clock' added added2 changed changed2.
  destruct (repeated_notification_is_dropped (fun m => m) clock clock' msg s
              added2) as [Hadd _]; [vm_compute; discriminate |].
  destruct (repeated_notification_is_dropped (fun m => m) clock clock' msg s
              changed2) as [_ Hchange]; [vm_compute; discriminate |].
  split; [reflexivity | split; [| split; [reflexivity |]]].
  - apply (Hadd added); [vm_compute; reflexivity |].
    intros eventType key _ [ts Hts].
    assert (Ha : Capture.processedMessages added
                 = {[ "3EB0_create_2" := 1767225600000 ]})
      by (vm_compute; reflexivity).
    rewrite Ha in Hts. apply lookup_singleton_Some in Hts as [<- _].
    vm_compute. by eexists.
  - apply (Hchange changed); [vm_compute; reflexivity |].
    intros eventType key _ [ts Hts].
    assert (Ha : Capture.processedMessages changed
                 = {[ "3EB0_delivered_2" := 1767225600000 ]})
      by (vm_compute; reflexivity).
    rewrite Ha in Hts. apply lookup_singleton_Some in Hts as [<- _].
    vm_compute. by eexists.
Defined.

(** Once a sweep has evicted the key the notification is queued again: the
    cache is over its ceiling when another message comes in more than five
    minutes after the first. *)
Example swept_notification_is_queued_again :
  let msg := JS.JObj [ ("id", JS.JObj [("_serialized", JS.JStr "3EB0")]);
                       ("body", JS.JStr "hola") ] in
  let other := JS.JObj [ ("id", JS.JObj [("_serialized", JS.JStr "3EB1")]);
                         ("body", JS.JStr "adios") ] in
  let t0 := 1767225600000 in
  let s := {| Capture.processedMessages := burst 1000 t0 ∅;
              Capture.seen := ∅; Capture.whatsappEvents := [] |} in
  let clock := {| Capture.at_insert := t0; Capture.at_sweep := t0;
                  Capture.at_push := t0 |} in
  let late := {| Capture.at_insert := t0 + 300001;
                 Capture.at_sweep := t0 + 300001;
                 Capture.at_push := t0 + 300001 |} in
  let s1 := snd (Capture.on_message_add (fun m => m) clock msg s) in
  let s2 := snd (Capture.on_message_add (fun m => m) late other s1) in
  let s3 := snd (Capture.on_message_add (fun m => m) late msg s2) in
  length (Capture.whatsappEvents s1) = 1%nat
  /\ length (Capture.whatsappEvents s2) = 2%nat
  /\ length (Capture.whatsappEvents s3) = 3%nat.
Proof. vm_compute. repeat split; reflexivity. Qed.

(** ** The contact listeners *)

Section ContactFacts.
Import JS Dedup Capture.

Lemma shouldProcess_unfold now key ttlMs (seen : gmap string Z) :
  shouldProcess now key ttlMs seen =
    if now - default 0 (seen !! key) <? ttlMs then (Ret false, seen)
    else (Ret true, sweep_if_large (now - 600000) (<[key := now]> seen)).
Proof.
  unfold shouldProcess, ebind, gets, modify, eret.
  destruct (now - default 0 (seen !! key) <? ttlMs); reflexivity.
Qed.

Lemma sweep_if_large_lookup cutoff (cache : gmap string Z) k :
  sweep_if_large cutoff cache !! k = cache !! k
  \/ (sweep_if_large cutoff cache !! k = None
      /\ exists ts, cache !! k = Some ts /\ ts < cutoff).
Proof.
  unfold sweep_if_large. destruct (1000 <? _); [| by left].
  destruct (cache !! k) as [ts |] eqn:Hk.
  - destruct (Z.le_gt_cases cutoff ts) as [Hle | Hgt].
    + left. by apply sweep_lookup.
    + right. split; [| exists ts; split; [reflexivity | lia]].
      destruct (sweep cutoff cache !! k) as [ts' |] eqn:Hs; [| reflexivity].
      apply sweep_lookup in Hs as [Hs Hle]. rewrite Hk in Hs.
      injection Hs as <-. lia.
  - left. destruct (sweep cutoff cache !! k) as [ts' |] eqn:Hs; [| reflexivity].
    apply sweep_lookup in Hs as [Hs _]. congruence.
Qed.

Lemma contact_calls_cons now key ttlMs rest (seen : gmap string Z) :
  contact_calls ((now, key, ttlMs) :: rest) seen
  = contact_calls rest (snd (shouldProcess now key ttlMs seen)).
Proof.
  cbn [contact_calls]. unfold ebind. rewrite shouldProcess_unfold.
  destruct (_ <? _); reflexivity.
Qed.

(** An entry that is gone stays gone while other keys are processed. *)
Lemma contact_calls_absent calls : forall (seen : gmap string Z) key,
  seen !! key = None ->
  Forall (fun call => snd (fst call) <> key) calls ->
  snd (contact_calls calls seen) !! key = None.
Proof.
  induction calls as [| [[now_i key_i] ttl_i] rest IH];
    intros seen key Hkey Hcalls; [exact Hkey |].
  inversion Hcalls as [| ? ? Hne Hrest]; subst. cbn [fst snd] in Hne.
  rewrite contact_calls_cons. apply IH; [| exact Hrest].
  rewrite shouldProcess_unfold.
  destruct (_ <? _); cbn [snd]; [exact Hkey |].
  destruct (sweep_if_large_lookup (now_i - 600000) (<[key_i := now_i]> seen) key)
    as [Hsame | [Hgone _]]; [| exact Hgone].
  by rewrite Hsame, lookup_insert_ne.
Qed.

(** Calls for other keys leave the entry of [key] in place unless one of
    them comes more than ten minutes after it. *)
Lemma contact_calls_other_keys calls : forall (seen : gmap string Z) key t now,
  seen !! key = Some t ->
  Forall (fun call => snd (fst call) <> key /\ fst (fst call) <= now) calls ->
  snd (contact_calls calls seen) !! key = Some t
  \/ (snd (contact_calls calls seen) !! key = None /\ t < now - 600000).
Proof.
  induction calls as [| [[now_i key_i] ttl_i] rest IH];
    intros seen key t now Hkey Hcalls; [by left |].
  inversion Hcalls as [| ? ? [Hne Hle] Hrest]; subst. cbn [fst snd] in Hne, Hle.
  rewrite contact_calls_cons, shouldProcess_unfold.
  destruct (now_i - default 0 (seen !! key_i) <? ttl_i); cbn [snd].
  - by apply IH.
  - destruct (sweep_if_large_lookup (now_i - 600000) (<[key_i := now_i]> seen) key)
      as [Hsame | [Hgone (ts & Hts & Hold)]];
      rewrite lookup_insert_ne in * by exact Hne.
    + apply IH; [congruence | exact Hrest].
    + rewrite Hkey in Hts. injection Hts as <-.
      right. split; [| lia].
      apply contact_calls_absent; [exact Hgone |].
      eapply Forall_impl; [exact Hrest |]. by intros call [H _].
Qed.

Lemma getKey_unidentified (contact : Value) (type : string) :
  unidentified_contact contact = true ->
  getKey contact type = Ret ("unknown_" +:+ type).
Proof.
  unfold unidentified_contact, getKey. intros H.
  apply andb_prop in H as [H H3]. apply andb_prop in H as [H1 H2].
  apply negb_true_iff in H1, H2, H3.
  unfold or. rewrite H1, H2, H3. reflexivity.
Qed.

End ContactFacts.

(** X26.  For contacts the suppression window is exact.  A key that was
    accepted at time [t] is accepted again at [now] if and only if at least
    its suppression time has passed since [t], whatever other keys were
    processed in between and whether or not a sweep removed the entry: the
    sweep only drops entries older than ten minutes, which no suppression
    time of at most ten minutes still needs. *)
Theorem contact_window_is_exact
    (seen : gmap string Z) (key : string) (t now ttlMs : Z)
    (calls : list (Z * string * Z)) :
  seen !! key = Some t ->
  0 <= t ->
  ttlMs <= 600000 ->
  Forall (fun call => snd (fst call) <> key /\ fst (fst call) <= now) calls ->
  fst (Dedup.shouldProcess now key ttlMs (snd (contact_calls calls seen)))
    = Ret (negb (now - t <? ttlMs)).
Proof.
  intros Hkey Ht Httl Hcalls.
  rewrite shouldProcess_unfold.
  destruct (contact_calls_other_keys calls seen key t now Hkey Hcalls)
    as [-> | [-> Hold]]; cbn [default].
  - unfold id. destruct (now - t <? ttlMs); reflexivity.
  - destruct (Z.ltb_spec (now - 0) ttlMs) as [H1 | H1];
      destruct (Z.ltb_spec (now - t) ttlMs) as [H2 | H2];
      try reflexivity; lia.
Qed.

Lemma contact_window_is_exact_witness :
  let seen : gmap string Z := {[ "5355512345@c.us_change" := 1767225600000 ]} in
  let calls := [ (1767225601000, "5355598765@c.us_change", 5000);
                 (1767225603000, "5355598765@c.us_add", 120000) ] in
  fst (Dedup.shouldProcess 1767225604999 "5355512345@c.us_change" 5000
         (snd (contact_calls calls seen))) = Ret false
  /\ fst (Dedup.shouldProcess 1767225605000 "5355512345@c.us_change" 5000
          (snd (contact_calls calls seen))) = Ret true.
Proof.
  intros seen calls. split.
  - apply (contact_window_is_exact seen "5355512345@c.us_change"
             1767225600000 1767225604999 5000 calls).
    + reflexivity.
    + lia.
    + lia.
    + repeat constructor; cbn; try discriminate; lia.
  - apply (contact_window_is_exact seen "5355512345@c.us_change"
             1767225600000 1767225605000 5000 calls).
    + reflexivity.
    + lia.
    + lia.
    + repeat constructor; cbn; try discriminate; lia.
Defined.

(** X27.  Contacts without a usable identifier share one key per event:
    [getKey] falls back to [unknown], so after one such contact has been
    queued, every other unidentified contact of the same event is dropped
    until the suppression time has passed, although it may be a different
    contact. *)
Theorem unidentified_contacts_share_a_key
    (serializeContact : JS.Value -> JS.Value) (type : string)
    (ttlMs now stamp last : Z) (contact : JS.Value) (s : Capture.t) :
  unidentified_contact contact = true ->
  Capture.seen s !! ("unknown_" +:+ type) = Some last ->
  now - last < ttlMs ->
  Dedup.getKey contact type = Ret ("unknown_" +:+ type)
  /\ Capture.contact_listener serializeContact type ttlMs now stamp contact s
     = (Ret tt, s).
Proof.
  intros Hc Hseen Hnow.
  pose proof (getKey_unidentified contact type Hc) as Hkey.
  split; [exact Hkey |].
  unfold Capture.contact_listener.
  unfold ebind at 1, lift at 1. rewrite Hkey.
  unfold ebind at 1, Capture.contacts at 1, zoom at 1.
  rewrite (shouldProcess_within now _ ttlMs (Capture.seen s) last Hseen Hnow).
  by destruct s.
Qed.

Lemma unidentified_contacts_share_a_key_witness :
  let first := JS.JObj [("name", JS.JStr "Ana")] in
  let second := JS.JObj [("name", JS.JStr "Luis")] in
  let s0 := {| Capture.processedMessages := ∅; Capture.seen := ∅;
               Capture.whatsappEvents := [] |} in
  let s1 := snd (Capture.on_contact_add (fun c => c)
                   1767225600000 1767225600001 first s0) in
  length (Capture.whatsappEvents s1) = 1%nat
  /\ Dedup.getKey second "add" = Ret "unknown_add"
  /\ Capture.on_contact_add (fun c => c) 1767225660000 1767225660001 second s1
     = (Ret tt, s1).
Proof.
  intros first second s0 s1. split; [reflexivity |].
  apply (unidentified_contacts_share_a_key (fun c => c) "add" 120000
           1767225660000 1767225660001 1767225600000 second s1).
  - reflexivity.
  - reflexivity.
  - lia.
Defined.

(** ** Stages of a message and the queue *)

Section StageFacts.
Import JS Dedup Capture.

Lemma message_key_string (id eventType : string) (ack : Value) :
  is_ack_level ack = true ->
  message_key (JStr id) eventType ack
  = Ret (id +:+ "_" +:+ eventType +:+ "_" +:+ pretty (ack_value ack)).
Proof.
  unfold message_key, is_ack_level, ack_value. intros Hack.
  destruct ack as [| | b | n | s | items | fs | name]; try discriminate;
    try reflexivity.
  cbn [to_string bind]. unfold or. cbn [truthy].
  destruct (Z.eqb_spec n 0) as [-> | Hn]; cbn [negb to_string]; [reflexivity |].
  unfold number_to_string. by rewrite Hack.
Qed.

Lemma pretty_Z_inj (n m : Z) : pretty n = pretty m -> n = m.
Proof.
  intros H. apply Z.eqb_eq. rewrite <- pretty_Z_eqb. by apply String.eqb_eq.
Qed.

Lemma stage_keys_differ (id e1 e2 : string) (n1 n2 : Z) :
  In e1 stage_names -> In e2 stage_names ->
  id +:+ "_" +:+ e1 +:+ "_" +:+ pretty n1 = id +:+ "_" +:+ e2 +:+ "_" +:+ pretty n2 ->
  e1 = e2 /\ n1 = n2.
Proof.
  intros H1 H2 Heq. apply String.app_inj in Heq.
  unfold stage_names in H1, H2. cbn in H1, H2.
  destruct H1 as [<- | [<- | [<- | [<- | []]]]];
    destruct H2 as [<- | [<- | [<- | [<- | []]]]];
    try (cbn in Heq; discriminate);
    (split; [reflexivity |]); apply pretty_Z_inj;
    do 3 apply String.app_inj in Heq; exact Heq.
Qed.

End StageFacts.

(** X28.  The stages of a message are deduplicated separately: the key
    holds the stage and the ack level, so a check that would have been
    accepted is still accepted after another stage or ack level of the same
    message has been processed. *)
Theorem later_stage_is_not_suppressed
    (id : string) (msg1 msg2 : JS.Value) (e1 e2 : string)
    (cache : gmap string Z) (now later now' later' : Z) :
  JS.opt (JS.opt msg1 "id") "_serialized" = JS.JStr id ->
  JS.opt (JS.opt msg2 "id") "_serialized" = JS.JStr id ->
  id <> "" ->
  is_ack_level (JS.opt msg1 "ack") = true ->
  is_ack_level (JS.opt msg2 "ack") = true ->
  In e1 stage_names -> In e2 stage_names ->
  (e1, ack_value (JS.opt msg1 "ack")) <> (e2, ack_value (JS.opt msg2 "ack")) ->
  fst (Dedup.shouldProcessMessage now' later' msg2 e2 cache) = Ret true ->
  fst (Dedup.shouldProcessMessage now' later' msg2 e2
         (snd (Dedup.shouldProcessMessage now later msg1 e1 cache)))
    = Ret true.
Proof.
  intros Hid1 Hid2 Hne Hack1 Hack2 He1 He2 Hdiff Hfresh.
  assert (Hident : forall msg,
             JS.opt (JS.opt msg "id") "_serialized" = JS.JStr id ->
             lacks_identifier msg = false).
  { intros msg Hmsg. unfold lacks_identifier. rewrite Hmsg.
    destruct msg; try discriminate. cbn [JS.opt] in *.
    destruct (JS.lookup_field "id" fields); try discriminate.
    cbn. apply String.eqb_neq in Hne. by rewrite Hne. }
  assert (Hkey : forall msg e,
             JS.opt (JS.opt msg "id") "_serialized" = JS.JStr id ->
             is_ack_level (JS.opt msg "ack") = true ->
             key_of msg e
             = Ret (id +:+ "_" +:+ e +:+ "_"
                    +:+ pretty (ack_value (JS.opt msg "ack")))).
  { intros msg e Hmsg Hack. unfold key_of. rewrite Hmsg.
    by apply message_key_string. }
  rewrite (shouldProcessMessage_identified now' later' msg2 e2 cache
             (Hident _ Hid2)), (Hkey _ e2 Hid2 Hack2) in Hfresh.
  destruct (bool_decide (is_Some (cache !! _))) eqn:Hk2 in Hfresh;
    [discriminate |].
  apply bool_decide_eq_false in Hk2.
  rewrite (shouldProcessMessage_identified now later msg1 e1 cache
             (Hident _ Hid1)), (Hkey _ e1 Hid1 Hack1).
  rewrite (shouldProcessMessage_identified now' later' msg2 e2 _
             (Hident _ Hid2)), (Hkey _ e2 Hid2 Hack2).
  destruct (bool_decide (is_Some (cache !! _))) eqn:Hk1; cbn [snd].
  - rewrite bool_decide_eq_false_2 by exact Hk2. reflexivity.
  - rewrite bool_decide_eq_false_2; [reflexivity |].
    intros [ts Hts].
    destruct (sweep_if_large_lookup (later - 5 * 60 * 1000)
                (<[id +:+ "_" +:+ e1 +:+ "_"
                   +:+ pretty (ack_value (JS.opt msg1 "ack")) := now]> cache)
                (id +:+ "_" +:+ e2 +:+ "_"
                 +:+ pretty (ack_value (JS.opt msg2 "ack"))))
      as [Hsame | [Hgone _]]; [| congruence].
    rewrite Hsame in Hts.
    rewrite lookup_insert_ne in Hts.
    + apply Hk2. by exists ts.
    + intros Heq. apply stage_keys_differ in Heq as [-> Hn]; try assumption.
      apply Hdiff. by rewrite Hn.
Qed.

Lemma later_stage_is_not_suppressed_witness :
  let sent := JS.JObj [ ("id", JS.JObj [("_serialized", JS.JStr "3EB0")]);
                        ("ack", JS.JNum 1) ] in
  let delivered := JS.JObj [ ("id", JS.JObj [("_serialized", JS.JStr "3EB0")]);
                             ("ack", JS.JNum 2) ] in
  fst (Dedup.shouldProcessMessage 1767225601000 1767225601000 delivered
         "delivered"
         (snd (Dedup.shouldProcessMessage 1767225600000 1767225600000 sent
                 "received" ∅)))
    = Ret true.
Proof.
  intros sent delivered.
  apply (later_stage_is_not_suppressed "3EB0" sent delivered
           "received" "delivered" ∅).
  - reflexivity.
  - reflexivity.
  - discriminate.
  - reflexivity.
  - reflexivity.
  - cbn. tauto.
  - cbn. tauto.
  - discriminate.
  - reflexivity.
Defined.

Section QueueFacts.
Import JS Dedup Capture.

Variable serializeMsg : Value -> Value.
Variable serializeContact : Value -> Value.

Lemma queues_nothing {A} (P : Value -> Prop) (m : Eff Capture.t A) :
  queue_untouched m -> queues_only P m.
Proof.
  intros Hm s o s' H. exists []. rewrite (Hm _ _ _ H), app_nil_r.
  repeat split; [cbn; lia | constructor].
Qed.

Lemma queues_after {A B} (P : Value -> Prop) (m : Eff Capture.t A)
    (k : A -> Eff Capture.t B) :
  queue_untouched m -> (forall a, queues_only P (k a)) ->
  queues_only P (ebind m k).
Proof.
  intros Hm Hk s o s' H. unfold ebind in H.
  destruct (m s) as [[a | e |] s1] eqn:E; pose proof (Hm _ _ _ E) as H1.
  - destruct (Hk a _ _ _ H) as (records & Hr & Hl & HP).
    exists records. by rewrite Hr, H1.
  - injection H as <- <-. exists []. rewrite H1, app_nil_r.
    repeat split; [cbn; lia | constructor].
  - injection H as <- <-. exists []. rewrite H1, app_nil_r.
    repeat split; [cbn; lia | constructor].
Qed.

Lemma queues_push (P : Value -> Prop) type data stamp :
  P (JObj [("type", JStr type); ("data", data); ("timestamp", JNum stamp)]) ->
  queues_only P (push type data stamp).
Proof.
  intros HP s o s' [= <- <-]. eexists [_]. cbn [whatsappEvents].
  repeat split; [cbn; lia | by constructor].
Qed.

Lemma untouched_messages {A} (m : Eff (gmap string Z) A) :
  queue_untouched (messages m).
Proof.
  intros s o s' H. unfold messages, zoom in H.
  destruct (m _) as [o1 c]. by injection H as <- <-.
Qed.

Lemma untouched_contacts {A} (m : Eff (gmap string Z) A) :
  queue_untouched (contacts m).
Proof.
  intros s o s' H. unfold contacts, zoom in H.
  destruct (m _) as [o1 c]. by injection H as <- <-.
Qed.

Lemma untouched_lift {A} (x : Outcome A) : queue_untouched (lift x).
Proof. by intros s o s' [= <- <-]. Qed.

Lemma untouched_eret {A} (a : A) : queue_untouched (eret a).
Proof. by intros s o s' [= <- <-]. Qed.

Lemma untouched_ack_is clock msg ack level eventType :
  queue_untouched (ack_is clock msg ack level eventType).
Proof.
  unfold ack_is. destruct (strict_equal ack (JNum level));
    [apply untouched_messages | apply untouched_eret].
Qed.

Lemma captured_here (types : list string) type data stamp :
  In type types ->
  captured types data
    (JObj [("type", JStr type); ("data", data); ("timestamp", JNum stamp)]).
Proof. intros Hin. by exists type, stamp. Qed.

Lemma on_message_add_queues clock msg :
  queues_only (captured ["message_create"] (serializeMsg msg))
    (on_message_add serializeMsg clock msg).
Proof.
  unfold on_message_add.
  apply queues_after; [apply untouched_messages | intros [|]].
  - apply queues_after; [apply untouched_lift | intros body].
    apply queues_after.
    + destruct (truthy body); [apply untouched_eret |].
      intros s o s' H. unfold ebind, lift, eret in H.
      destruct (get msg "type"); by injection H as <- <-.
    + intros label. apply queues_after; [apply untouched_lift | intros _].
      apply queues_push, captured_here. by left.
  - apply queues_nothing, untouched_eret.
Qed.

Lemma on_message_change_queues clock msg :
  queues_only
    (captured ["message_received"; "message_delivered"; "message_read"]
       (serializeMsg msg))
    (on_message_change serializeMsg clock msg).
Proof.
  unfold on_message_change.
  apply queues_after; [apply untouched_lift | intros ack].
  destruct (strict_equal ack JUndefined);
    [apply queues_nothing, untouched_eret |].
  apply queues_after; [apply untouched_ack_is | intros [|]].
  { apply queues_push, captured_here. by left. }
  apply queues_after; [apply untouched_ack_is | intros [|]].
  { apply queues_push, captured_here. right. by left. }
  apply queues_after; [apply untouched_ack_is | intros [|]].
  { apply queues_push, captured_here. right. right. by left. }
  apply queues_nothing, untouched_eret.
Qed.

Lemma contact_listener_queues type ttlMs now stamp c :
  queues_only (captured ["contact_" +:+ type] (serializeContact c))
    (contact_listener serializeContact type ttlMs now stamp c).
Proof.
  unfold contact_listener.
  apply queues_after; [apply untouched_lift | intros key].
  apply queues_after; [apply untouched_contacts | intros [|]].
  - apply queues_push, captured_here. by left.
  - apply queues_nothing, untouched_eret.
Qed.

Lemma captured_countable (data record : Value) :
  captured captured_types data record -> countable record = true.
Proof.
  intros (type & stamp & Hin & ->). unfold captured_types in Hin. cbn in Hin.
  destruct Hin as [<- | [<- | [<- | [<- | [<- | [<- | [<- | []]]]]]]];
    reflexivity.
Qed.

End QueueFacts.

(** X29.  What the message and contact listeners put in the queue is
    well-formed: each call appends at most one record, after the records
    already queued, and the record has the event type of its listener, the
    serialized model as data and a numeric timestamp.  The type of such a
    record always converts to a property key, so the pipeline can count
    it. *)
Theorem listeners_queue_countable_records
    (serializeMsg serializeContact : JS.Value -> JS.Value)
    (clock : Capture.Clock) (now stamp : Z) (msg contact : JS.Value) :
  queues_only (captured ["message_create"] (serializeMsg msg))
    (Capture.on_message_add serializeMsg clock msg)
  /\ queues_only
       (captured ["message_received"; "message_delivered"; "message_read"]
          (serializeMsg msg))
       (Capture.on_message_change serializeMsg clock msg)
  /\ queues_only (captured ["contact_add"] (serializeContact contact))
       (Capture.on_contact_add serializeContact now stamp contact)
  /\ queues_only (captured ["contact_change"] (serializeContact contact))
       (Capture.on_contact_change serializeContact now stamp contact)
  /\ queues_only (captured ["contact_remove"] (serializeContact contact))
       (Capture.on_contact_remove serializeContact now stamp contact)
  /\ forall data record,
       captured captured_types data record -> countable record = true.
Proof.
  split; [apply on_message_add_queues |].
  split; [apply on_message_change_queues |].
  split; [apply (contact_listener_queues serializeContact "add") |].
  split; [apply (contact_listener_queues serializeContact "change") |].
  split; [apply (contact_listener_queues serializeContact "remove") |].
  apply captured_countable.
Qed.
